(** * pyGeo: edge connectivity, global indexing, reference axes and update

    A shallow embedding of [pyGeo2.py].  Python objects are records,
    attribute assignment is functional record update, exceptions and
    [sys.exit] are an error monad, loops are folds over [xrange].
    Floating-point numbers are idealised as exact rationals ([Qc]);
    complex numbers are pairs of rationals. *)

From Stdlib Require Import ZArith List String Ascii Bool Lia QArith Qcanon.
From Stdlib Require Import Permutation DecimalString Decimal DecimalZ DecimalPos FinFun.
Import ListNotations.

Local Open Scope string_scope.
Local Open Scope Z_scope.
Local Open Scope list_scope.

Set Implicit Arguments.

(** ** Python exceptions as an error monad *)

Inductive exn : Type :=
| SystemExit (code : Z) (msg : string)
| IndexError
| NameError (name : string)
| TypeError
| ValueError
| EOFError
| IOError
| OutOfFuel.

Inductive result (A : Type) : Type :=
| Ok (a : A)
| Raise (e : exn).

Arguments Ok {A} a.
Arguments Raise {A} e.

Definition bind {A B} (m : result A) (k : A -> result B) : result B :=
  match m with
  | Ok a => k a
  | Raise e => Raise e
  end.

Notation "x <- m ;; k" := (bind m (fun x => k))
  (at level 61, m at next level, right associativity).
Notation "' p <- m ;; k" := (bind m (fun p => k))
  (at level 61, p pattern, m at next level, right associativity).

Definition lift {A} (e : exn) (o : option A) : result A :=
  match o with
  | Some a => Ok a
  | None => Raise e
  end.

(** [for x in l: s = body x s] *)
Fixpoint for_ {A S} (l : list A) (body : A -> S -> result S) (s : S) : result S :=
  match l with
  | [] => Ok s
  | x :: l' => s' <- body x s ;; for_ l' body s'
  end.

(** ** Python sequences *)

(** [xrange(n)] and [xrange(a,b)] *)
Definition xrange (n : Z) : list Z := map Z.of_nat (seq 0 (Z.to_nat n)).
Definition xrange2 (a b : Z) : list Z := map (fun k => a + Z.of_nat k) (seq 0 (Z.to_nat (b - a))).

(** Position of index [i] in a sequence of length [n]; negative indices
    count from the end, as in Python. *)
Definition norm_index (n : nat) (i : Z) : option nat :=
  if (0 <=? i) && (i <? Z.of_nat n) then Some (Z.to_nat i)
  else if (- Z.of_nat n <=? i) && (i <? 0) then Some (Z.to_nat (Z.of_nat n + i))
  else None.

Fixpoint set_nth {A} (l : list A) (n : nat) (x : A) : list A :=
  match l, n with
  | [], _ => []
  | _ :: l', O => x :: l'
  | y :: l', S n' => y :: set_nth l' n' x
  end.

(** [l[i]] *)
Definition getitem {A} (l : list A) (i : Z) : result A :=
  match norm_index (List.length l) i with
  | Some n => lift IndexError (nth_error l n)
  | None => Raise IndexError
  end.

(** [l[i] = x] *)
Definition setitem {A} (l : list A) (i : Z) (x : A) : result (list A) :=
  match norm_index (List.length l) i with
  | Some n => Ok (set_nth l n x)
  | None => Raise IndexError
  end.

(** [a[i,j]] and [a[i,j] = x] on a two-dimensional array *)
Definition getitem2 {A} (a : list (list A)) (i j : Z) : result A :=
  row <- getitem a i ;; getitem row j.

Definition setitem2 {A} (a : list (list A)) (i j : Z) (x : A) : result (list (list A)) :=
  row <- getitem a i ;;
  row' <- setitem row j x ;;
  setitem a i row'.

(** [zeros((n,m))] *)
Definition full2 {A} (n m : Z) (x : A) : list (list A) :=
  repeat (repeat x (Z.to_nat m)) (Z.to_nat n).

(** ** Numbers *)

Record complex : Type := Cx { real : Qc; imag : Qc }.

Definition Cadd (a b : complex) : complex :=
  Cx (real a + real b)%Qc (imag a + imag b)%Qc.
Definition Csub (a b : complex) : complex :=
  Cx (real a - real b)%Qc (imag a - imag b)%Qc.
Definition Cmul (a b : complex) : complex :=
  Cx (real a * real b - imag a * imag b)%Qc (real a * imag b + imag a * real b)%Qc.
Definition Cof (q : Qc) : complex := Cx q 0%Qc.
Definition CofZ (z : Z) : complex := Cof (Q2Qc (inject_Z z)).

Definition Qc_of_Z (z : Z) : Qc := Q2Qc (inject_Z z).
(** ** The classes of the module, as records

    Each class is a module holding the record of its attributes and one
    setter per attribute that the code assigns. *)

(** [class edge]: one row of the connectivity table. *)
Module edge.
Record obj : Type := mk {
  type : Z;
  f1 : Z;
  e1 : Z;
  dg : Z;
  Nctl : Z;
  dof : Z;
  cont : Z;
  dir : Z;
  f2 : Z;
  e2 : Z
}.
End edge.

(** The attributes of pySpline's [surf_spline] that pyGeo reads and writes. *)
Module surf_spline.
Record obj : Type := mk {
  Nctlu : Z;
  Nctlv : Z;
  ku : Z;
  kv : Z;
  tu : list Qc;
  tv : list Qc;
  coef : list (list (list Qc));
  globalCtlIndex : list (list Z);
  updated : list (list Qc)
}.
Definition set_tu (v : list Qc) (o : obj) : obj :=
  mk (Nctlu o) (Nctlv o) (ku o) (kv o) v (tv o) (coef o)
    (globalCtlIndex o) (updated o).
Definition set_tv (v : list Qc) (o : obj) : obj :=
  mk (Nctlu o) (Nctlv o) (ku o) (kv o) (tu o) v (coef o)
    (globalCtlIndex o) (updated o).
Definition set_coef (v : list (list (list Qc))) (o : obj) : obj :=
  mk (Nctlu o) (Nctlv o) (ku o) (kv o) (tu o) (tv o) v (globalCtlIndex o)
    (updated o).
Definition set_globalCtlIndex (v : list (list Z)) (o : obj) : obj :=
  mk (Nctlu o) (Nctlv o) (ku o) (kv o) (tu o) (tv o) (coef o) v
    (updated o).
Definition set_updated (v : list (list Qc)) (o : obj) : obj :=
  mk (Nctlu o) (Nctlv o) (ku o) (kv o) (tu o) (tv o) (coef o)
    (globalCtlIndex o) v.
End surf_spline.

(** The attributes of pySpline's [linear_spline] that pyGeo reads and writes.
    A one-dimensional coefficient array is a list of one-element rows. *)
Module linear_spline.
Record obj : Type := mk {
  s : list complex;
  t : list complex;
  coef : list (list complex)
}.
Definition set_coef (v : list (list complex)) (o : obj) : obj :=
  mk (s o) (t o) v.
End linear_spline.

(** [class ref_axis] *)
Module ref_axis.
Record obj : Type := mk {
  links_s : list complex;
  links_x : list (list complex);
  con_type : option string;
  N : Z;
  base_point : list complex;
  base_point_s : option complex;
  base_point_D : option (list complex);
  end_point : list complex;
  end_point_s : option complex;
  end_point_D : option (list complex);
  x : list (list complex);
  rot : list (list complex);
  scale : list complex;
  x0 : list (list complex);
  rot0 : list (list complex);
  scale0 : list complex;
  xs : linear_spline.obj;
  s : list complex;
  rotxs : linear_spline.obj;
  rotys : linear_spline.obj;
  rotzs : linear_spline.obj;
  scales : linear_spline.obj;
  coef_list : list Z;
  surf_ids : list Z
}.
Definition set_links_s (v : list complex) (o : obj) : obj :=
  mk v (links_x o) (con_type o) (N o) (base_point o) (base_point_s o)
    (base_point_D o) (end_point o) (end_point_s o) (end_point_D o) (x o)
    (rot o) (scale o) (x0 o) (rot0 o) (scale0 o) (xs o) (s o) (rotxs o)
    (rotys o) (rotzs o) (scales o) (coef_list o) (surf_ids o).
Definition set_links_x (v : list (list complex)) (o : obj) : obj :=
  mk (links_s o) v (con_type o) (N o) (base_point o) (base_point_s o)
    (base_point_D o) (end_point o) (end_point_s o) (end_point_D o) (x o)
    (rot o) (scale o) (x0 o) (rot0 o) (scale0 o) (xs o) (s o) (rotxs o)
    (rotys o) (rotzs o) (scales o) (coef_list o) (surf_ids o).
Definition set_con_type (v : option string) (o : obj) : obj :=
  mk (links_s o) (links_x o) v (N o) (base_point o) (base_point_s o)
    (base_point_D o) (end_point o) (end_point_s o) (end_point_D o) (x o)
    (rot o) (scale o) (x0 o) (rot0 o) (scale0 o) (xs o) (s o) (rotxs o)
    (rotys o) (rotzs o) (scales o) (coef_list o) (surf_ids o).
Definition set_base_point (v : list complex) (o : obj) : obj :=
  mk (links_s o) (links_x o) (con_type o) (N o) v (base_point_s o)
    (base_point_D o) (end_point o) (end_point_s o) (end_point_D o) (x o)
    (rot o) (scale o) (x0 o) (rot0 o) (scale0 o) (xs o) (s o) (rotxs o)
    (rotys o) (rotzs o) (scales o) (coef_list o) (surf_ids o).
Definition set_base_point_s (v : option complex) (o : obj) : obj :=
  mk (links_s o) (links_x o) (con_type o) (N o) (base_point o) v
    (base_point_D o) (end_point o) (end_point_s o) (end_point_D o) (x o)
    (rot o) (scale o) (x0 o) (rot0 o) (scale0 o) (xs o) (s o) (rotxs o)
    (rotys o) (rotzs o) (scales o) (coef_list o) (surf_ids o).
Definition set_base_point_D (v : option (list complex)) (o : obj) : obj :=
  mk (links_s o) (links_x o) (con_type o) (N o) (base_point o)
    (base_point_s o) v (end_point o) (end_point_s o) (end_point_D o) (x o)
    (rot o) (scale o) (x0 o) (rot0 o) (scale0 o) (xs o) (s o) (rotxs o)
    (rotys o) (rotzs o) (scales o) (coef_list o) (surf_ids o).
Definition set_end_point (v : list complex) (o : obj) : obj :=
  mk (links_s o) (links_x o) (con_type o) (N o) (base_point o)
    (base_point_s o) (base_point_D o) v (end_point_s o) (end_point_D o)
    (x o) (rot o) (scale o) (x0 o) (rot0 o) (scale0 o) (xs o) (s o)
    (rotxs o) (rotys o) (rotzs o) (scales o) (coef_list o) (surf_ids o).
Definition set_end_point_s (v : option complex) (o : obj) : obj :=
  mk (links_s o) (links_x o) (con_type o) (N o) (base_point o)
    (base_point_s o) (base_point_D o) (end_point o) v (end_point_D o)
    (x o) (rot o) (scale o) (x0 o) (rot0 o) (scale0 o) (xs o) (s o)
    (rotxs o) (rotys o) (rotzs o) (scales o) (coef_list o) (surf_ids o).
Definition set_end_point_D (v : option (list complex)) (o : obj) : obj :=
  mk (links_s o) (links_x o) (con_type o) (N o) (base_point o)
    (base_point_s o) (base_point_D o) (end_point o) (end_point_s o) v
    (x o) (rot o) (scale o) (x0 o) (rot0 o) (scale0 o) (xs o) (s o)
    (rotxs o) (rotys o) (rotzs o) (scales o) (coef_list o) (surf_ids o).
Definition set_xs (v : linear_spline.obj) (o : obj) : obj :=
  mk (links_s o) (links_x o) (con_type o) (N o) (base_point o)
    (base_point_s o) (base_point_D o) (end_point o) (end_point_s o)
    (end_point_D o) (x o) (rot o) (scale o) (x0 o) (rot0 o) (scale0 o) v
    (s o) (rotxs o) (rotys o) (rotzs o) (scales o) (coef_list o)
    (surf_ids o).
Definition set_rotxs (v : linear_spline.obj) (o : obj) : obj :=
  mk (links_s o) (links_x o) (con_type o) (N o) (base_point o)
    (base_point_s o) (base_point_D o) (end_point o) (end_point_s o)
    (end_point_D o) (x o) (rot o) (scale o) (x0 o) (rot0 o) (scale0 o)
    (xs o) (s o) v (rotys o) (rotzs o) (scales o) (coef_list o)
    (surf_ids o).
Definition set_rotys (v : linear_spline.obj) (o : obj) : obj :=
  mk (links_s o) (links_x o) (con_type o) (N o) (base_point o)
    (base_point_s o) (base_point_D o) (end_point o) (end_point_s o)
    (end_point_D o) (x o) (rot o) (scale o) (x0 o) (rot0 o) (scale0 o)
    (xs o) (s o) (rotxs o) v (rotzs o) (scales o) (coef_list o)
    (surf_ids o).
Definition set_rotzs (v : linear_spline.obj) (o : obj) : obj :=
  mk (links_s o) (links_x o) (con_type o) (N o) (base_point o)
    (base_point_s o) (base_point_D o) (end_point o) (end_point_s o)
    (end_point_D o) (x o) (rot o) (scale o) (x0 o) (rot0 o) (scale0 o)
    (xs o) (s o) (rotxs o) (rotys o) v (scales o) (coef_list o)
    (surf_ids o).
Definition set_scales (v : linear_spline.obj) (o : obj) : obj :=
  mk (links_s o) (links_x o) (con_type o) (N o) (base_point o)
    (base_point_s o) (base_point_D o) (end_point o) (end_point_s o)
    (end_point_D o) (x o) (rot o) (scale o) (x0 o) (rot0 o) (scale0 o)
    (xs o) (s o) (rotxs o) (rotys o) (rotzs o) v (coef_list o)
    (surf_ids o).
Definition set_coef_list (v : list Z) (o : obj) : obj :=
  mk (links_s o) (links_x o) (con_type o) (N o) (base_point o)
    (base_point_s o) (base_point_D o) (end_point o) (end_point_s o)
    (end_point_D o) (x o) (rot o) (scale o) (x0 o) (rot0 o) (scale0 o)
    (xs o) (s o) (rotxs o) (rotys o) (rotzs o) (scales o) v (surf_ids o).
Definition set_surf_ids (v : list Z) (o : obj) : obj :=
  mk (links_s o) (links_x o) (con_type o) (N o) (base_point o)
    (base_point_s o) (base_point_D o) (end_point o) (end_point_s o)
    (end_point_D o) (x o) (rot o) (scale o) (x0 o) (rot0 o) (scale0 o)
    (xs o) (s o) (rotxs o) (rotys o) (rotzs o) (scales o) (coef_list o) v.
End ref_axis.

(** The value of a global design variable: a Python [int], [float] or
    [complex] scalar, or a sequence of numbers. *)
Inductive pyval : Type :=
| PyInt (z : Z)
| PyFloat (q : Qc)
| PyComplex (c : complex)
| PySeq (l : list complex).

(** [class geoDVGlobal] *)
Module geoDVGlobal.
Record obj : Type := mk {
  name : string;
  value : pyval;
  nVal : Z;
  lower : pyval;
  upper : pyval;
  function : pyval -> list ref_axis.obj -> result (list ref_axis.obj)
}.
Definition set_value (v : pyval) (o : obj) : obj :=
  mk (name o) v (nVal o) (lower o) (upper o) (function o).
End geoDVGlobal.

(** [class geoDVLocal] *)
Module geoDVLocal.
Record obj : Type := mk {
  nVal : Z;
  value : list complex;
  name : string;
  lower : pyval;
  upper : pyval;
  surface_id : Z;
  coef_list : list Z;
  local_coef_index : list (Z * Z)
}.
Definition set_value (v : list complex) (o : obj) : obj :=
  mk (nVal o) v (name o) (lower o) (upper o) (surface_id o) (coef_list o)
    (local_coef_index o).
End geoDVLocal.

(** [class pyGeo], together with the standard streams and the files of the
    process it runs in ([stdin], [stdout], [files]). *)
Module pyGeo.
Record obj : Type := mk {
  ref_axis : list ref_axis.obj;
  ref_axis_con : list (Z * Z * string);
  DV_listGlobal : list geoDVGlobal.obj;
  DV_listLocal : list geoDVLocal.obj;
  DV_namesGlobal : list (string * Z);
  DV_namesLocal : list (string * Z);
  J1 : option (list (list Qc));
  con : option (list edge.obj);
  surfs : list surf_spline.obj;
  nSurf : Z;
  global_coef : list (list (Z * Z * Z));
  coef_sizes : list Z;
  coef_shapes : list (Z * Z);
  coef : list (list Qc);
  slices : list (Z * Z);
  Ncoef : Z;
  stdin : list string;
  stdout : list string;
  files : list (string * string)
}.
Definition set_ref_axis (v : list ref_axis.obj) (o : obj) : obj :=
  mk v (ref_axis_con o) (DV_listGlobal o) (DV_listLocal o)
    (DV_namesGlobal o) (DV_namesLocal o) (J1 o) (con o) (surfs o)
    (nSurf o) (global_coef o) (coef_sizes o) (coef_shapes o) (coef o)
    (slices o) (Ncoef o) (stdin o) (stdout o) (files o).
Definition set_ref_axis_con (v : list (Z * Z * string)) (o : obj) : obj :=
  mk (ref_axis o) v (DV_listGlobal o) (DV_listLocal o) (DV_namesGlobal o)
    (DV_namesLocal o) (J1 o) (con o) (surfs o) (nSurf o) (global_coef o)
    (coef_sizes o) (coef_shapes o) (coef o) (slices o) (Ncoef o) (stdin o)
    (stdout o) (files o).
Definition set_DV_listGlobal (v : list geoDVGlobal.obj) (o : obj) : obj :=
  mk (ref_axis o) (ref_axis_con o) v (DV_listLocal o) (DV_namesGlobal o)
    (DV_namesLocal o) (J1 o) (con o) (surfs o) (nSurf o) (global_coef o)
    (coef_sizes o) (coef_shapes o) (coef o) (slices o) (Ncoef o) (stdin o)
    (stdout o) (files o).
Definition set_DV_listLocal (v : list geoDVLocal.obj) (o : obj) : obj :=
  mk (ref_axis o) (ref_axis_con o) (DV_listGlobal o) v (DV_namesGlobal o)
    (DV_namesLocal o) (J1 o) (con o) (surfs o) (nSurf o) (global_coef o)
    (coef_sizes o) (coef_shapes o) (coef o) (slices o) (Ncoef o) (stdin o)
    (stdout o) (files o).
Definition set_DV_namesGlobal (v : list (string * Z)) (o : obj) : obj :=
  mk (ref_axis o) (ref_axis_con o) (DV_listGlobal o) (DV_listLocal o) v
    (DV_namesLocal o) (J1 o) (con o) (surfs o) (nSurf o) (global_coef o)
    (coef_sizes o) (coef_shapes o) (coef o) (slices o) (Ncoef o) (stdin o)
    (stdout o) (files o).
Definition set_DV_namesLocal (v : list (string * Z)) (o : obj) : obj :=
  mk (ref_axis o) (ref_axis_con o) (DV_listGlobal o) (DV_listLocal o)
    (DV_namesGlobal o) v (J1 o) (con o) (surfs o) (nSurf o)
    (global_coef o) (coef_sizes o) (coef_shapes o) (coef o) (slices o)
    (Ncoef o) (stdin o) (stdout o) (files o).
Definition set_J1 (v : option (list (list Qc))) (o : obj) : obj :=
  mk (ref_axis o) (ref_axis_con o) (DV_listGlobal o) (DV_listLocal o)
    (DV_namesGlobal o) (DV_namesLocal o) v (con o) (surfs o) (nSurf o)
    (global_coef o) (coef_sizes o) (coef_shapes o) (coef o) (slices o)
    (Ncoef o) (stdin o) (stdout o) (files o).
Definition set_con (v : option (list edge.obj)) (o : obj) : obj :=
  mk (ref_axis o) (ref_axis_con o) (DV_listGlobal o) (DV_listLocal o)
    (DV_namesGlobal o) (DV_namesLocal o) (J1 o) v (surfs o) (nSurf o)
    (global_coef o) (coef_sizes o) (coef_shapes o) (coef o) (slices o)
    (Ncoef o) (stdin o) (stdout o) (files o).
Definition set_surfs (v : list surf_spline.obj) (o : obj) : obj :=
  mk (ref_axis o) (ref_axis_con o) (DV_listGlobal o) (DV_listLocal o)
    (DV_namesGlobal o) (DV_namesLocal o) (J1 o) (con o) v (nSurf o)
    (global_coef o) (coef_sizes o) (coef_shapes o) (coef o) (slices o)
    (Ncoef o) (stdin o) (stdout o) (files o).
Definition set_nSurf (v : Z) (o : obj) : obj :=
  mk (ref_axis o) (ref_axis_con o) (DV_listGlobal o) (DV_listLocal o)
    (DV_namesGlobal o) (DV_namesLocal o) (J1 o) (con o) (surfs o) v
    (global_coef o) (coef_sizes o) (coef_shapes o) (coef o) (slices o)
    (Ncoef o) (stdin o) (stdout o) (files o).
Definition set_global_coef (v : list (list (Z * Z * Z))) (o : obj) : obj :=
  mk (ref_axis o) (ref_axis_con o) (DV_listGlobal o) (DV_listLocal o)
    (DV_namesGlobal o) (DV_namesLocal o) (J1 o) (con o) (surfs o)
    (nSurf o) v (coef_sizes o) (coef_shapes o) (coef o) (slices o)
    (Ncoef o) (stdin o) (stdout o) (files o).
Definition set_coef_sizes (v : list Z) (o : obj) : obj :=
  mk (ref_axis o) (ref_axis_con o) (DV_listGlobal o) (DV_listLocal o)
    (DV_namesGlobal o) (DV_namesLocal o) (J1 o) (con o) (surfs o)
    (nSurf o) (global_coef o) v (coef_shapes o) (coef o) (slices o)
    (Ncoef o) (stdin o) (stdout o) (files o).
Definition set_coef_shapes (v : list (Z * Z)) (o : obj) : obj :=
  mk (ref_axis o) (ref_axis_con o) (DV_listGlobal o) (DV_listLocal o)
    (DV_namesGlobal o) (DV_namesLocal o) (J1 o) (con o) (surfs o)
    (nSurf o) (global_coef o) (coef_sizes o) v (coef o) (slices o)
    (Ncoef o) (stdin o) (stdout o) (files o).
Definition set_coef (v : list (list Qc)) (o : obj) : obj :=
  mk (ref_axis o) (ref_axis_con o) (DV_listGlobal o) (DV_listLocal o)
    (DV_namesGlobal o) (DV_namesLocal o) (J1 o) (con o) (surfs o)
    (nSurf o) (global_coef o) (coef_sizes o) (coef_shapes o) v (slices o)
    (Ncoef o) (stdin o) (stdout o) (files o).
Definition set_slices (v : list (Z * Z)) (o : obj) : obj :=
  mk (ref_axis o) (ref_axis_con o) (DV_listGlobal o) (DV_listLocal o)
    (DV_namesGlobal o) (DV_namesLocal o) (J1 o) (con o) (surfs o)
    (nSurf o) (global_coef o) (coef_sizes o) (coef_shapes o) (coef o) v
    (Ncoef o) (stdin o) (stdout o) (files o).
Definition set_Ncoef (v : Z) (o : obj) : obj :=
  mk (ref_axis o) (ref_axis_con o) (DV_listGlobal o) (DV_listLocal o)
    (DV_namesGlobal o) (DV_namesLocal o) (J1 o) (con o) (surfs o)
    (nSurf o) (global_coef o) (coef_sizes o) (coef_shapes o) (coef o)
    (slices o) v (stdin o) (stdout o) (files o).
Definition set_stdin (v : list string) (o : obj) : obj :=
  mk (ref_axis o) (ref_axis_con o) (DV_listGlobal o) (DV_listLocal o)
    (DV_namesGlobal o) (DV_namesLocal o) (J1 o) (con o) (surfs o)
    (nSurf o) (global_coef o) (coef_sizes o) (coef_shapes o) (coef o)
    (slices o) (Ncoef o) v (stdout o) (files o).
Definition set_stdout (v : list string) (o : obj) : obj :=
  mk (ref_axis o) (ref_axis_con o) (DV_listGlobal o) (DV_listLocal o)
    (DV_namesGlobal o) (DV_namesLocal o) (J1 o) (con o) (surfs o)
    (nSurf o) (global_coef o) (coef_sizes o) (coef_shapes o) (coef o)
    (slices o) (Ncoef o) (stdin o) v (files o).
Definition set_files (v : list (string * string)) (o : obj) : obj :=
  mk (ref_axis o) (ref_axis_con o) (DV_listGlobal o) (DV_listLocal o)
    (DV_namesGlobal o) (DV_namesLocal o) (J1 o) (con o) (surfs o)
    (nSurf o) (global_coef o) (coef_sizes o) (coef_shapes o) (coef o)
    (slices o) (Ncoef o) (stdin o) (stdout o) v.
End pyGeo.

(** ** Strings: [%d] formatting, [int], [split], [replace], lines of a file *)

Definition str_of_Z (z : Z) : string := NilZero.string_of_int (Z.to_int z).

Fixpoint spaces (n : nat) : string :=
  match n with
  | O => EmptyString
  | S n' => String " " (spaces n')
  end.

(** ['%3d' % z] *)
Definition fmt_3d (z : Z) : string :=
  let s := str_of_Z z in
  (spaces (3 - String.length s) ++ s)%string.

(** [int(s)] for a string without surrounding white space *)
Definition int_ (s : string) : result Z :=
  match s with
  | String "+" s' =>
      lift ValueError (option_map (fun d => Z.of_int (Pos d)) (NilZero.uint_of_string s'))
  | _ => lift ValueError (option_map Z.of_int (NilZero.int_of_string s))
  end.

Definition isspace (c : ascii) : bool :=
  let n := nat_of_ascii c in
  (Nat.eqb n 32 || (Nat.leb 9 n && Nat.leb n 13))%bool.

(** [string.split(s)]: the maximal runs of characters that are not white
    space; [tok] is the run being read. *)
Fixpoint split_from (s : string) (tok : string) : list string :=
  match s with
  | EmptyString => if String.eqb tok "" then [] else [tok]
  | String c s' =>
      if isspace c
      then (if String.eqb tok "" then split_from s' "" else tok :: split_from s' "")
      else split_from s' (tok ++ String c "")%string
  end.

Definition split (s : string) : list string := split_from s "".

(** [s.replace(a, b)] for single characters *)
Fixpoint replace (a b : ascii) (s : string) : string :=
  match s with
  | EmptyString => EmptyString
  | String c s' => String (if Ascii.eqb c a then b else c) (replace a b s')
  end.

Definition newline : ascii := ascii_of_nat 10.
Definition nl : string := String newline "".

(** [for line in f]: the lines of a file, each with its newline; [cur] is
    the line being read. *)
Fixpoint lines_from (s : string) (cur : string) : list string :=
  match s with
  | EmptyString => if String.eqb cur "" then [] else [cur]
  | String c s' =>
      if Ascii.eqb c newline
      then (cur ++ nl)%string :: lines_from s' ""
      else lines_from s' (cur ++ String c "")%string
  end.

Definition readlines (s : string) : list string := lines_from s "".

(** [handle.write(text)] on standard output; [stdout] is the list of the
    texts written so far. *)
Definition write_stdout (text : string) (self : pyGeo.obj) : pyGeo.obj :=
  pyGeo.set_stdout (pyGeo.stdout self ++ [text]) self.

(** [print a, b, ...]: one line on standard output *)
Definition print (line : string) (self : pyGeo.obj) : pyGeo.obj :=
  write_stdout (line ++ nl)%string self.

(** [raw_input()]: the next line of standard input, without its newline *)
Definition raw_input (self : pyGeo.obj) : result (string * pyGeo.obj) :=
  match pyGeo.stdin self with
  | [] => Raise EOFError
  | line :: rest => Ok (line, pyGeo.set_stdin rest self)
  end.

Fixpoint lookup_file (files : list (string * string)) (name : string) : option string :=
  match files with
  | [] => None
  | (n, c) :: rest => if String.eqb n name then Some c else lookup_file rest name
  end.

(** ** [class edge] *)

(** [edge.__init__(init_string)] *)
Definition edge_init (init_string : string) : result edge.obj :=
  let aux := split init_string in
  type <- (a <- getitem aux 3 ;; int_ a) ;;
  f1 <- (a <- getitem aux 1 ;; int_ a) ;;
  e1 <- (a <- getitem aux 2 ;; int_ a) ;;
  dg <- (a <- getitem aux 7 ;; int_ a) ;;
  Nctl <- (a <- getitem aux 8 ;; int_ a) ;;
  if type =? 0 then
    dof <- (a <- getitem aux 4 ;; int_ a) ;;
    Ok (edge.mk type f1 e1 dg Nctl dof (-1) 1 (-1) (-1))
  else
    cont <- (a <- getitem aux 5 ;; int_ a) ;;
    dir <- (a <- getitem aux 6 ;; int_ a) ;;
    f2 <- (a <- getitem aux 9 ;; int_ a) ;;
    e2 <- (a <- getitem aux 10 ;; int_ a) ;;
    Ok (edge.mk type f1 e1 dg Nctl 7 cont dir f2 e2).

(** A format string made of [%3d] fields, each followed by literal text. *)
Fixpoint fields_text (l : list (Z * string)) : string :=
  match l with
  | [] => EmptyString
  | (z, sep) :: l' => (fmt_3d z ++ sep ++ fields_text l')%string
  end.

(** The row format shared by [edge.write_info] and [calcEdgeConnectivity]:
    ['%3d        |%3d     %3d    |%3d   | %3d  |  %3d       | %3d  | %3d           | %3d  | %3d     %3d      |\n'] *)
Definition row_format (a0 a1 a2 a3 a4 a5 a6 a7 a8 a9 a10 : Z) : string :=
  fields_text
    [(a0, "        |"); (a1, "     "); (a2, "    |"); (a3, "   | "); (a4, "  |  ");
     (a5, "       | "); (a6, "  | "); (a7, "           | "); (a8, "  | "); (a9, "     ");
     (a10, ("      |" ++ nl)%string)].

(** [edge.write_info(i, handle)]: the text written to the handle *)
Definition write_info (e : edge.obj) (i : Z) : string :=
  row_format i (edge.f1 e) (edge.e1 e) (edge.type e) (edge.dof e) (edge.cont e)
    (edge.dir e) (edge.dg e) (edge.Nctl e) (edge.f2 e) (edge.e2 e).

(** ** External collaborators

    pySpline and [geo_utils] are not part of [pyGeo2.py]; pyGeo is
    modelled over an arbitrary implementation of what it calls. *)

Class Externals : Type := {
  (** [surf.getGlobalIndexEdge(edge, index, dir)] *)
  getGlobalIndexEdge : surf_spline.obj -> Z -> Z -> Z -> result Z;
  (** [test_edge(surf1, surf2, i, j, edge_tol)]: coincidence and direction *)
  test_edge : surf_spline.obj -> surf_spline.obj -> Z -> Z -> Qc -> bool * Z;
  (** [surf.recompute()] *)
  recompute : surf_spline.obj -> surf_spline.obj
}.

(** Modelled from the spec: [flipEdge] of [geo_utils], which is not in the
    source file.  "Each propagation step flips the edge index to its
    opposite (0<->1, 2<->3)". *)
Definition flipEdge (e : Z) : Z :=
  if e =? 0 then 1 else if e =? 1 then 0 else if e =? 2 then 3 else if e =? 3 then 2 else e.

(** ** Global indexing *)

(** The loop of [_findConIndex] over the records from position [i] on. *)
Fixpoint findCon_from (l : list edge.obj) (i isurf e : Z) : option (Z * bool) :=
  match l with
  | [] => None
  | c :: l' =>
      if (edge.f1 c =? isurf) && (edge.e1 c =? e) then Some (i, true)
      else if (edge.f2 c =? isurf) && (edge.e2 c =? e) then Some (i, false)
      else findCon_from l' (i + 1) isurf e
  end.

(** [_findConIndex(isurf, edge)] *)
Definition _findConIndex (self : pyGeo.obj) (isurf e : Z) : result (Z * bool) :=
  match pyGeo.con self with
  | None => Raise TypeError
  | Some l =>
      lift (SystemExit 1
              "Error: Edge was not found in the edge list. EVERY edge MUST appear in the edge con list")
           (findCon_from l 0 isurf e)
  end.

(** The local variables of [_setEdgeConnectivity] that live across loop
    iterations, with the object itself. *)
Record frame : Type := mkFrame {
  self : pyGeo.obj;
  counter : Z;
  patchID : option Z;
  g_index : option Z;
  master_bool_array : list (list bool)
}.

Definition set_self (v : pyGeo.obj) (fr : frame) : frame :=
  mkFrame v (counter fr) (patchID fr) (g_index fr) (master_bool_array fr).

(** [self.surfs[isurf].globalCtlIndex[i,j] = g] *)
Definition set_globalCtlIndex (o : pyGeo.obj) (isurf i j g : Z) : result pyGeo.obj :=
  sf <- getitem (pyGeo.surfs o) isurf ;;
  a <- setitem2 (surf_spline.globalCtlIndex sf) i j g ;;
  ss <- setitem (pyGeo.surfs o) isurf (surf_spline.set_globalCtlIndex a sf) ;;
  Ok (pyGeo.set_surfs ss o).

(** The master block:
    [g_index = counter; counter += 1; self.global_coef.append([[isurf,i,j]]);
     self.surfs[isurf].globalCtlIndex[i,j] = g_index; master_bool_array[i,j] = True] *)
Definition alloc_master (isurf i j : Z) (fr : frame) : result frame :=
  let g := counter fr in
  let o := pyGeo.set_global_coef (pyGeo.global_coef (self fr) ++ [[(isurf, i, j)]]) (self fr) in
  o' <- set_globalCtlIndex o isurf i j g ;;
  mba <- setitem2 (master_bool_array fr) i j true ;;
  Ok (mkFrame o' (g + 1) (patchID fr) (Some g) mba).

(** The tail of the slave block, once [patchID], [edge] and [dir] are known:
    [g_index = self.surfs[patchID].getGlobalIndexEdge(edge, t, dir);
     self.global_coef[g_index].append([isurf,i,j]);
     self.surfs[isurf].globalCtlIndex[i,j] = g_index] *)
Definition alias_to `{Externals} (isurf i j : Z) (pid e t d : Z) (fr : frame) : result frame :=
  sf <- getitem (pyGeo.surfs (self fr)) pid ;;
  g <- getGlobalIndexEdge sf e t d ;;
  entry <- getitem (pyGeo.global_coef (self fr)) g ;;
  gc <- setitem (pyGeo.global_coef (self fr)) g (entry ++ [(isurf, i, j)]) ;;
  o' <- set_globalCtlIndex (pyGeo.set_global_coef gc (self fr)) isurf i j g ;;
  Ok (mkFrame o' (counter fr) (patchID fr) (Some g) (master_bool_array fr)).

(** The slave block:
    [patchID = self.con[icon].f1; edge = self.con[icon].e1; dir = self.con[icon].dir]
    followed by the tail above with position [t] along the master edge. *)
Definition alias_slave `{Externals} (isurf i j icon t : Z) (fr : frame) : result frame :=
  l <- lift TypeError (pyGeo.con (self fr)) ;;
  c <- getitem l icon ;;
  let fr1 := mkFrame (self fr) (counter fr) (Some (edge.f1 c)) (g_index fr) (master_bool_array fr) in
  alias_to isurf i j (edge.f1 c) (edge.e1 c) t (edge.dir c) fr1.

(** The slave block of Node 2 when edge 1 is not master: the assignment is
    to [patchiD], so [self.surfs[patchID]] reads the value [patchID] had
    before, and fails when it was never assigned. *)
Definition alias_slave_patchiD `{Externals} (isurf i j icon t : Z) (fr : frame) : result frame :=
  l <- lift TypeError (pyGeo.con (self fr)) ;;
  c <- getitem l icon ;;
  pid <- lift (NameError "patchID") (patchID fr) ;;
  alias_to isurf i j pid (edge.e1 c) t (edge.dir c) fr.

Definition print_fr (line : string) (fr : frame) : frame :=
  set_self (print line (self fr)) fr.

(** An edge cell: [t] is the position along the edge. *)
Definition edge_cell `{Externals} (isurf i j e t : Z) (fr : frame) : result frame :=
  '(icon, master) <- _findConIndex (self fr) isurf e ;;
  if master : bool then alloc_master isurf i j fr
  else alias_slave isurf i j icon t fr.

(** The body of the [j] loop of [_setEdgeConnectivity]: the cell [(i,j)] of
    patch [isurf]. *)
Definition index_cell `{Externals} (isurf Nctlu Nctlv i j : Z) (fr : frame) : result frame :=
  if (0 <? i) && (i <? Nctlu - 1) && (0 <? j) && (j <? Nctlv - 1) then
    alloc_master isurf i j fr
  else if (0 <? i) && (i <? Nctlu - 1) && (j =? 0) then          (* Edge 0 *)
    edge_cell isurf i j 0 i fr
  else if (0 <? i) && (i <? Nctlu - 1) && (j =? Nctlv - 1) then  (* Edge 1 *)
    edge_cell isurf i j 1 i fr
  else if (i =? 0) && (0 <? j) && (j <? Nctlv - 1) then          (* Edge 2 *)
    edge_cell isurf i j 2 j fr
  else if (i =? Nctlu - 1) && (0 <? j) && (j <? Nctlv - 1) then  (* Edge 3 *)
    edge_cell isurf i j 3 j fr
  else if (i =? 0) && (j =? 0) then                              (* Node 0 *)
    '(icon1, master1) <- _findConIndex (self fr) isurf 0 ;;
    '(icon2, master2) <- _findConIndex (self fr) isurf 2 ;;
    let fr :=
      if negb master1 && negb master2 then
        print_fr ("icon1,icon2: " ++ str_of_Z icon1 ++ " " ++ str_of_Z icon2)%string
          (print_fr ("isurf: " ++ str_of_Z isurf)%string (print_fr "Both False" fr))
      else fr in
    if master1 && master2 then alloc_master isurf i j fr
    else if negb master1 then
      fr' <- alias_slave isurf i j icon1 0 fr ;;
      if negb master2 then
        g <- lift (NameError "g_index") (g_index fr') ;;
        Ok (print_fr ("gindex: " ++ str_of_Z g)%string fr')
      else Ok fr'
    else alias_slave isurf i j icon2 0 fr
  else if (i =? Nctlu - 1) && (j =? 0) then                      (* Node 1 *)
    '(icon1, master1) <- _findConIndex (self fr) isurf 0 ;;
    '(icon2, master2) <- _findConIndex (self fr) isurf 3 ;;
    if master1 && master2 then alloc_master isurf i j fr
    else if negb master1 then alias_slave isurf i j icon1 (Nctlu - 1) fr
    else alias_slave isurf i j icon2 0 fr
  else if (i =? 0) && (j =? Nctlv - 1) then                      (* Node 2 *)
    '(icon1, master1) <- _findConIndex (self fr) isurf 1 ;;
    '(icon2, master2) <- _findConIndex (self fr) isurf 2 ;;
    if master1 && master2 then alloc_master isurf i j fr
    else if negb master1 then alias_slave_patchiD isurf i j icon1 0 fr
    else alias_slave isurf i j icon2 (Nctlv - 1) fr
  else if (i =? Nctlu - 1) && (j =? Nctlv - 1) then              (* Node 3 *)
    '(icon1, master1) <- _findConIndex (self fr) isurf 1 ;;
    '(icon2, master2) <- _findConIndex (self fr) isurf 3 ;;
    if master1 && master2 then alloc_master isurf i j fr
    else if negb master1 then alias_slave isurf i j icon1 (Nctlu - 1) fr
    else alias_slave isurf i j icon2 (Nctlv - 1) fr
  else Ok fr.

(** [a.any()] for a row, and [a[:,j]] for a column *)
Definition any (row : list bool) : bool := existsb (fun b => b) row.

Fixpoint column {A} (a : list (list A)) (j : Z) : result (list A) :=
  match a with
  | [] => Ok []
  | row :: a' => x <- getitem row j ;; c <- column a' j ;; Ok (x :: c)
  end.

(** The body of the [isurf] loop of [_setEdgeConnectivity]. *)
Definition index_surf `{Externals} (isurf : Z) (fr : frame) : result frame :=
  sf <- getitem (pyGeo.surfs (self fr)) isurf ;;
  let Nctlu := surf_spline.Nctlu sf in
  let Nctlv := surf_spline.Nctlv sf in
  let fr := mkFrame (self fr) (counter fr) (patchID fr) (g_index fr) (full2 Nctlu Nctlv false) in
  let surf_start_index := counter fr in
  fr <- for_ (xrange Nctlu)
          (fun i fr => for_ (xrange Nctlv) (fun j fr => index_cell isurf Nctlu Nctlv i j fr) fr)
          fr ;;
  let surf_end_index := counter fr in
  let o := pyGeo.set_slices (pyGeo.slices (self fr) ++ [(surf_start_index, surf_end_index)]) (self fr) in
  let mba := master_bool_array fr in
  r0 <- getitem mba 0 ;;
  let Nctlu_free := if negb (any r0) then Nctlu - 1 else Nctlu in
  r1 <- getitem mba (Nctlu - 1) ;;
  let Nctlu_free := if negb (any r1) then Nctlu_free - 1 else Nctlu_free in
  c0 <- column mba 0 ;;
  let Nctlv_free := if negb (any c0) then Nctlv - 1 else Nctlv in
  c1 <- column mba (Nctlv - 1) ;;
  let Nctlv_free := if negb (any c1) then Nctlv_free - 1 else Nctlv_free in
  let o := pyGeo.set_coef_shapes (pyGeo.coef_shapes o ++ [(Nctlu_free, Nctlv_free)]) o in
  let o := pyGeo.set_coef_sizes (pyGeo.coef_sizes o ++ [Nctlu_free * Nctlv_free]) o in
  Ok (set_self o fr).

(** The final loop of [_setEdgeConnectivity]: [self.coef] holds the control
    point of the first alias of every entry. *)
Definition fill_coef (o : pyGeo.obj) : result pyGeo.obj :=
  for_ (xrange (Z.of_nat (List.length (pyGeo.global_coef o))))
    (fun ii o =>
       entry <- getitem (pyGeo.global_coef o) ii ;;
       '(isurf, i, j) <- getitem entry 0 ;;
       sf <- getitem (pyGeo.surfs o) isurf ;;
       c <- getitem2 (surf_spline.coef sf) i j ;;
       Ok (pyGeo.set_coef (pyGeo.coef o ++ [c]) o))
    o.

(** [_setEdgeConnectivity()] *)
Definition _setEdgeConnectivity `{Externals} (self0 : pyGeo.obj) : result pyGeo.obj :=
  match pyGeo.con self0 with
  | None =>
      Raise (SystemExit 1
        "Error: No edge connectivity is set yet. Either run  calcEdgeConnectivity or load in a .con file")
  | Some _ =>
      let o := pyGeo.set_global_coef [] self0 in
      let o := pyGeo.set_coef_sizes [] o in
      let o := pyGeo.set_coef_shapes [] o in
      let o := pyGeo.set_coef [] o in
      let o := pyGeo.set_slices [] o in
      fr <- for_ (xrange (pyGeo.nSurf o)) index_surf (mkFrame o 0 None None []) ;;
      let o := pyGeo.set_Ncoef (counter fr) (self fr) in
      fill_coef o
  end.

(** ** Edge connectivity *)

(** An entry of the local list [edges] of [calcEdgeConnectivity]:
    [[[f1,e1],[f2,e2],cont,dir,dg]] for a joined edge and [[[f,e],dg]] for a
    mirrored one. *)
Inductive entry : Type :=
| Joined (f1 e1 f2 e2 cont_flag dir_flag dg : Z)
| Mirrored (f e dg : Z).

(** [len(edges[i]) == 2] *)
Definition is_mirrored (en : entry) : bool :=
  match en with Mirrored _ _ _ => true | Joined _ _ _ _ _ _ _ => false end.

(** [edges[i][-1]] and [edges[i][-1] = dg] *)
Definition entry_dg (en : entry) : Z :=
  match en with Mirrored _ _ d => d | Joined _ _ _ _ _ _ d => d end.

Definition set_entry_dg (d : Z) (en : entry) : entry :=
  match en with
  | Mirrored f e _ => Mirrored f e d
  | Joined f1 e1 f2 e2 c r _ => Joined f1 e1 f2 e2 c r d
  end.

(** [edges[i][order]] read as a face/edge pair *)
Definition entry_side (en : entry) (order : Z) : result (Z * Z) :=
  match en with
  | Joined f1 e1 f2 e2 _ _ _ =>
      if order =? 0 then Ok (f1, e1) else if order =? 1 then Ok (f2, e2) else Raise TypeError
  | Mirrored f e _ => if order =? 0 then Ok (f, e) else Raise TypeError
  end.

Definition pair_eqb (a b : Z * Z) : bool := (fst a =? fst b) && (snd a =? snd b).

(** [edges.index(edge)] *)
Fixpoint index_from (l : list (Z * Z)) (x : Z * Z) (i : Z) : result Z :=
  match l with
  | [] => Raise ValueError
  | y :: l' => if pair_eqb y x then Ok i else index_from l' x (i + 1)
  end.

(** [_getConIndex(edges, edge, nJoined, nMirrored)] *)
Definition _getConIndex (edges : list (Z * Z)) (e : Z * Z) (nJoined nMirrored : Z) : result (Z * Z) :=
  i <- index_from edges e 0 ;;
  if i <? nJoined then Ok (i / 2, i mod 2)
  else Ok (nJoined / 2 + i - nJoined, 0).

(** The pairwise edge test: the four nested loops that fill [e_con]. *)
Definition find_joined `{Externals} (self : pyGeo.obj) (edge_tol : Qc) : result (list entry) :=
  for_ (xrange (pyGeo.nSurf self))
    (fun isurf e_con =>
       for_ (xrange2 (isurf + 1) (pyGeo.nSurf self))
         (fun jpatch e_con =>
            for_ (xrange 4)
              (fun i e_con =>
                 for_ (xrange 4)
                   (fun j e_con =>
                      s1 <- getitem (pyGeo.surfs self) isurf ;;
                      s2 <- getitem (pyGeo.surfs self) jpatch ;;
                      let '(coinc, dir_flag) := test_edge s1 s2 i j edge_tol in
                      let cont_flag := 0 in
                      if coinc : bool
                      then Ok (e_con ++ [Joined isurf i jpatch j cont_flag dir_flag (-1)])
                      else Ok e_con)
                   e_con)
              e_con)
         e_con)
    [].

(** [edge_list]: both sides of every joined entry, in order. *)
Fixpoint joined_sides (e_con : list entry) : list (Z * Z) :=
  match e_con with
  | [] => []
  | Joined f1 e1 f2 e2 _ _ _ :: l => (f1, e1) :: (f2, e2) :: joined_sides l
  | Mirrored f e _ :: l => (f, e) :: joined_sides l
  end.

(** [[i,j] in edge_list] *)
Definition mem_pair (x : Z * Z) (l : list (Z * Z)) : bool := existsb (fun y => pair_eqb y x) l.

(** The loop that finds the mirrored edges; the state is
    [(mirrored_edges, edge_list)]. *)
Definition find_mirrored (nSurf : Z) (edge_list : list (Z * Z)) : list entry * list (Z * Z) :=
  fold_left
    (fun st i =>
       fold_left
         (fun (st : list entry * list (Z * Z)) j =>
            let '(mirrored_edges, edge_list) := st in
            if negb (mem_pair (i, j) edge_list)
            then (mirrored_edges ++ [Mirrored i j (-1)], edge_list ++ [(i, j)])
            else st)
         (xrange 4) st)
    (xrange nSurf) ([], edge_list).

(** [edges[k][-1] = dg] *)
Definition assign_dg (edges : list entry) (k d : Z) : result (list entry) :=
  en <- getitem edges k ;;
  setitem edges k (set_entry_dg d en).

(** The [while cont2] loop that carries a driving group from joined entry
    [index] across the partner face; [fuel] bounds the iterations. *)
Fixpoint propagate (fuel : nat) (edge_list : list (Z * Z)) (nJoined nMirror dg_counter : Z)
    (edges : list entry) (index order : Z) : result (list entry) :=
  match fuel with
  | O => Raise OutOfFuel
  | S fuel' =>
      en <- getitem edges index ;;
      '(cur_face, cur_edge) <- entry_side en order ;;
      let cur_edge := flipEdge cur_edge in
      '(new_index, order) <- _getConIndex edge_list (cur_face, cur_edge) nJoined nMirror ;;
      en' <- getitem edges new_index ;;
      if negb (entry_dg en' =? -1) then Ok edges
      else
        let order := if order =? 0 then 1 else 0 in
        edges <- assign_dg edges new_index dg_counter ;;
        en' <- getitem edges new_index ;;
        if is_mirrored en' then Ok edges
        else propagate fuel' edge_list nJoined nMirror dg_counter edges new_index order
  end.

(** The body of the driving-group loop; the state is [(edges, dg_counter)]. *)
Definition assign_group (edge_list : list (Z * Z)) (nJoined nMirror : Z) (i : Z)
    (st : list entry * Z) : result (list entry * Z) :=
  let '(edges, dg_counter) := st in
  en <- getitem edges i ;;
  if entry_dg en =? -1 then
    let dg_counter := dg_counter + 1 in
    edges <- assign_dg edges i dg_counter ;;
    en <- getitem edges i ;;
    '(f, e) <- entry_side en 0 ;;
    let flip_edge := flipEdge e in
    '(flip_index, order) <- _getConIndex edge_list (f, flip_edge) nJoined nMirror ;;
    edges <- assign_dg edges flip_index dg_counter ;;
    en <- getitem edges i ;;
    edges <- (if is_mirrored en then Ok edges
              else propagate (S (List.length edges)) edge_list nJoined nMirror dg_counter edges i 1) ;;
    enf <- getitem edges flip_index ;;
    edges <- (if is_mirrored enf then Ok edges
              else propagate (S (List.length edges)) edge_list nJoined nMirror dg_counter edges flip_index 1) ;;
    Ok (edges, dg_counter)
  else Ok st.

(** The text from which [calcEdgeConnectivity] builds record [i]. *)
Definition init_string (i : Z) (en : entry) (nJoined : Z) : result string :=
  if i <? nJoined / 2 then
    match en with
    | Joined f1 e1 f2 e2 c d g => Ok (row_format i f1 e1 1 7 c d g 10 f2 e2)
    | Mirrored _ _ _ => Raise TypeError
    end
  else
    match en with
    | Mirrored f e g => Ok (row_format i f e 0 3 (-1) 1 g 10 (-1) (-1))
    | Joined f1 e1 f2 e2 c d g => Raise TypeError
    end.

(** [printEdgeConnectivity()] *)
Definition table_header : string :=
  "Connection | Face    Edge  | Type | dof  | Continutiy | Dir? | Driving Group | Nctl | Face    Edge     |".

Definition write_rows (l : list edge.obj) : list string :=
  map (fun p => write_info (snd p) (fst p)) (combine (xrange (Z.of_nat (List.length l))) l).

Definition printEdgeConnectivity (self : pyGeo.obj) : result pyGeo.obj :=
  l <- lift TypeError (pyGeo.con self) ;;
  let o := print table_header (print " " self) in
  let o := fold_left (fun o row => write_stdout row o) (write_rows l) o in
  Ok (print " " o).

(** The part of [calcEdgeConnectivity] that computes [self.con]. *)
Definition calc_con `{Externals} (self : pyGeo.obj) (edge_tol : Qc) : result (list edge.obj) :=
  e_con <- find_joined self edge_tol ;;
  let edge_list := joined_sides e_con in
  let '(mirrored_edges, edge_list) := find_mirrored (pyGeo.nSurf self) edge_list in
  let nJoined := Z.of_nat (List.length e_con) * 2 in
  let nMirror := Z.of_nat (List.length mirrored_edges) in
  let edges := e_con ++ mirrored_edges in
  let dg_counter := -1 in
  '(edges, _) <- for_ (xrange (Z.of_nat (List.length edges)))
                   (assign_group edge_list nJoined nMirror) (edges, dg_counter) ;;
  for_ (xrange (Z.of_nat (List.length edges)))
    (fun i con =>
       en <- getitem edges i ;;
       str <- init_string i en nJoined ;;
       let temp := replace "|" " " str in
       c <- edge_init temp ;;
       Ok (con ++ [c]))
    [].

(** The warnings printed before the answer is read. *)
Definition overwrite_warning_calc : string :=
  "Warning edge connectivity will be overwritten.  Enter 1 to continue, 0 to quit.".

Definition overwrite_warning_read : string :=
  "Warning edge connectivity will be overwritten. Enter 1 to continue, 0 to quit.".

(** [calcEdgeConnectivity(node_tol, edge_tol)].  The elapsed time printed at
    the end is left out of the text. *)
Definition calcEdgeConnectivity `{Externals} (self : pyGeo.obj) (node_tol edge_tol : Qc)
  : result pyGeo.obj :=
  r <- (match pyGeo.con self with
        | Some _ =>
            let o := print overwrite_warning_calc self in
            '(ans, o) <- raw_input o ;;
            Ok (String.eqb ans "0", o)
        | None => Ok (false, self)
        end) ;;
  let '(quit, o) := r in
  if quit : bool then Ok o
  else
    let o := print "Attempting to Determine Edge Connectivity" (print " " o) in
    con <- calc_con o edge_tol ;;
    let o := pyGeo.set_con (Some con) o in
    o <- printEdgeConnectivity o ;;
    let o := print "going to set edge connectivity" o in
    o <- _setEdgeConnectivity o ;;
    Ok (print "Time for Edge Calculation:" o).

(** [writeEdgeConnectivity(file_name)] *)
Definition writeEdgeConnectivity (self : pyGeo.obj) (file_name : string) : result pyGeo.obj :=
  l <- lift TypeError (pyGeo.con self) ;;
  let text := ((table_header ++ nl) ++ String.concat "" (write_rows l))%string in
  Ok (pyGeo.set_files ((file_name, text) :: pyGeo.files self) self).

(** [readEdgeConnectivity(file_name)] *)
Definition readEdgeConnectivity `{Externals} (self : pyGeo.obj) (file_name : string)
  : result pyGeo.obj :=
  r <- (match pyGeo.con self with
        | Some _ =>
            let o := print overwrite_warning_read self in
            '(ans, o) <- raw_input o ;;
            Ok (String.eqb ans "0", o)
        | None => Ok (false, self)
        end) ;;
  let '(quit, o) := r in
  if quit : bool then Ok o
  else
    let o := pyGeo.set_con (Some []) o in
    text <- lift IOError (lookup_file (pyGeo.files o) file_name) ;;
    let file := map (replace "|" " ") (readlines text) in
    con <- for_ (xrange2 1 (Z.of_nat (List.length file)))
             (fun i con => line <- getitem file i ;; c <- edge_init line ;; Ok (con ++ [c]))
             [] ;;
    let o := pyGeo.set_con (Some con) o in
    o <- printEdgeConnectivity o ;;
    _setEdgeConnectivity o.

(** ** A model of the external collaborators, from the spec *)

(** Modelled from the spec: [surf_spline.getGlobalIndexEdge] of pySpline,
    which is not in the source file.  "compute the index t along the edge
    and query the master patch for its global index at the corresponding
    position (accounting for direction)": position [index] along [edge] of
    the master, counted from the other end when [dir] is [-1]. *)
Definition getGlobalIndexEdge_model (sf : surf_spline.obj) (e index d : Z) : result Z :=
  let Nu := surf_spline.Nctlu sf in
  let Nv := surf_spline.Nctlv sf in
  let g := surf_spline.globalCtlIndex sf in
  if e =? 0 then getitem2 g (if d =? 1 then index else Nu - 1 - index) 0
  else if e =? 1 then getitem2 g (if d =? 1 then index else Nu - 1 - index) (Nv - 1)
  else if e =? 2 then getitem2 g 0 (if d =? 1 then index else Nv - 1 - index)
  else if e =? 3 then getitem2 g (Nu - 1) (if d =? 1 then index else Nv - 1 - index)
  else Raise ValueError.

(** The control points along edge [e] of a surface (0 = v-min, 1 = v-max,
    2 = u-min, 3 = u-max). *)
Definition edge_points (sf : surf_spline.obj) (e : Z) : list (list Qc) :=
  let c := surf_spline.coef sf in
  if e =? 0 then map (fun row => hd [] row) c
  else if e =? 1 then map (fun row => last row []) c
  else if e =? 2 then hd [] c
  else if e =? 3 then last c []
  else [].

Definition Qc_ltb (a b : Qc) : bool := negb (Qle_bool (this b) (this a)).

(** Squared distance between two points *)
Definition dist2 (p q : list Qc) : Qc :=
  fold_left Qcplus (map (fun ab => ((fst ab - snd ab) * (fst ab - snd ab))%Qc) (combine p q)) 0%Qc.

Definition points_coincide (tol : Qc) (ps qs : list (list Qc)) : bool :=
  Nat.eqb (List.length ps) (List.length qs)
  && forallb (fun pq => Qc_ltb (dist2 (fst pq) (snd pq)) (tol * tol)%Qc) (combine ps qs).

(** Modelled from the spec: [test_edge] of [geo_utils], which is not in the
    source file.  "Samples the control points along each edge and reports
    (coincident, direction); direction is -1 if the edges coincide when one
    is traversed in reverse." *)
Definition test_edge_model (s1 s2 : surf_spline.obj) (i j : Z) (edge_tol : Qc) : bool * Z :=
  let ps := edge_points s1 i in
  let qs := edge_points s2 j in
  if points_coincide edge_tol ps qs then (true, 1)
  else if points_coincide edge_tol ps (List.rev qs) then (true, -1)
  else (false, 1).

#[export] Instance spec_model : Externals := {
  getGlobalIndexEdge := getGlobalIndexEdge_model;
  test_edge := test_edge_model;
  recompute := fun sf => sf
}.

(** ** Concrete geometries *)

(** A patch with an [nu] x [nv] control grid whose control point [(i,j)]
    is at the integer point [pt i j]; its index array is still unset. *)
Definition patch_of (nu nv : Z) (pt : Z -> Z -> Z * Z * Z) : surf_spline.obj :=
  surf_spline.mk nu nv 4 4 [] []
    (map (fun i => map (fun j => let '(x, y, z) := pt i j in
                                 [Qc_of_Z x; Qc_of_Z y; Qc_of_Z z]) (xrange nv)) (xrange nu))
    (full2 nu nv (-1)) (full2 nu nv 0%Qc).

(** A flat rectangular patch in the plane [z = 0] whose corner is at
    [(x0, y0, 0)] and whose control points are one unit apart. *)
Definition flat_patch (nu nv x0 y0 : Z) : surf_spline.obj :=
  patch_of nu nv (fun i j => (x0 + i, y0 + j, 0)).

(** A pyGeo object right after its surfaces are created. *)
Definition new_pyGeo (surfs : list surf_spline.obj) : pyGeo.obj :=
  pyGeo.mk [] [] [] [] [] [] None None surfs (Z.of_nat (List.length surfs))
    [] [] [] [] [] 0 [] [] [].

(** Two 6 x 4 patches: edge 1 of patch 0 lies on edge 0 of patch 1. *)
Definition two_patches : pyGeo.obj :=
  new_pyGeo [flat_patch 6 4 0 0; flat_patch 6 4 0 3].

Definition tol_1e_4 : Qc := Q2Qc (1 # 10000).

(** ** Vocabulary of the properties *)

Definition cell : Type := (Z * Z * Z)%type.

Definition cell_eqb (a b : cell) : bool :=
  let '(p, i, j) := a in
  let '(q, k, l) := b in
  (p =? q) && (i =? k) && (j =? l).

(** The entries of [global_coef] that contain the alias [c]. *)
Definition entries_with (c : cell) (gc : list (list cell)) : list (list cell) :=
  filter (fun en => existsb (cell_eqb c) en) gc.

Definition dims (sf : surf_spline.obj) : Z * Z :=
  (surf_spline.Nctlu sf, surf_spline.Nctlv sf).

(** The attributes that global indexing leaves alone. *)
Definition same_topology (o o' : pyGeo.obj) : Prop :=
  pyGeo.con o' = pyGeo.con o /\
  pyGeo.nSurf o' = pyGeo.nSurf o /\
  map dims (pyGeo.surfs o') = map dims (pyGeo.surfs o).

(** One cell was given an index: [global_coef] gained the alias [c], in a
    new entry exactly when [counter] grew. *)
Definition cell_added (c : cell) (fr fr' : frame) : Prop :=
  same_topology (self fr) (self fr') /\
  Permutation (List.concat (pyGeo.global_coef (self fr')))
              (List.concat (pyGeo.global_coef (self fr)) ++ [c]) /\
  counter fr' - Z.of_nat (List.length (pyGeo.global_coef (self fr')))
  = counter fr - Z.of_nat (List.length (pyGeo.global_coef (self fr))) /\
  (Forall (fun en => en <> []) (pyGeo.global_coef (self fr)) ->
   Forall (fun en => en <> []) (pyGeo.global_coef (self fr'))).

(** The aliases gathered between two frames. *)
Definition indexed (fr0 fr : frame) (cells : list cell) : Prop :=
  same_topology (self fr0) (self fr) /\
  Permutation (List.concat (pyGeo.global_coef (self fr)))
              (List.concat (pyGeo.global_coef (self fr0)) ++ cells) /\
  counter fr - Z.of_nat (List.length (pyGeo.global_coef (self fr)))
  = counter fr0 - Z.of_nat (List.length (pyGeo.global_coef (self fr0))) /\
  (Forall (fun en => en <> []) (pyGeo.global_coef (self fr0)) ->
   Forall (fun en => en <> []) (pyGeo.global_coef (self fr))).

(** The cells of patch [isurf] in the order of the loops. *)
Definition cells_of_row (isurf Nctlv i : Z) : list cell :=
  map (fun j => (isurf, i, j)) (xrange Nctlv).

Definition cells_of_surf (isurf Nctlu Nctlv : Z) : list cell :=
  flat_map (cells_of_row isurf Nctlv) (xrange Nctlu).

Definition cells_of_surfs (shape : list (Z * Z)) (l : list Z) : list cell :=
  flat_map (fun isurf =>
              match nth_error shape (Z.to_nat isurf) with
              | Some (nu, nv) => cells_of_surf isurf nu nv
              | None => []
              end) l.

(** Four 4 x 4 patches in a 2 x 2 block: patch 3 touches patch 1 along its
    edge 0 and patch 2 along its edge 2, so both edges at its Node 0 are
    slaves. *)
Definition four_patches : pyGeo.obj :=
  new_pyGeo [flat_patch 4 4 0 0; flat_patch 4 4 3 0; flat_patch 4 4 0 3; flat_patch 4 4 3 3].

(** Three 4 x 4 patches that meet along one line: two in the plane [z = 0]
    and a third standing on their common edge. *)
Definition three_patches : pyGeo.obj :=
  new_pyGeo [flat_patch 4 4 0 0; flat_patch 4 4 0 3; patch_of 4 4 (fun i j => (i, 3, j))].

(** [(f, e)] is one of the sides of the record. *)
Definition references (f e : Z) (c : edge.obj) : bool :=
  ((edge.f1 c =? f) && (edge.e1 c =? e)) || ((edge.f2 c =? f) && (edge.e2 c =? e)).

(** The record joins edge [ea] of face [fa] to edge [eb] of face [fb]. *)
Definition joins (fa ea fb eb : Z) (c : edge.obj) : bool :=
  (edge.type c =? 1) && (edge.f1 c =? fa) && (edge.e1 c =? ea)
  && (edge.f2 c =? fb) && (edge.e2 c =? eb).

(** The free records of face [f]. *)
Definition free_of (f : Z) (c : edge.obj) : bool :=
  (edge.type c =? 0) && (edge.f1 c =? f).

Definition count {A} (p : A -> bool) (l : list A) : nat := List.length (filter p l).

(** The four corner cells of a patch, the two edges that meet there (in the
    order in which the code looks them up) and the position along the
    master edge that the code passes when it aliases through the first. *)
Inductive corner : Type := Node0 | Node1 | Node2 | Node3.

Definition corner_cell (Nctlu Nctlv : Z) (n : corner) : Z * Z :=
  match n with
  | Node0 => (0, 0)
  | Node1 => (Nctlu - 1, 0)
  | Node2 => (0, Nctlv - 1)
  | Node3 => (Nctlu - 1, Nctlv - 1)
  end.

Definition corner_edges (n : corner) : Z * Z :=
  match n with
  | Node0 => (0, 2)
  | Node1 => (0, 3)
  | Node2 => (1, 2)
  | Node3 => (1, 3)
  end.

Definition corner_position (Nctlu : Z) (n : corner) : Z :=
  match n with
  | Node0 | Node2 => 0
  | Node1 | Node3 => Nctlu - 1
  end.

(** What Node 0 prints when both of its edges are slaves. *)
Definition both_false_diagnostic (isurf icon1 icon2 g : Z) : list string :=
  [("Both False" ++ nl)%string;
   (("isurf: " ++ str_of_Z isurf) ++ nl)%string;
   (("icon1,icon2: " ++ str_of_Z icon1 ++ " " ++ str_of_Z icon2) ++ nl)%string;
   (("gindex: " ++ str_of_Z g) ++ nl)%string].

Definition corner_diagnostic (n : corner) (isurf icon1 icon2 g : Z) : list string :=
  match n with
  | Node0 => both_false_diagnostic isurf icon1 icon2 g
  | _ => []
  end.

(** The claim that a corner with two slave edges is fatal: whenever the two
    edges at a corner of patch [isurf] are both found as second members,
    [_setEdgeConnectivity] exits with an error. *)
Definition both_slaves_fatal `{Externals} (self0 : pyGeo.obj) : Prop :=
  forall (n : corner) (isurf icon1 icon2 : Z),
    0 <= isurf < pyGeo.nSurf self0 ->
    _findConIndex self0 isurf (fst (corner_edges n)) = Ok (icon1, false) ->
    _findConIndex self0 isurf (snd (corner_edges n)) = Ok (icon2, false) ->
    exists code msg, _setEdgeConnectivity self0 = Raise (SystemExit code msg).

(** The connectivity that [calcEdgeConnectivity] finds for the four patches. *)
Definition four_patches_con : list edge.obj :=
  [edge.mk 1 0 3 0 10 7 0 1 1 2;
   edge.mk 1 0 1 1 10 7 0 1 2 0;
   edge.mk 1 1 1 2 10 7 0 1 3 0;
   edge.mk 1 2 3 3 10 7 0 1 3 2;
   edge.mk 0 0 0 1 10 3 (-1) 1 (-1) (-1);
   edge.mk 0 0 2 0 10 3 (-1) 1 (-1) (-1);
   edge.mk 0 1 0 2 10 3 (-1) 1 (-1) (-1);
   edge.mk 0 1 3 0 10 3 (-1) 1 (-1) (-1);
   edge.mk 0 2 1 1 10 3 (-1) 1 (-1) (-1);
   edge.mk 0 2 2 3 10 3 (-1) 1 (-1) (-1);
   edge.mk 0 3 1 2 10 3 (-1) 1 (-1) (-1);
   edge.mk 0 3 3 3 10 3 (-1) 1 (-1) (-1)].

Definition four_patches_joined : pyGeo.obj :=
  pyGeo.set_con (Some four_patches_con) four_patches.

(** The frame when the loop reaches patch 3 of the four patches. *)
Definition frame_at_patch_3 : frame :=
  match for_ (xrange 3) index_surf
          (mkFrame (pyGeo.set_global_coef [] four_patches_joined) 0 None None []) with
  | Ok fr => mkFrame (self fr) (counter fr) (patchID fr) (g_index fr) (full2 4 4 false)
  | Raise _ => mkFrame four_patches_joined 0 None None []
  end.

(** The 2 x 2 block with its patches in the other order, and the two
    records of a table that makes patch 0 the slave of patches 1 and 2 on
    the two edges of its Node 0: the slave patch comes before its masters. *)
Definition slave_first : pyGeo.obj :=
  pyGeo.set_con
    (Some [edge.mk 1 1 1 0 10 7 0 1 0 0;
           edge.mk 1 2 3 1 10 7 0 1 0 2])
    (new_pyGeo [flat_patch 4 4 3 3; flat_patch 4 4 3 0; flat_patch 4 4 0 3; flat_patch 4 4 0 0]).

(** The frame when the loop enters patch 0 of [slave_first]. *)
Definition slave_first_frame : frame :=
  mkFrame (pyGeo.set_global_coef [] slave_first) 0 None None (full2 4 4 false).

(** The four patches after global indexing. *)
Definition four_patches_indexed : pyGeo.obj :=
  match _setEdgeConnectivity four_patches_joined with
  | Ok o => o
  | Raise _ => four_patches_joined
  end.

(** The claim that an operation refuses to run when connectivity exists:
    it has no flag to pass, so it would have to raise whatever is typed. *)
Definition refuses_to_overwrite (op : pyGeo.obj -> result pyGeo.obj) : Prop :=
  forall self : pyGeo.obj,
    pyGeo.con self <> None -> exists e, op self = Raise e.

(** The state after the warning was printed and one line was read. *)
Definition asked (warning : string) (rest : list string) (self : pyGeo.obj) : pyGeo.obj :=
  pyGeo.set_stdin rest (print warning self).

(** The connectivity that [calcEdgeConnectivity] finds for the two patches. *)
Definition two_patches_con : list edge.obj :=
  [edge.mk 1 0 1 0 10 7 0 1 1 0;
   edge.mk 0 0 0 0 10 3 (-1) 1 (-1) (-1);
   edge.mk 0 0 2 1 10 3 (-1) 1 (-1) (-1);
   edge.mk 0 0 3 1 10 3 (-1) 1 (-1) (-1);
   edge.mk 0 1 1 0 10 3 (-1) 1 (-1) (-1);
   edge.mk 0 1 2 2 10 3 (-1) 1 (-1) (-1);
   edge.mk 0 1 3 2 10 3 (-1) 1 (-1) (-1)].

(** Two patches with an (empty) connectivity already set, the table of
    their connectivity on disk and the answer ["1"] waiting on standard
    input. *)
Definition two_patches_again : pyGeo.obj :=
  pyGeo.set_files
    [("wing.con", ((table_header ++ nl) ++ String.concat "" (write_rows two_patches_con))%string)]
    (pyGeo.set_stdin ["1"] (pyGeo.set_con (Some []) two_patches)).

(** Characters of a number as [%d] prints it: digits and the minus sign;
    none of them is white space or a bar. *)
Definition is_field_char (c : ascii) : bool :=
  let n := nat_of_ascii c in
  (Nat.leb 48 n && Nat.leb n 57) || Nat.eqb n 45.

(** Characters of the literal text between two fields. *)
Definition is_blank (c : ascii) : bool := isspace c || Ascii.eqb c "|".

Fixpoint all_chars (p : ascii -> bool) (s : string) : bool :=
  match s with
  | EmptyString => true
  | String c s' => p c && all_chars p s'
  end.

(** The records that [edge.__init__] can build: a record of type 0 has no
    partner, any other has all its degrees of freedom tied. *)
Definition built_by_init (c : edge.obj) : Prop :=
  if edge.type c =? 0
  then edge.cont c = -1 /\ edge.dir c = 1 /\ edge.f2 c = -1 /\ edge.e2 c = -1
  else edge.dof c = 7.

(** A line of a text file: no newline but the one that ends it. *)
Definition not_newline (c : ascii) : bool := negb (Ascii.eqb c newline).

Definition is_line (r : string) : Prop :=
  exists w, r = (w ++ nl)%string /\ all_chars not_newline w = true.

(** The object without the process around it. *)
Definition no_env (o : pyGeo.obj) : pyGeo.obj :=
  pyGeo.set_files [] (pyGeo.set_stdin [] (pyGeo.set_stdout [] o)).

(** Two states of the object that differ at most in the standard streams
    and the files. *)
Definition same_object (o o' : pyGeo.obj) : Prop := no_env o = no_env o'.

Definition same_frame (fr fr' : frame) : Prop :=
  same_object (self fr) (self fr') /\
  counter fr = counter fr' /\ patchID fr = patchID fr' /\
  g_index fr = g_index fr' /\ master_bool_array fr = master_bool_array fr'.

(** Two runs that end alike: with related values or with the same exception. *)
Definition agree {A} (R : A -> A -> Prop) (r r' : result A) : Prop :=
  match r, r' with
  | Ok a, Ok b => R a b
  | Raise e, Raise e' => e = e'
  | _, _ => False
  end.

(** The two patches after [calcEdgeConnectivity], and a new object on the
    same surfaces in a process where the written table is on disk. *)
Definition two_patches_indexed : pyGeo.obj :=
  match _setEdgeConnectivity (pyGeo.set_con (Some two_patches_con) two_patches) with
  | Ok o => o
  | Raise _ => two_patches
  end.

Definition two_patches_reader : pyGeo.obj :=
  pyGeo.set_files
    [("wing.con", ((table_header ++ nl) ++ String.concat "" (write_rows two_patches_con))%string)]
    two_patches.

(** ** Vocabulary of edge coverage *)

(** The pairs of edges that [calcEdgeConnectivity] tests, in the order of
    its loops: edge [i] of patch [a] against edge [j] of a later patch [b]. *)
Definition edge_pairs (nSurf : Z) : list (Z * Z * Z * Z) :=
  flat_map (fun a =>
    flat_map (fun b =>
      flat_map (fun i => map (fun j => (a, i, b, j)) (xrange 4)) (xrange 4))
      (xrange2 (a + 1) nSurf))
    (xrange nSurf).

(** [test_edge] reports the two edges of the pair as coincident. *)
Definition coincident `{Externals} (self : pyGeo.obj) (edge_tol : Qc) (q : Z * Z * Z * Z) : bool :=
  let '(a, i, b, j) := q in
  match getitem (pyGeo.surfs self) a, getitem (pyGeo.surfs self) b with
  | Ok s1, Ok s2 => fst (test_edge s1 s2 i j edge_tol)
  | _, _ => false
  end.



(** The joined entry made for a coincident pair. *)
Definition joined_entry `{Externals} (self : pyGeo.obj) (edge_tol : Qc) (q : Z * Z * Z * Z) : entry :=
  let '(a, i, b, j) := q in
  match getitem (pyGeo.surfs self) a, getitem (pyGeo.surfs self) b with
  | Ok s1, Ok s2 => Joined a i b j 0 (snd (test_edge s1 s2 i j edge_tol)) (-1)
  | _, _ => Joined a i b j 0 1 (-1)
  end.

(** All the edges of all the patches, in the order of the loop that looks
    for mirrored edges. *)
Definition all_edges (nSurf : Z) : list (Z * Z) :=
  flat_map (fun i => map (fun j => (i, j)) (xrange 4)) (xrange nSurf).


(** The record that [calcEdgeConnectivity] builds from an entry. *)
Definition edge_of_entry (en : entry) : edge.obj :=
  match en with
  | Joined f1 e1 f2 e2 c d g => edge.mk 1 f1 e1 g 10 7 c d f2 e2
  | Mirrored f e g => edge.mk 0 f e g 10 3 (-1) 1 (-1) (-1)
  end.

(** The claim of coverage: every edge of every patch is referenced by
    exactly one record of the connectivity that [calcEdgeConnectivity]
    leaves in [self.con]. *)
Definition covered_once `{Externals} (self : pyGeo.obj) (node_tol edge_tol : Qc) : Prop :=
  forall o con f e,
    calcEdgeConnectivity self node_tol edge_tol = Ok o ->
    pyGeo.con o = Some con ->
    0 <= f < pyGeo.nSurf self -> 0 <= e < 4 ->
    count (references f e) con = 1%nat.

(** The entries without their driving groups. *)
Definition strip (edges : list entry) : list entry := map (set_entry_dg 0) edges.

(** The step of the loop that looks for mirrored edges, for one edge. *)
Definition mirror_step (st : list entry * list (Z * Z)) (p : Z * Z) : list entry * list (Z * Z) :=
  let '(mirrored_edges, edge_list) := st in
  if negb (mem_pair p edge_list)
  then (mirrored_edges ++ [Mirrored (fst p) (snd p) (-1)], edge_list ++ [p])
  else st.

Definition mirrored_entry (p : Z * Z) : entry := Mirrored (fst p) (snd p) (-1).

Definition not_joined (sides : list (Z * Z)) (p : Z * Z) : bool := negb (mem_pair p sides).

(** * Further parts of the module *)


(** ** Objects of the examples *)

(** The three patches that meet along one line, after
    [calcEdgeConnectivity]. *)
Definition three_patches_calc : pyGeo.obj :=
  match calcEdgeConnectivity three_patches tol_1e_4 tol_1e_4 with
  | Ok o => o
  | Raise _ => three_patches
  end.

(** ** Vocabulary of the driving groups *)

(** The entries that have no driving group yet. *)
Definition unassigned (edges : list entry) : nat :=
  count (fun en => entry_dg en =? -1) edges.

Definition side_in (nSurf : Z) (p : Z * Z) : Prop :=
  0 <= fst p < nSurf /\ 0 <= snd p < 4.

(** The sides of an entry are edges of patches of the object. *)
Definition sides_in (nSurf : Z) (en : entry) : Prop :=
  match en with
  | Joined f1 e1 f2 e2 _ _ _ => side_in nSurf (f1, e1) /\ side_in nSurf (f2, e2)
  | Mirrored f e _ => side_in nSurf (f, e)
  end.

(** The list [edges] of [calcEdgeConnectivity]: [nJ] joined entries, then
    the mirrored ones, all on edges of the object. *)
Definition well_formed (nSurf : Z) (nJ : nat) (edges : list entry) : Prop :=
  forall k en, nth_error edges k = Some en ->
    sides_in nSurf en /\ is_mirrored en = negb (Nat.ltb k nJ).

(** [_getConIndex] finds every edge of the object, at a position of
    [edges] and on a side that the entry there has. *)
Definition lookup_ok (nSurf : Z) (edge_list : list (Z * Z)) (nJoined nMirror : Z)
    (nJ len : nat) : Prop :=
  forall p, side_in nSurf p ->
    exists k order,
      _getConIndex edge_list p nJoined nMirror = Ok (Z.of_nat k, order) /\
      (k < len)%nat /\
      (order = 0 \/ ((k < nJ)%nat /\ order = 1)).

(** The driving groups of [edges'] are those of [edges], but for entries
    that were given the group [d]. *)
Definition regrouped (d : Z) (edges edges' : list entry) : Prop :=
  strip edges' = strip edges /\
  forall k en en', nth_error edges k = Some en -> nth_error edges' k = Some en' ->
    entry_dg en' = entry_dg en \/ entry_dg en' = d.

(** The edges that are on no joined entry, in the order of the loop that
    looks for them. *)
Definition free_sides (nSurf : Z) (e_con : list entry) : list (Z * Z) :=
  filter (not_joined (joined_sides e_con)) (all_edges nSurf).

(** The list [edges] of [calcEdgeConnectivity] before the driving groups
    are given. *)
Definition entries_before (nSurf : Z) (e_con : list entry) : list entry :=
  e_con ++ map mirrored_entry (free_sides nSurf e_con).

(** The loop of [calcEdgeConnectivity] that gives the driving groups. *)
Definition assign_groups (nSurf : Z) (e_con : list entry) : result (list entry * Z) :=
  let base := entries_before nSurf e_con in
  for_ (xrange (Z.of_nat (List.length base)))
    (assign_group (joined_sides e_con ++ free_sides nSurf e_con)
       (Z.of_nat (List.length e_con) * 2)
       (Z.of_nat (List.length (map mirrored_entry (free_sides nSurf e_con)))))
    (base, -1).

(** The loop of [calcEdgeConnectivity] that builds the records. *)
Definition build_records (nJoined : Z) (edges : list entry) : result (list edge.obj) :=
  for_ (xrange (Z.of_nat (List.length edges)))
    (fun i con =>
       en <- getitem edges i ;;
       str <- init_string i en nJoined ;;
       let temp := replace "|" " " str in
       c <- edge_init temp ;;
       Ok (con ++ [c]))
    [].

(** ** Vocabulary of the index arrays *)

(** [self.surfs[isurf].globalCtlIndex[i,j]], [self.surfs[isurf].coef[i,j]]
    and [self.surfs[isurf].updated[i,j]] *)
Definition index_at (o : pyGeo.obj) (c : cell) : result Z :=
  let '(isurf, i, j) := c in
  sf <- getitem (pyGeo.surfs o) isurf ;;
  getitem2 (surf_spline.globalCtlIndex sf) i j.

Definition coef_at (o : pyGeo.obj) (c : cell) : result (list Qc) :=
  let '(isurf, i, j) := c in
  sf <- getitem (pyGeo.surfs o) isurf ;;
  getitem2 (surf_spline.coef sf) i j.

Definition updated_at (o : pyGeo.obj) (c : cell) : result Qc :=
  let '(isurf, i, j) := c in
  sf <- getitem (pyGeo.surfs o) isurf ;;
  getitem2 (surf_spline.updated sf) i j.

(** No index of the cell counts from the end. *)
Definition cell_nonneg (c : cell) : Prop :=
  0 <= fst (fst c) /\ 0 <= snd (fst c) /\ 0 <= snd c.

(** A surface without its index array. *)
Definition without_index (sf : surf_spline.obj) : surf_spline.obj :=
  surf_spline.set_globalCtlIndex [] sf.

(** The attributes that [_setEdgeConnectivity] does not assign, and the
    surfaces but for their index arrays. *)
Definition apart_from_indexing (o o' : pyGeo.obj) : Prop :=
  pyGeo.ref_axis o' = pyGeo.ref_axis o /\
  pyGeo.ref_axis_con o' = pyGeo.ref_axis_con o /\
  pyGeo.DV_listGlobal o' = pyGeo.DV_listGlobal o /\
  pyGeo.DV_listLocal o' = pyGeo.DV_listLocal o /\
  pyGeo.DV_namesGlobal o' = pyGeo.DV_namesGlobal o /\
  pyGeo.DV_namesLocal o' = pyGeo.DV_namesLocal o /\
  pyGeo.J1 o' = pyGeo.J1 o /\
  pyGeo.con o' = pyGeo.con o /\
  pyGeo.nSurf o' = pyGeo.nSurf o /\
  pyGeo.stdin o' = pyGeo.stdin o /\
  pyGeo.files o' = pyGeo.files o /\
  map without_index (pyGeo.surfs o') = map without_index (pyGeo.surfs o).

(** [self.surfs[isurf].globalCtlIndex[i,j] = g] was done on [o]. *)
Definition reindexed (c : cell) (g : Z) (o o' : pyGeo.obj) : Prop :=
  let '(isurf, i, j) := c in
  exists sf a ss,
    getitem (pyGeo.surfs o) isurf = Ok sf /\
    setitem2 (surf_spline.globalCtlIndex sf) i j g = Ok a /\
    setitem (pyGeo.surfs o) isurf (surf_spline.set_globalCtlIndex a sf) = Ok ss /\
    pyGeo.surfs o' = ss.

(** What indexing one cell does: the cell joins entry [g] of
    [global_coef], a new last entry numbered by [counter] when the cell is
    a master, and [g] is written in the index array. *)
Definition cell_step (c : cell) (fr fr' : frame) : Prop :=
  let gc := pyGeo.global_coef (self fr) in
  let gc' := pyGeo.global_coef (self fr') in
  exists g,
    reindexed c g (self fr) (self fr') /\
    ((gc' = gc ++ [[c]] /\ g = counter fr /\ counter fr' = counter fr + 1) \/
     (exists n en,
        norm_index (List.length gc) g = Some n /\ nth_error gc n = Some en /\
        gc' = set_nth gc n (en ++ [c]) /\ counter fr' = counter fr)) /\
    apart_from_indexing (self fr) (self fr') /\
    pyGeo.coef (self fr') = pyGeo.coef (self fr).



(** ** Control points back to the surfaces *)

(** [a[i,j] = c] where [a[i,j]] is a point: numpy copies the coordinates
    of [c], and repeats a single one. *)
Definition assign_point (old c : list Qc) : result (list Qc) :=
  if Nat.eqb (List.length c) (List.length old) then Ok c
  else match c with
       | [x] => Ok (repeat x (List.length old))
       | _ => Raise ValueError
       end.

(** [self.surfs[isurf].coef[i,j] = c; self.surfs[isurf].updated[i,j] = 1.0] *)
Definition set_coef_cell (c : list Qc) (isurf i j : Z) (o : pyGeo.obj) : result pyGeo.obj :=
  sf <- getitem (pyGeo.surfs o) isurf ;;
  old <- getitem2 (surf_spline.coef sf) i j ;;
  p <- assign_point old c ;;
  a <- setitem2 (surf_spline.coef sf) i j p ;;
  u <- setitem2 (surf_spline.updated sf) i j 1%Qc ;;
  ss <- setitem (pyGeo.surfs o) isurf (surf_spline.set_updated u (surf_spline.set_coef a sf)) ;;
  Ok (pyGeo.set_surfs ss o).

(** [_updateSurfaceCoef()].  [self.coef] is read as an array of its own,
    which is what [update] leaves there. *)
Definition _updateSurfaceCoef (self : pyGeo.obj) : result pyGeo.obj :=
  for_ (xrange (Z.of_nat (List.length (pyGeo.coef self))))
    (fun ii o =>
       entry <- getitem (pyGeo.global_coef o) ii ;;
       for_ (xrange (Z.of_nat (List.length entry)))
         (fun jj o =>
            entry <- getitem (pyGeo.global_coef o) ii ;;
            '(isurf, i, j) <- getitem entry jj ;;
            c <- getitem (pyGeo.coef o) ii ;;
            set_coef_cell c isurf i j o)
         o)
    self.

(** A surface without its control points and their marks. *)
Definition without_points (sf : surf_spline.obj) : surf_spline.obj :=
  surf_spline.set_updated [] (surf_spline.set_coef [] sf).

(** Everything but the control points of the surfaces and their marks. *)
Definition apart_from_points (o o' : pyGeo.obj) : Prop :=
  pyGeo.set_surfs (map without_points (pyGeo.surfs o')) o'
  = pyGeo.set_surfs (map without_points (pyGeo.surfs o)) o.

(** Cell [c] of the surfaces is to get the point [p]: it is listed in an
    entry of [global_coef] whose point in [self.coef] is [p]. *)
Definition driven_by (self : pyGeo.obj) (c : cell) (p : list Qc) : Prop :=
  exists n en,
    nth_error (pyGeo.global_coef self) n = Some en /\ In c en /\
    nth_error (pyGeo.coef self) n = Some p.

(** The cells of [o] hold what the writes [W] gave them, and what [self]
    has everywhere else. *)
Definition scattered (self : pyGeo.obj) (W : list (cell * list Qc)) (o : pyGeo.obj) : Prop :=
  apart_from_points self o /\
  (forall c p, In (c, p) W ->
     exists old q, coef_at self c = Ok old /\ assign_point old p = Ok q /\
                   coef_at o c = Ok q /\ updated_at o c = Ok 1%Qc) /\
  (forall c, cell_nonneg c -> ~ In c (map fst W) ->
     coef_at o c = coef_at self c /\ updated_at o c = updated_at self c).

(** The writes of [_updateSurfaceCoef] for entry [ii]. *)
Definition writes_of (self : pyGeo.obj) (ii : Z) : list (cell * list Qc) :=
  match nth_error (pyGeo.global_coef self) (Z.to_nat ii),
        nth_error (pyGeo.coef self) (Z.to_nat ii) with
  | Some en, Some p => map (fun c => (c, p)) en
  | _, _ => []
  end.

(** Every control point of the surfaces has [d] coordinates. *)
Definition points_of_dim (d : nat) (o : pyGeo.obj) : bool :=
  forallb (fun sf => forallb (forallb (fun q => Nat.eqb (List.length q) d)) (surf_spline.coef sf))
    (pyGeo.surfs o).

(** The two patches after indexing and [_updateSurfaceCoef]. *)
Definition two_patches_scattered : pyGeo.obj :=
  match _updateSurfaceCoef two_patches_indexed with
  | Ok o => o
  | Raise _ => two_patches_indexed
  end.

(** ** Rows of the table file *)

(** A row as in the example of [edge.__init__], with [-] where a field
    does not apply. *)
Definition example_row : string :=
  "1	   | 0	     1	   | 1    | -    | 0	      | -1   | 0	     | 10   | 1       1  	|".

(** The object that [readEdgeConnectivity] makes of the reader. *)
Definition example_read : pyGeo.obj :=
  match readEdgeConnectivity two_patches_reader "wing.con" with
  | Ok o => o
  | Raise _ => two_patches_reader
  end.

(** ** Design variables *)

(** [d[k]] and [d[k] = v] on a dictionary with string keys *)
Fixpoint dict_get (d : list (string * Z)) (k : string) : option Z :=
  match d with
  | [] => None
  | (k', v) :: d' => if String.eqb k' k then Some v else dict_get d' k
  end.

Definition dict_set (d : list (string * Z)) (k : string) (v : Z) : list (string * Z) :=
  (k, v) :: filter (fun p => negb (String.eqb (fst p) k)) d.

(** [geoDVGlobal.__init__(dv_name, value, lower, upper, function)]:
    [len(value)] is asked of every value that is not an [int]. *)
Definition geoDVGlobal_init (dv_name : string) (value lower upper : pyval)
    (function : pyval -> list ref_axis.obj -> result (list ref_axis.obj))
  : result geoDVGlobal.obj :=
  nVal <- match value with
          | PyInt _ => Ok 1
          | PySeq l => Ok (Z.of_nat (List.length l))
          | PyFloat _ | PyComplex _ => Raise TypeError
          end ;;
  Ok (geoDVGlobal.mk dv_name value nVal lower upper function).

(** [addGeoDVGlobal(dv_name, value, lower, upper, function)] *)
Definition addGeoDVGlobal (self : pyGeo.obj) (dv_name : string) (value lower upper : pyval)
    (function : pyval -> list ref_axis.obj -> result (list ref_axis.obj))
  : result pyGeo.obj :=
  dv <- geoDVGlobal_init dv_name value lower upper function ;;
  let o := pyGeo.set_DV_listGlobal (pyGeo.DV_listGlobal self ++ [dv]) self in
  Ok (pyGeo.set_DV_namesGlobal
        (dict_set (pyGeo.DV_namesGlobal o) dv_name
           (Z.of_nat (List.length (pyGeo.DV_listGlobal o)) - 1))
        o).

(** [geoDVLocal.__init__(dv_name, lower, upper, surface_id, coef_list,
    global_coef)] *)
Definition geoDVLocal_init (dv_name : string) (lower upper : pyval) (surface_id : Z)
    (coef_list : list Z) (global_coef : list (list cell)) : result geoDVLocal.obj :=
  let nVal := Z.of_nat (List.length coef_list) in
  let value := repeat (Cx 0 0) (List.length coef_list) in
  local_coef_index <-
    for_ (xrange nVal)
      (fun icoef lci =>
         g <- getitem coef_list icoef ;;
         current_point <- getitem global_coef g ;;
         '(_, i, j) <- getitem current_point 0 ;;
         setitem lci icoef (i, j))
      (repeat (0, 0) (List.length coef_list)) ;;
  Ok (geoDVLocal.mk nVal value dv_name lower upper surface_id coef_list local_coef_index).

(** The loops of [addGeoDVLocal] when there is no bounding box; the state
    is [(coef_list, counter)]. *)
Definition masters_of (self : pyGeo.obj) (surf : Z) : result (list Z * Z) :=
  sf <- getitem (pyGeo.surfs self) surf ;;
  for_ (xrange (surf_spline.Nctlu sf))
    (fun i st =>
       for_ (xrange (surf_spline.Nctlv sf))
         (fun j st =>
            let '(coef_list, counter) := st in
            sf <- getitem (pyGeo.surfs self) surf ;;
            cur_index <- getitem2 (surf_spline.globalCtlIndex sf) i j ;;
            entry <- getitem (pyGeo.global_coef self) cur_index ;;
            first <- getitem entry 0 ;;
            if cell_eqb first (surf, i, j)
            then Ok (coef_list ++ [cur_index], counter)
            else Ok (coef_list, counter + 1))
         st)
    ([], 0).

Definition driven_warning (counter surf : Z) : string :=
  (" ** Warning: " ++ str_of_Z counter ++ " coefficients on surface " ++ str_of_Z surf
   ++ " are driven and are not included")%string.

(** [addGeoDVLocal(dv_name, lower, upper, surf, bounding_box)]; a bounding
    box is the object whose [findBoundedCtl] is called. *)
Definition addGeoDVLocal (self : pyGeo.obj) (dv_name : string) (lower upper : pyval)
    (surf : option Z)
    (bounding_box : option (surf_spline.obj -> list Z -> result (list Z)))
  : result pyGeo.obj :=
  match surf with
  | None => Raise (SystemExit 1 "Error: A surface must be specified with surf = <surf_id>")
  | Some surf =>
      r <- match bounding_box with
           | None =>
               '(coef_list, counter) <- masters_of self surf ;;
               Ok (coef_list,
                   if negb (counter =? 0) then print (driven_warning counter surf) self
                   else self)
           | Some findBoundedCtl =>
               sf <- getitem (pyGeo.surfs self) surf ;;
               coef_list <- findBoundedCtl sf [] ;;
               Ok (coef_list, self)
           end ;;
      let '(coef_list, o) := r in
      dv <- geoDVLocal_init dv_name lower upper surf coef_list (pyGeo.global_coef o) ;;
      let o := pyGeo.set_DV_listLocal (pyGeo.DV_listLocal o ++ [dv]) o in
      Ok (pyGeo.set_DV_namesLocal
            (dict_set (pyGeo.DV_namesLocal o) dv_name
               (Z.of_nat (List.length (pyGeo.DV_listLocal o)) - 1))
            o)
  end.

(** Every name of the dictionary is the name of the design variable at
    the position it gives. *)
Definition names_index (names : list (string * Z)) (dv_names : list string) : Prop :=
  forall k i, dict_get names k = Some i ->
    0 <= i /\ nth_error dv_names (Z.to_nat i) = Some k.

(** A master cell of surface [surf]: entry [g] of [global_coef] begins
    with it, and its index is [g]. *)
Definition master_at (self : pyGeo.obj) (surf : Z) (g : Z) (ij : Z * Z) : Prop :=
  (exists rest, getitem (pyGeo.global_coef self) g = Ok ((surf, fst ij, snd ij) :: rest)) /\
  index_at self (surf, fst ij, snd ij) = Ok g.

(** The indexed patches with a local design variable on patch 1. *)
Definition two_patches_local : pyGeo.obj :=
  match addGeoDVLocal two_patches_indexed "bump" (PyInt 0) (PyInt 1) (Some 1) None with
  | Ok o => o
  | Raise _ => two_patches_indexed
  end.

(** ** Knot vectors *)

(** The first loop of [propagateKnotVectors]: the records by driving
    group; the state is [(dg, dg_counter)]. *)
Definition group_step (c : edge.obj) (st : list (list edge.obj) * Z)
  : result (list (list edge.obj) * Z) :=
  let '(dg, dg_counter) := st in
  if edge.dg c >? dg_counter then Ok (dg ++ [[c]], dg_counter + 1)
  else
    g <- getitem dg (edge.dg c) ;;
    dg <- setitem dg (edge.dg c) (g ++ [c]) ;;
    Ok (dg, dg_counter).

Definition group_records (con : list edge.obj) : result (list (list edge.obj)) :=
  st <- for_ (xrange (Z.of_nat (List.length con)))
          (fun i st => c <- getitem con i ;; group_step c st)
          ([], -1) ;;
  Ok (fst st).

(** [1 - a], [a[::-1]] and [0.5*(a + b)] on arrays of one length *)
Definition one_minus (a : list Qc) : list Qc := map (fun x => 1 - x)%Qc a.

Definition average (a b : list Qc) : list Qc :=
  map (fun p => Q2Qc (1 # 2) * (fst p + snd p))%Qc (combine a b).

(** [a[lo:hi] = v], where [v] has the length of the slice *)
Definition set_slice (a : list Qc) (lo hi : nat) (v : list Qc) : list Qc :=
  firstn lo a ++ v ++ skipn hi a.

(** The block of [propagateKnotVectors] that makes a knot vector
    symmetric. *)
Definition symmetrize (knot_vec : list Qc) : list Qc :=
  if Nat.eqb (Nat.modulo (List.length knot_vec) 2) 1 then
    let mid := Nat.div (List.length knot_vec - 1) 2 in
    let beg1 := firstn mid knot_vec in
    let beg2 := List.rev (one_minus (skipn (mid + 1) knot_vec)) in
    let beg := average beg1 beg2 in
    let knot_vec := set_slice knot_vec 0 mid beg in
    set_slice knot_vec (mid + 1) (List.length knot_vec) (List.rev (one_minus beg))
  else
    let mid := Nat.div (List.length knot_vec) 2 in
    let beg1 := firstn mid knot_vec in
    let beg2 := List.rev (one_minus (skipn mid knot_vec)) in
    let beg := average beg1 beg2 in
    let knot_vec := set_slice knot_vec 0 mid beg in
    set_slice knot_vec mid (List.length knot_vec) (List.rev (one_minus beg)).

(** [edge == 0 or edge == 1]: the edge runs in the [u] direction *)
Definition along_u (e : Z) : bool := (e =? 0) || (e =? 1).

(** [self.surfs[face].tu] or [.tv], read and assigned *)
Definition get_knots (o : pyGeo.obj) (face e : Z) : result (list Qc) :=
  sf <- getitem (pyGeo.surfs o) face ;;
  Ok (if along_u e then surf_spline.tu sf else surf_spline.tv sf).

Definition set_knots (o : pyGeo.obj) (face e : Z) (knot_vec : list Qc) : result pyGeo.obj :=
  sf <- getitem (pyGeo.surfs o) face ;;
  let sf := if along_u e then surf_spline.set_tu knot_vec sf
            else surf_spline.set_tv knot_vec sf in
  ss <- setitem (pyGeo.surfs o) face sf ;;
  Ok (pyGeo.set_surfs ss o).

(** The knot vector of a group: that of the first edge, made symmetric
    when an edge of the group is reversed. *)
Definition group_knots (o : pyGeo.obj) (g : list edge.obj) : result (list Qc) :=
  let symmetric := existsb (fun cur_edge => edge.dir cur_edge =? -1) g in
  first_edge <- getitem g 0 ;;
  knot_vec <- get_knots o (edge.f1 first_edge) (edge.e1 first_edge) ;;
  Ok (if symmetric then symmetrize knot_vec else knot_vec).

(** The loop that copies the knot vector to the edges of a group. *)
Definition copy_knots (knot_vec : list Qc) (g : list edge.obj) (o : pyGeo.obj)
  : result pyGeo.obj :=
  for_ (xrange (Z.of_nat (List.length g)))
    (fun j o =>
       cur_edge <- getitem g j ;;
       o <- set_knots o (edge.f1 cur_edge) (edge.e1 cur_edge) knot_vec ;;
       if edge.type cur_edge =? 1
       then set_knots o (edge.f2 cur_edge) (edge.e2 cur_edge) knot_vec
       else Ok o)
    o.

(** The loop of [propagateKnotVectors] over the groups. *)
Definition assign_knots (dg : list (list edge.obj)) (self : pyGeo.obj) : result pyGeo.obj :=
  for_ (xrange (Z.of_nat (List.length dg)))
    (fun i o =>
       g <- getitem dg i ;;
       knot_vec <- group_knots o g ;;
       copy_knots knot_vec g o)
    self.

(** The loop that recomputes the surfaces. *)
Definition recompute_all `{Externals} (self : pyGeo.obj) : result pyGeo.obj :=
  for_ (xrange (pyGeo.nSurf self))
    (fun isurf o =>
       sf <- getitem (pyGeo.surfs o) isurf ;;
       ss <- setitem (pyGeo.surfs o) isurf (recompute sf) ;;
       Ok (pyGeo.set_surfs ss o))
    self.

(** [propagateKnotVectors()] *)
Definition propagateKnotVectors `{Externals} (self : pyGeo.obj) : result pyGeo.obj :=
  con <- lift TypeError (pyGeo.con self) ;;
  dg <- group_records con ;;
  o <- assign_knots dg self ;;
  recompute_all (print "recomputing surfaces..." o).

(** The driving groups are numbered from 0 in the order in which they
    first appear; [dg_counter] is the last number seen. *)
Fixpoint numbered_from (dg_counter : Z) (con : list edge.obj) : bool :=
  match con with
  | [] => true
  | c :: rest =>
      (0 <=? edge.dg c) && (edge.dg c <=? dg_counter + 1)
      && numbered_from (Z.max dg_counter (edge.dg c)) rest
  end.

(** The records of driving group [g]. *)
Definition of_group (g : Z) (con : list edge.obj) : list edge.obj :=
  filter (fun c => edge.dg c =? g) con.

(** The sides of a record: a face and one of its edges. *)
Definition sides (c : edge.obj) : list (Z * Z) :=
  (edge.f1 c, edge.e1 c) :: (if edge.type c =? 1 then [(edge.f2 c, edge.e2 c)] else []).

(** Two sides whose knot vector is one attribute of one surface. *)
Definition same_slot (a b : Z * Z) : Prop :=
  fst a = fst b /\ along_u (snd a) = along_u (snd b).

(** The sides of a group. *)
Definition group_sides (g : list edge.obj) : list (Z * Z) := flat_map sides g.

(** No face of a group is counted from the end, and no two groups hold a
    side of the same slot. *)
Definition groups_apart (dg : list (list edge.obj)) : Prop :=
  (forall g a, In g dg -> In a (group_sides g) -> 0 <= fst a) /\
  (forall i j gi gj a b,
      nth_error dg i = Some gi -> nth_error dg j = Some gj -> i <> j ->
      In a (group_sides gi) -> In b (group_sides gj) -> ~ same_slot a b).

(** The two patches with knot vectors, joined by reversed edges. *)
Definition two_patches_knots : pyGeo.obj :=
  let k := map (fun z => Q2Qc (z # 4)) [0; 0; 1; 2; 4; 4] in
  let con := [edge.mk 1 0 1 0 10 7 0 (-1) 1 0;
              edge.mk 0 0 0 0 10 3 (-1) 1 (-1) (-1);
              edge.mk 0 0 2 1 10 3 (-1) 1 (-1) (-1);
              edge.mk 0 0 3 1 10 3 (-1) 1 (-1) (-1);
              edge.mk 0 1 1 0 10 3 (-1) 1 (-1) (-1);
              edge.mk 0 1 2 2 10 3 (-1) 1 (-1) (-1);
              edge.mk 0 1 3 2 10 3 (-1) 1 (-1) (-1)] in
  pyGeo.set_con (Some con)
    (pyGeo.set_surfs (map (fun sf => surf_spline.set_tv k (surf_spline.set_tu k sf))
                        (pyGeo.surfs two_patches)) two_patches).

Definition two_patches_groups : list (list edge.obj) :=
  match pyGeo.con two_patches_knots with
  | Some con => match group_records con with Ok dg => dg | Raise _ => [] end
  | None => []
  end.

Definition two_patches_assigned : pyGeo.obj :=
  match assign_knots two_patches_groups two_patches_knots with
  | Ok o => o
  | Raise _ => two_patches_knots
  end.

(** A knot vector whose second half mirrors the first: [t] at one end
    and [1 - t] at the other. *)
Definition balanced (k : list Qc) : Prop :=
  let n := List.length k in
  List.rev (skipn (n - Nat.div n 2) k) = one_minus (firstn (Nat.div n 2) k).

(** The knot that has no partner, when the length is odd. *)
Definition middle (k : list Qc) : list Qc :=
  let n := List.length k in
  skipn (Nat.div n 2) (firstn (n - Nat.div n 2) k).

(** The knot vector that [propagateKnotVectors] gives a group: that of
    the first edge of the group in [self], made symmetric when an edge of
    the group is reversed. *)
Definition knots_of_group (self : pyGeo.obj) (g : list edge.obj) : result (list Qc) :=
  first_edge <- lift IndexError (hd_error g) ;;
  knot_vec <- get_knots self (edge.f1 first_edge) (edge.e1 first_edge) ;;
  Ok (if existsb (fun c => edge.dir c =? -1) g then symmetrize knot_vec else knot_vec).

(** * Proofs *)

(** ** The error monad and loops *)

Lemma bind_Ok {A B} (m : result A) (k : A -> result B) (b : B) :
  bind m k = Ok b -> exists a, m = Ok a /\ k a = Ok b.
Proof. destruct m; simpl; intros H; [eauto | discriminate]. Qed.

Lemma for_app {A S} (l1 l2 : list A) (body : A -> S -> result S) (s : S) :
  for_ (l1 ++ l2) body s = (s' <- for_ l1 body s ;; for_ l2 body s').
Proof.
  revert s; induction l1 as [|x l1 IH]; intros s; simpl; [reflexivity|].
  destruct (body x s); simpl; auto.
Qed.

(** A loop invariant rule for [for_]: [P d s] holds after the elements [d]
    of the list have been processed. *)
Lemma for_invariant_from {A S} (body : A -> S -> result S) (P : list A -> S -> Prop)
    (all : list A) :
  (forall d x t t', In x all -> P d t -> body x t = Ok t' -> P (d ++ [x]) t') ->
  forall (l pre : list A) (s s' : S),
    incl l all ->
    P pre s ->
    for_ l body s = Ok s' ->
    P (pre ++ l) s'.
Proof.
  intros Hstep.
  induction l as [|x l IH]; intros pre s s' Hin HP Hrun; simpl in Hrun.
  - inversion Hrun; subst. rewrite app_nil_r. exact HP.
  - apply bind_Ok in Hrun. destruct Hrun as (t & Hb & Hrest).
    replace (pre ++ x :: l) with ((pre ++ [x]) ++ l)
      by (rewrite <- app_assoc; reflexivity).
    eapply IH; eauto.
    + intros y Hy. apply Hin. now right.
    + eapply Hstep; eauto. apply Hin. now left.
Qed.

Lemma for_invariant {A S} (body : A -> S -> result S) (P : list A -> S -> Prop)
    (l : list A) (s s' : S) :
  P [] s ->
  (forall d x t t', In x l -> P d t -> body x t = Ok t' -> P (d ++ [x]) t') ->
  for_ l body s = Ok s' ->
  P l s'.
Proof.
  intros HP Hstep Hrun.
  exact (@for_invariant_from A S body P l Hstep l [] s s' (incl_refl l) HP Hrun).
Qed.

Ltac split_pairs :=
  repeat match goal with
  | p : (_ * _)%type |- _ => destruct p
  end.

Ltac case_bools :=
  repeat match goal with
  | b : bool |- _ => destruct b
  end.

Ltac inv_ok1 :=
  repeat match goal with
  | H : bind _ _ = Ok _ |- _ =>
      let a := fresh "a" in let Ha := fresh "Ha" in
      apply bind_Ok in H; destruct H as (a & Ha & H)
  | H : Ok _ = Ok _ |- _ => inversion H; subst; clear H
  | H : Raise _ = Ok _ |- _ => discriminate H
  | H : lift _ ?o = Ok _ |- _ =>
      let E := fresh "E" in destruct o eqn:E; simpl in H; [|discriminate H]
  end.

Ltac inv_ok :=
  inv_ok1;
  repeat (progress (split_pairs; cbv beta iota in *; inv_ok1)).

(** ** Sequences *)

Lemma norm_index_lt (n : nat) (i : Z) (k : nat) :
  norm_index n i = Some k -> (k < n)%nat.
Proof.
  unfold norm_index.
  destruct ((0 <=? i) && (i <? Z.of_nat n)) eqn:E1.
  - intros [= <-]. apply andb_true_iff in E1. lia.
  - destruct ((- Z.of_nat n <=? i) && (i <? 0)) eqn:E2; [|discriminate].
    intros [= <-]. apply andb_true_iff in E2. lia.
Qed.

Lemma norm_index_nonneg (n : nat) (i : Z) :
  0 <= i < Z.of_nat n -> norm_index n i = Some (Z.to_nat i).
Proof.
  intros Hi. unfold norm_index.
  replace ((0 <=? i) && (i <? Z.of_nat n)) with true; [reflexivity|].
  symmetry. apply andb_true_iff. lia.
Qed.

Lemma getitem_Ok {A} (l : list A) (i : Z) (x : A) :
  getitem l i = Ok x ->
  exists n, norm_index (List.length l) i = Some n /\ nth_error l n = Some x.
Proof.
  unfold getitem. destruct (norm_index (List.length l) i) as [n|]; [|discriminate].
  destruct (nth_error l n) eqn:E; simpl; [|discriminate].
  intros [= <-]. eauto.
Qed.

Lemma setitem_Ok {A} (l l' : list A) (i : Z) (x : A) :
  setitem l i x = Ok l' ->
  exists n, norm_index (List.length l) i = Some n /\ l' = set_nth l n x.
Proof.
  unfold setitem. destruct (norm_index (List.length l) i) as [n|]; [|discriminate].
  intros [= <-]. eauto.
Qed.

Lemma getitem_nonneg {A} (l : list A) (i : Z) :
  0 <= i < Z.of_nat (List.length l) -> getitem l i = lift IndexError (nth_error l (Z.to_nat i)).
Proof. intros Hi. unfold getitem. now rewrite norm_index_nonneg. Qed.

Lemma length_set_nth {A} (l : list A) (n : nat) (x : A) :
  List.length (set_nth l n x) = List.length l.
Proof.
  revert n; induction l as [|y l IH]; intros [|n]; simpl; auto.
Qed.

Lemma nth_error_set_nth_eq {A} (l : list A) (n : nat) (x : A) :
  (n < List.length l)%nat -> nth_error (set_nth l n x) n = Some x.
Proof.
  revert n; induction l as [|y l IH]; intros [|n] Hn; simpl in *; try lia; auto.
  apply IH. lia.
Qed.

Lemma nth_error_set_nth_ne {A} (l : list A) (n m : nat) (x : A) :
  n <> m -> nth_error (set_nth l n x) m = nth_error l m.
Proof.
  revert n m; induction l as [|y l IH]; intros [|n] [|m] Hn; simpl in *; auto.
  congruence.
Qed.

Lemma map_set_nth {A B} (f : A -> B) (l : list A) (n : nat) (x : A) :
  map f (set_nth l n x) = set_nth (map f l) n (f x).
Proof.
  revert n; induction l as [|y l IH]; intros [|n]; simpl; auto.
  now rewrite IH.
Qed.

Lemma set_nth_same {A} (l : list A) (n : nat) (x : A) :
  nth_error l n = Some x -> set_nth l n x = l.
Proof.
  revert n; induction l as [|y l IH]; intros [|n]; simpl; auto.
  - now intros [= ->].
  - intros H. now rewrite IH.
Qed.

Lemma Forall_set_nth {A} (P : A -> Prop) (l : list A) (n : nat) (x : A) :
  Forall P l -> P x -> Forall P (set_nth l n x).
Proof.
  intros Hl Hx. revert n. induction Hl; intros [|n]; simpl; constructor; auto.
Qed.

Lemma concat_set_nth_app {A} (ll : list (list A)) (n : nat) (e : list A) (c : A) :
  nth_error ll n = Some e ->
  Permutation (List.concat (set_nth ll n (e ++ [c]))) (List.concat ll ++ [c]).
Proof.
  revert n; induction ll as [|y ll IH]; intros [|n]; simpl; try discriminate.
  - intros [= ->]. rewrite <- !app_assoc.
    apply Permutation_app_head.
    apply Permutation_app_comm with (l := [c]).
  - intros H. rewrite <- app_assoc. apply Permutation_app_head. now apply IH.
Qed.

Lemma in_xrange (n k : Z) : In k (xrange n) <-> 0 <= k < n.
Proof.
  unfold xrange. rewrite in_map_iff. split.
  - intros (m & <- & Hm). apply in_seq in Hm. lia.
  - intros Hk. exists (Z.to_nat k). split; [lia|]. apply in_seq. lia.
Qed.

Lemma NoDup_xrange (n : Z) : NoDup (xrange n).
Proof.
  unfold xrange. apply Finite.Injective_map_NoDup; [|apply seq_NoDup].
  intros a b. lia.
Qed.

(** ** Global indexing: every cell lands in exactly one entry *)

Lemma same_topology_refl (o : pyGeo.obj) : same_topology o o.
Proof. repeat split. Qed.

Lemma same_topology_trans (a b c : pyGeo.obj) :
  same_topology a b -> same_topology b c -> same_topology a c.
Proof.
  intros (H1 & H2 & H3) (K1 & K2 & K3). repeat split; congruence.
Qed.

Lemma set_globalCtlIndex_spec (o o' : pyGeo.obj) (isurf i j g : Z) :
  set_globalCtlIndex o isurf i j g = Ok o' ->
  same_topology o o' /\ pyGeo.global_coef o' = pyGeo.global_coef o.
Proof.
  unfold set_globalCtlIndex. intros H. inv_ok.
  apply setitem_Ok in Ha1. destruct Ha1 as (n & Hn & ->).
  apply getitem_Ok in Ha. destruct Ha as (m & Hm & Hnth).
  assert (n = m) by congruence. subst m.
  repeat split; simpl.
  rewrite map_set_nth. apply set_nth_same.
  rewrite nth_error_map, Hnth. reflexivity.
Qed.

Lemma alloc_master_added (isurf i j : Z) (fr fr' : frame) :
  alloc_master isurf i j fr = Ok fr' -> cell_added (isurf, i, j) fr fr'.
Proof.
  unfold alloc_master. intros H. inv_ok.
  apply set_globalCtlIndex_spec in Ha. destruct Ha as (Ht & Hg).
  unfold cell_added; simpl. split; [exact Ht|].
  rewrite Hg; simpl. split; [|split].
  - rewrite concat_app; simpl. apply Permutation_refl.
  - rewrite length_app; simpl. lia.
  - intros Hne. apply Forall_app. split; [exact Hne|].
    constructor; [discriminate|constructor].
Qed.

Lemma alias_to_added `{Externals} (isurf i j pid e t d : Z) (fr fr' : frame) :
  alias_to isurf i j pid e t d fr = Ok fr' -> cell_added (isurf, i, j) fr fr'.
Proof.
  unfold alias_to. intros H0. inv_ok.
  apply set_globalCtlIndex_spec in Ha3. destruct Ha3 as (Ht & Hg).
  apply setitem_Ok in Ha2. destruct Ha2 as (n & Hn & ->).
  apply getitem_Ok in Ha1. destruct Ha1 as (m & Hm & Hnth).
  assert (n = m) by congruence. subst m.
  unfold cell_added; simpl. split; [exact Ht|].
  rewrite Hg; simpl. split; [|split].
  - now apply concat_set_nth_app.
  - now rewrite length_set_nth.
  - intros Hne. apply Forall_set_nth; [exact Hne|].
    destruct a1; discriminate.
Qed.

Lemma cell_added_patchID (c : cell) (fr fr' : frame) (p : option Z) :
  cell_added c (mkFrame (self fr) (counter fr) p (g_index fr) (master_bool_array fr)) fr' ->
  cell_added c fr fr'.
Proof. exact (fun H => H). Qed.

Lemma alias_slave_added `{Externals} (isurf i j icon t : Z) (fr fr' : frame) :
  alias_slave isurf i j icon t fr = Ok fr' -> cell_added (isurf, i, j) fr fr'.
Proof.
  unfold alias_slave. intros H0. inv_ok.
  apply alias_to_added in H0. exact H0.
Qed.

Lemma alias_slave_patchiD_added `{Externals} (isurf i j icon t : Z) (fr fr' : frame) :
  alias_slave_patchiD isurf i j icon t fr = Ok fr' -> cell_added (isurf, i, j) fr fr'.
Proof.
  unfold alias_slave_patchiD. intros H0. inv_ok.
  now apply alias_to_added in H0.
Qed.

Lemma cell_added_print_l (c : cell) (line : string) (fr fr' : frame) :
  cell_added c (print_fr line fr) fr' <-> cell_added c fr fr'.
Proof. reflexivity. Qed.

Lemma cell_added_print_r (c : cell) (line : string) (fr fr' : frame) :
  cell_added c fr fr' -> cell_added c fr (print_fr line fr').
Proof. exact (fun H => H). Qed.

Lemma edge_cell_added `{Externals} (isurf i j e t : Z) (fr fr' : frame) :
  edge_cell isurf i j e t fr = Ok fr' -> cell_added (isurf, i, j) fr fr'.
Proof.
  unfold edge_cell. intros H0. inv_ok. case_bools.
  - now apply alloc_master_added.
  - now apply alias_slave_added in H0.
Qed.

Create HintDb indexing.

#[local] Hint Resolve alloc_master_added alias_slave_added alias_slave_patchiD_added
  edge_cell_added cell_added_print_r : indexing.

(** Every cell of the grid falls in one of the nine branches. *)
Lemma index_cell_added `{Externals} (isurf Nctlu Nctlv i j : Z) (fr fr' : frame) :
  0 <= i < Nctlu -> 0 <= j < Nctlv ->
  index_cell isurf Nctlu Nctlv i j fr = Ok fr' ->
  cell_added (isurf, i, j) fr fr'.
Proof.
  intros Hi Hj. unfold index_cell.
  destruct ((0 <? i) && (i <? Nctlu - 1) && (0 <? j) && (j <? Nctlv - 1)) eqn:C0;
    [solve [eauto with indexing]|].
  destruct ((0 <? i) && (i <? Nctlu - 1) && (j =? 0)) eqn:C1; [solve [eauto with indexing]|].
  destruct ((0 <? i) && (i <? Nctlu - 1) && (j =? Nctlv - 1)) eqn:C2; [solve [eauto with indexing]|].
  destruct ((i =? 0) && (0 <? j) && (j <? Nctlv - 1)) eqn:C3; [solve [eauto with indexing]|].
  destruct ((i =? Nctlu - 1) && (0 <? j) && (j <? Nctlv - 1)) eqn:C4; [solve [eauto with indexing]|].
  destruct ((i =? 0) && (j =? 0)) eqn:C5.
  { intros H0. inv_ok.
    case_bools; simpl in H0; inv_ok; eauto with indexing.
    all: match goal with
         | K : alias_slave _ _ _ _ _ _ = Ok _ |- _ => apply alias_slave_added in K; exact K
         | K : alloc_master _ _ _ _ = Ok _ |- _ => apply alloc_master_added in K; exact K
         end. }
  destruct ((i =? Nctlu - 1) && (j =? 0)) eqn:C6.
  { intros H0. inv_ok.
    case_bools; simpl in H0; eauto with indexing. }
  destruct ((i =? 0) && (j =? Nctlv - 1)) eqn:C7.
  { intros H0. inv_ok.
    case_bools; simpl in H0; eauto with indexing. }
  destruct ((i =? Nctlu - 1) && (j =? Nctlv - 1)) eqn:C8.
  { intros H0. inv_ok.
    case_bools; simpl in H0; eauto with indexing. }
  exfalso.
  repeat match goal with
  | C : _ && _ = false |- _ => apply andb_false_iff in C
  end.
  lia.
Qed.

Lemma indexed_refl (fr : frame) : indexed fr fr [].
Proof.
  split; [apply same_topology_refl|]. split; [|split; [reflexivity|auto]].
  rewrite app_nil_r. apply Permutation_refl.
Qed.

Lemma indexed_trans (a b c : frame) (l1 l2 : list cell) :
  indexed a b l1 -> indexed b c l2 -> indexed a c (l1 ++ l2).
Proof.
  intros (T1 & P1 & C1 & N1) (T2 & P2 & C2 & N2). split; [|split; [|split]].
  - eapply same_topology_trans; eauto.
  - rewrite P2, P1. now rewrite app_assoc.
  - lia.
  - auto.
Qed.

Lemma cell_added_indexed (c : cell) (fr fr' : frame) :
  cell_added c fr fr' -> indexed fr fr' [c].
Proof. exact (fun H => H). Qed.

Lemma index_row_indexed `{Externals} (isurf Nctlu Nctlv i : Z) (fr fr' : frame) :
  0 <= i < Nctlu ->
  for_ (xrange Nctlv) (fun j fr => index_cell isurf Nctlu Nctlv i j fr) fr = Ok fr' ->
  indexed fr fr' (cells_of_row isurf Nctlv i).
Proof.
  intros Hi Hrun. unfold cells_of_row.
  apply (for_invariant _ (fun d s => indexed fr s (map (fun j => (isurf, i, j)) d))) in Hrun;
    [exact Hrun | apply indexed_refl |].
  intros d j t t' Hj HP Hb. rewrite map_app. simpl.
  eapply indexed_trans; [exact HP|].
  apply cell_added_indexed. apply in_xrange in Hj.
  eapply index_cell_added; eauto.
Qed.

Lemma index_grid_indexed `{Externals} (isurf Nctlu Nctlv : Z) (fr fr' : frame) :
  for_ (xrange Nctlu)
    (fun i fr => for_ (xrange Nctlv) (fun j fr => index_cell isurf Nctlu Nctlv i j fr) fr)
    fr = Ok fr' ->
  indexed fr fr' (cells_of_surf isurf Nctlu Nctlv).
Proof.
  intros Hrun. unfold cells_of_surf.
  apply (for_invariant _ (fun d s => indexed fr s (flat_map (cells_of_row isurf Nctlv) d))) in Hrun;
    [exact Hrun | apply indexed_refl |].
  intros d i t t' Hi HP Hb. rewrite flat_map_app. simpl. rewrite app_nil_r.
  eapply indexed_trans; [exact HP|].
  apply in_xrange in Hi. eapply index_row_indexed; eauto.
Qed.

Lemma index_surf_indexed `{Externals} (isurf : Z) (fr fr' : frame) :
  0 <= isurf ->
  index_surf isurf fr = Ok fr' ->
  indexed fr fr' (cells_of_surfs (map dims (pyGeo.surfs (self fr))) [isurf]).
Proof.
  intros Hpos. unfold index_surf. intros Hrun. inv_ok.
  apply index_grid_indexed in Ha0.
  apply getitem_Ok in Ha. destruct Ha as (n & Hn & Hnth).
  assert (n = Z.to_nat isurf) as ->.
  { unfold norm_index in Hn.
    destruct ((0 <=? isurf) && (isurf <? Z.of_nat (List.length (pyGeo.surfs (self fr))))).
    - congruence.
    - destruct ((- Z.of_nat (List.length (pyGeo.surfs (self fr))) <=? isurf) && (isurf <? 0)) eqn:E;
        [|discriminate].
      apply andb_true_iff in E. lia. }
  unfold cells_of_surfs. simpl. rewrite nth_error_map, Hnth. simpl.
  rewrite app_nil_r.
  destruct Ha0 as (T & P & C & N). split; [exact T|]. split; [exact P|]. split; [exact C|exact N].
Qed.

Lemma cells_of_surfs_app (shape : list (Z * Z)) (l1 l2 : list Z) :
  cells_of_surfs shape (l1 ++ l2) = cells_of_surfs shape l1 ++ cells_of_surfs shape l2.
Proof. unfold cells_of_surfs. apply flat_map_app. Qed.

Lemma index_surfs_indexed `{Externals} (n : Z) (fr fr' : frame) :
  for_ (xrange n) index_surf fr = Ok fr' ->
  indexed fr fr' (cells_of_surfs (map dims (pyGeo.surfs (self fr))) (xrange n)).
Proof.
  intros Hrun.
  apply (for_invariant _
           (fun d s => indexed fr s (cells_of_surfs (map dims (pyGeo.surfs (self fr))) d)))
    in Hrun; [exact Hrun | apply indexed_refl |].
  intros d isurf t t' Hin HP Hb. rewrite cells_of_surfs_app.
  eapply indexed_trans; [exact HP|].
  apply in_xrange in Hin.
  apply index_surf_indexed in Hb; [|lia].
  destruct HP as ((_ & _ & Hshape) & _). rewrite Hshape in Hb. exact Hb.
Qed.

Lemma fill_coef_spec (o o' : pyGeo.obj) :
  fill_coef o = Ok o' ->
  same_topology o o' /\ pyGeo.global_coef o' = pyGeo.global_coef o /\
  pyGeo.Ncoef o' = pyGeo.Ncoef o.
Proof.
  unfold fill_coef. intros Hrun.
  apply (for_invariant _
           (fun (_ : list Z) s => same_topology o s /\ pyGeo.global_coef s = pyGeo.global_coef o /\
                       pyGeo.Ncoef s = pyGeo.Ncoef o)) in Hrun;
    [exact Hrun | repeat split |].
  intros d ii t t' _ (T & G & N) Hb. inv_ok. simpl. auto.
Qed.

(** What [_setEdgeConnectivity] leaves behind when it returns. *)
Lemma setEdgeConnectivity_indexed `{Externals} (self0 o : pyGeo.obj) :
  _setEdgeConnectivity self0 = Ok o ->
  same_topology self0 o /\
  Permutation (List.concat (pyGeo.global_coef o))
    (cells_of_surfs (map dims (pyGeo.surfs self0)) (xrange (pyGeo.nSurf self0))) /\
  pyGeo.Ncoef o = Z.of_nat (List.length (pyGeo.global_coef o)) /\
  Forall (fun en => en <> []) (pyGeo.global_coef o).
Proof.
  unfold _setEdgeConnectivity. destruct (pyGeo.con self0) eqn:Hcon; [|discriminate].
  intros Hrun. inv_ok.
  apply index_surfs_indexed in Ha. simpl in Ha.
  apply fill_coef_spec in Hrun. simpl in Hrun.
  destruct Hrun as (T2 & G & N). destruct Ha as (T1 & P & C & NE). simpl in *.
  split; [|split; [|split]].
  - eapply same_topology_trans; [|exact T2].
    destruct T1 as (A1 & A2 & A3). repeat split; simpl in *; auto.
  - rewrite G. exact P.
  - rewrite N, G. lia.
  - rewrite G. apply NE. constructor.
Qed.

Lemma cell_eqb_eq (a b : cell) : cell_eqb a b = true <-> a = b.
Proof.
  destruct a as [[p i] j], b as [[q k] l]. unfold cell_eqb.
  rewrite !andb_true_iff, !Z.eqb_eq. split.
  - intros [[-> ->] ->]. reflexivity.
  - intros [= -> -> ->]. auto.
Qed.

Lemma existsb_cell_In (c : cell) (en : list cell) :
  existsb (cell_eqb c) en = true <-> In c en.
Proof.
  rewrite existsb_exists. split.
  - intros (x & Hx & E). apply cell_eqb_eq in E. now subst.
  - intros Hc. exists c. split; [exact Hc|]. now apply cell_eqb_eq.
Qed.

Lemma entries_with_none (c : cell) (gc : list (list cell)) :
  ~ In c (List.concat gc) -> entries_with c gc = [].
Proof.
  induction gc as [|en gc IH]; simpl; intros Hn; [reflexivity|].
  destruct (existsb (cell_eqb c) en) eqn:E.
  - apply existsb_cell_In in E. exfalso. apply Hn. apply in_or_app. now left.
  - apply IH. intros Hc. apply Hn. apply in_or_app. now right.
Qed.

(** When no alias is listed twice, an alias that is listed is in exactly
    one entry. *)
Lemma entries_with_unique (c : cell) (gc : list (list cell)) :
  NoDup (List.concat gc) -> In c (List.concat gc) ->
  List.length (entries_with c gc) = 1%nat.
Proof.
  induction gc as [|en gc IH]; simpl; intros Hnd Hin; [contradiction|].
  destruct (existsb (cell_eqb c) en) eqn:E.
  - apply existsb_cell_In in E. simpl. f_equal.
    rewrite entries_with_none; [reflexivity|].
    intros Hc. revert Hnd E Hc. clear. induction en as [|x en IH]; simpl; intros Hnd E Hc.
    + contradiction.
    + inversion Hnd as [|? ? Hx Hnd']; subst. destruct E as [->|E].
      * apply Hx. apply in_or_app. now right.
      * now apply IH.
  - apply IH.
    + eapply NoDup_app_remove_l; eauto.
    + apply in_app_or in Hin. destruct Hin as [Hin|Hin]; [|exact Hin].
      apply existsb_cell_In in Hin. congruence.
Qed.

Lemma NoDup_flat_map {A B} (f : A -> list B) (l : list A) :
  NoDup l ->
  (forall a, In a l -> NoDup (f a)) ->
  (forall a a' b, In a l -> In a' l -> In b (f a) -> In b (f a') -> a = a') ->
  NoDup (flat_map f l).
Proof.
  induction 1 as [|x l Hx Hnd IH]; simpl; intros Hf Hinj; [constructor|].
  apply NoDup_app.
  - apply Hf. now left.
  - apply IH.
    + intros a Ha. apply Hf. now right.
    + intros a a' b Ha Ha'. apply Hinj; now right.
  - intros b Hb Hb'. apply in_flat_map in Hb'. destruct Hb' as (a' & Ha' & Hba').
    assert (x = a') as <-.
    { apply (Hinj x a' b); auto; simpl; auto. }
    contradiction.
Qed.

Lemma in_cells_of_row (isurf Nctlv i : Z) (c : cell) :
  In c (cells_of_row isurf Nctlv i) <-> exists j, c = (isurf, i, j) /\ 0 <= j < Nctlv.
Proof.
  unfold cells_of_row. rewrite in_map_iff. split.
  - intros (j & <- & Hj). apply in_xrange in Hj. eauto.
  - intros (j & -> & Hj). exists j. split; [reflexivity|]. now apply in_xrange.
Qed.

Lemma in_cells_of_surf (isurf Nctlu Nctlv : Z) (c : cell) :
  In c (cells_of_surf isurf Nctlu Nctlv) <->
  exists i j, c = (isurf, i, j) /\ 0 <= i < Nctlu /\ 0 <= j < Nctlv.
Proof.
  unfold cells_of_surf. rewrite in_flat_map. split.
  - intros (i & Hi & Hc). apply in_xrange in Hi. apply in_cells_of_row in Hc.
    destruct Hc as (j & -> & Hj). eauto.
  - intros (i & j & -> & Hi & Hj). exists i. split; [now apply in_xrange|].
    apply in_cells_of_row. eauto.
Qed.

Lemma NoDup_cells_of_surf (isurf Nctlu Nctlv : Z) : NoDup (cells_of_surf isurf Nctlu Nctlv).
Proof.
  unfold cells_of_surf. apply NoDup_flat_map.
  - apply NoDup_xrange.
  - intros i _. unfold cells_of_row. apply Finite.Injective_map_NoDup; [|apply NoDup_xrange].
    intros a b [= ->]. reflexivity.
  - intros i i' c _ _ Hc Hc'. apply in_cells_of_row in Hc, Hc'.
    destruct Hc as (j & -> & _), Hc' as (j' & [= -> _] & _). reflexivity.
Qed.

Lemma NoDup_cells_of_surfs (shape : list (Z * Z)) (n : Z) :
  NoDup (cells_of_surfs shape (xrange n)).
Proof.
  unfold cells_of_surfs. apply NoDup_flat_map.
  - apply NoDup_xrange.
  - intros isurf _. destruct (nth_error shape (Z.to_nat isurf)) as [[nu nv]|];
      [apply NoDup_cells_of_surf | constructor].
  - intros a a' c _ _ Hc Hc'.
    destruct (nth_error shape (Z.to_nat a)) as [[nu nv]|]; [|contradiction].
    destruct (nth_error shape (Z.to_nat a')) as [[nu' nv']|]; [|contradiction].
    apply in_cells_of_surf in Hc, Hc'.
    destruct Hc as (i & j & -> & _), Hc' as (i' & j' & [= -> _ _] & _). reflexivity.
Qed.

(** C1.  When [_setEdgeConnectivity] returns, every control-point cell
    [(i,j)] of every patch is an alias of exactly one entry of
    [global_coef]; [Ncoef] is the number of entries, each of which was
    created by one master allocation and so is not empty. *)
Theorem setEdgeConnectivity_alias_completeness `{Externals} (self0 o : pyGeo.obj) :
  _setEdgeConnectivity self0 = Ok o ->
  (forall isurf sf i j,
      0 <= isurf < pyGeo.nSurf self0 ->
      nth_error (pyGeo.surfs self0) (Z.to_nat isurf) = Some sf ->
      0 <= i < surf_spline.Nctlu sf ->
      0 <= j < surf_spline.Nctlv sf ->
      List.length (entries_with (isurf, i, j) (pyGeo.global_coef o)) = 1%nat) /\
  pyGeo.Ncoef o = Z.of_nat (List.length (pyGeo.global_coef o)) /\
  Forall (fun en => en <> []) (pyGeo.global_coef o).
Proof.
  intros Hrun. apply setEdgeConnectivity_indexed in Hrun.
  destruct Hrun as (T & P & N & NE). split; [|split; [exact N|exact NE]].
  intros isurf sf i j Hs Hsf Hi Hj.
  apply entries_with_unique.
  - eapply Permutation_NoDup; [apply Permutation_sym; exact P|].
    apply NoDup_cells_of_surfs.
  - eapply Permutation_in; [apply Permutation_sym; exact P|].
    unfold cells_of_surfs. apply in_flat_map. exists isurf. split; [apply in_xrange; lia|].
    rewrite nth_error_map, Hsf. simpl. apply in_cells_of_surf. eauto.
Qed.

Lemma setEdgeConnectivity_alias_completeness_witness :
  (forall isurf sf i j,
      0 <= isurf < pyGeo.nSurf four_patches_joined ->
      nth_error (pyGeo.surfs four_patches_joined) (Z.to_nat isurf) = Some sf ->
      0 <= i < surf_spline.Nctlu sf ->
      0 <= j < surf_spline.Nctlv sf ->
      List.length (entries_with (isurf, i, j) (pyGeo.global_coef four_patches_indexed)) = 1%nat) /\
  pyGeo.Ncoef four_patches_indexed
  = Z.of_nat (List.length (pyGeo.global_coef four_patches_indexed)) /\
  Forall (fun en => en <> []) (pyGeo.global_coef four_patches_indexed).
Proof.
  apply (@setEdgeConnectivity_alias_completeness spec_model four_patches_joined
           four_patches_indexed).
  vm_compute. reflexivity.
Defined.

(** ** The scenario of two patches that share one edge *)

(** C2.  Two 6 x 4 patches, edge 1 of the first on edge 0 of the second,
    tolerance [1e-4]: one joined record, for that pair; six free records,
    three for each patch; and [6*4 + 6*4 - 6] degrees of freedom. *)
Theorem two_patches_scenario :
  exists o con,
    calcEdgeConnectivity two_patches tol_1e_4 tol_1e_4 = Ok o /\
    pyGeo.con o = Some con /\
    count (fun c => edge.type c =? 1) con = 1%nat /\
    count (joins 0 1 1 0) con = 1%nat /\
    count (fun c => edge.type c =? 0) con = 6%nat /\
    count (free_of 0) con = 3%nat /\
    count (free_of 1) con = 3%nat /\
    List.length con = 7%nat /\
    pyGeo.Ncoef o = 6 * 4 + 6 * 4 - 6.
Proof.
  eexists. eexists.
  split; [vm_compute; reflexivity|].
  split; [vm_compute; reflexivity|].
  vm_compute. repeat split.
Qed.

(** ** Corners whose two edges are slaves *)

Lemma four_patches_con_computed :
  calc_con four_patches tol_1e_4 = Ok four_patches_con.
Proof. vm_compute. reflexivity. Qed.

(** C3, as stated, fails: on the 2 x 2 block both edges at Node 0 of patch 3
    are slaves, and indexing returns normally. *)
Lemma both_slaves_not_fatal : ~ both_slaves_fatal four_patches_joined.
Proof.
  unfold both_slaves_fatal. intros Hfatal.
  assert (H1 : 0 <= 3 < pyGeo.nSurf four_patches_joined) by (vm_compute; split; [discriminate | reflexivity]).
  assert (H2 : _findConIndex four_patches_joined 3 (fst (corner_edges Node0)) = Ok (2, false))
    by (vm_compute; reflexivity).
  assert (H3 : _findConIndex four_patches_joined 3 (snd (corner_edges Node0)) = Ok (3, false))
    by (vm_compute; reflexivity).
  destruct (Hfatal Node0 3 2 3 H1 H2 H3) as (code & msg & Hexit).
  vm_compute in Hexit. discriminate Hexit.
Qed.

Lemma getitem_setitem {A} (l : list A) (i : Z) (old x : A) :
  getitem l i = Ok old ->
  exists l', setitem l i x = Ok l' /\ getitem l' i = Ok x /\
             List.length l' = List.length l.
Proof.
  intros Hg. apply getitem_Ok in Hg. destruct Hg as (n & Hn & Hnth).
  exists (set_nth l n x). unfold setitem, getitem.
  rewrite length_set_nth, Hn. repeat split.
  rewrite nth_error_set_nth_eq; [reflexivity|].
  eapply norm_index_lt; eauto.
Qed.

Lemma getitem2_setitem2 {A} (a : list (list A)) (i j : Z) (old x : A) :
  getitem2 a i j = Ok old ->
  exists a', setitem2 a i j x = Ok a' /\ getitem2 a' i j = Ok x.
Proof.
  unfold getitem2, setitem2. intros Hg. inv_ok.
  destruct (getitem_setitem _ _ x Hg) as (row' & Hs & Hg' & _).
  destruct (getitem_setitem _ _ row' Ha) as (a' & Hs' & Hg'' & _).
  exists a'. rewrite Ha. simpl. rewrite Hs. simpl. rewrite Hs'.
  split; [reflexivity|]. rewrite Hg''. simpl. exact Hg'.
Qed.

Lemma set_globalCtlIndex_ok (o : pyGeo.obj) (isurf i j g old : Z) (sfi : surf_spline.obj) :
  getitem (pyGeo.surfs o) isurf = Ok sfi ->
  getitem2 (surf_spline.globalCtlIndex sfi) i j = Ok old ->
  exists o',
    set_globalCtlIndex o isurf i j g = Ok o' /\
    pyGeo.global_coef o' = pyGeo.global_coef o /\
    pyGeo.stdout o' = pyGeo.stdout o /\
    exists sfi', getitem (pyGeo.surfs o') isurf = Ok sfi' /\
                 getitem2 (surf_spline.globalCtlIndex sfi') i j = Ok g.
Proof.
  intros Hs Hc.
  destruct (getitem2_setitem2 _ _ _ g Hc) as (a' & Hset & Hget).
  destruct (getitem_setitem _ _ (surf_spline.set_globalCtlIndex a' sfi) Hs) as (ss & Hss & Hgs & _).
  exists (pyGeo.set_surfs ss o). unfold set_globalCtlIndex.
  rewrite Hs. simpl. rewrite Hset. simpl. rewrite Hss. simpl.
  repeat split. eexists. split; [exact Hgs|exact Hget].
Qed.

Lemma alias_to_ok `{Externals} (isurf i j pid e t d g old : Z) (fr : frame)
    (master sfi : surf_spline.obj) (en : list cell) :
  getitem (pyGeo.surfs (self fr)) pid = Ok master ->
  getGlobalIndexEdge master e t d = Ok g ->
  getitem (pyGeo.global_coef (self fr)) g = Ok en ->
  getitem (pyGeo.surfs (self fr)) isurf = Ok sfi ->
  getitem2 (surf_spline.globalCtlIndex sfi) i j = Ok old ->
  exists fr',
    alias_to isurf i j pid e t d fr = Ok fr' /\
    counter fr' = counter fr /\
    g_index fr' = Some g /\
    getitem (pyGeo.global_coef (self fr')) g = Ok (en ++ [(isurf, i, j)]) /\
    List.length (pyGeo.global_coef (self fr')) = List.length (pyGeo.global_coef (self fr)) /\
    pyGeo.stdout (self fr') = pyGeo.stdout (self fr) /\
    exists sfi', getitem (pyGeo.surfs (self fr')) isurf = Ok sfi' /\
                 getitem2 (surf_spline.globalCtlIndex sfi') i j = Ok g.
Proof.
  unfold cell in *. intros Hm Hg He Hs Hc.
  destruct (getitem_setitem _ _ (en ++ [(isurf, i, j)]) He) as (gc & Hset & Hget & Hlen).
  destruct (@set_globalCtlIndex_ok (pyGeo.set_global_coef gc (self fr)) isurf i j g old sfi Hs Hc)
    as (o' & Ho & Hgc & Hout & Hidx).
  eexists. unfold alias_to. rewrite Hm. cbn [bind]. rewrite Hg. cbn [bind]. rewrite He.
  cbn [bind]. rewrite Hset. cbn [bind]. rewrite Ho. cbn [bind].
  split; [reflexivity|]. cbn [self counter g_index]. rewrite Hgc, Hout.
  cbn [pyGeo.set_global_coef pyGeo.global_coef pyGeo.stdout].
  repeat split; auto.
Qed.

Lemma alias_slave_ok `{Externals} (isurf i j icon t g old : Z) (fr : frame)
    (con : list edge.obj) (c : edge.obj) (master sfi : surf_spline.obj) (en : list cell) :
  pyGeo.con (self fr) = Some con ->
  getitem con icon = Ok c ->
  getitem (pyGeo.surfs (self fr)) (edge.f1 c) = Ok master ->
  getGlobalIndexEdge master (edge.e1 c) t (edge.dir c) = Ok g ->
  getitem (pyGeo.global_coef (self fr)) g = Ok en ->
  getitem (pyGeo.surfs (self fr)) isurf = Ok sfi ->
  getitem2 (surf_spline.globalCtlIndex sfi) i j = Ok old ->
  exists fr',
    alias_slave isurf i j icon t fr = Ok fr' /\
    counter fr' = counter fr /\
    g_index fr' = Some g /\
    getitem (pyGeo.global_coef (self fr')) g = Ok (en ++ [(isurf, i, j)]) /\
    List.length (pyGeo.global_coef (self fr')) = List.length (pyGeo.global_coef (self fr)) /\
    pyGeo.stdout (self fr') = pyGeo.stdout (self fr) /\
    exists sfi', getitem (pyGeo.surfs (self fr')) isurf = Ok sfi' /\
                 getitem2 (surf_spline.globalCtlIndex sfi') i j = Ok g.
Proof.
  intros Hcon Hc Hm Hg He Hs Hold.
  unfold alias_slave. rewrite Hcon. cbn [lift bind]. rewrite Hc. cbn [bind].
  exact (@alias_to_ok _ isurf i j (edge.f1 c) (edge.e1 c) t (edge.dir c) g old
           (mkFrame (self fr) (counter fr) (Some (edge.f1 c)) (g_index fr) (master_bool_array fr))
           master sfi en Hm Hg He Hs Hold).
Qed.

Lemma getitem_Raise {A} (l : list A) (i : Z) (e : exn) :
  getitem l i = Raise e -> e = IndexError.
Proof.
  unfold getitem. destruct (norm_index (List.length l) i) as [k|]; [|congruence].
  destruct (nth_error l k); cbn [lift]; congruence.
Qed.

Lemma getitem_Raise_setitem {A} (l : list A) (i : Z) (x : A) (e : exn) :
  getitem l i = Raise e -> setitem l i x = Raise IndexError.
Proof.
  unfold getitem, setitem.
  destruct (norm_index (List.length l) i) as [k|] eqn:E; [|reflexivity].
  apply norm_index_lt in E. apply nth_error_Some in E.
  destruct (nth_error l k); [discriminate|contradiction].
Qed.

Lemma getitem2_Raise_setitem2 {A} (a : list (list A)) (i j : Z) (x : A) (e : exn) :
  getitem2 a i j = Raise e -> setitem2 a i j x = Raise IndexError.
Proof.
  unfold getitem2, setitem2. destruct (getitem a i) as [row|e'] eqn:E; cbn [bind].
  - intros Hr. now rewrite (getitem_Raise_setitem _ _ x Hr).
  - intros _. now rewrite (getitem_Raise _ _ E).
Qed.

Lemma set_globalCtlIndex_Raise (o : pyGeo.obj) (isurf i j g : Z) (e : exn) :
  (sfi <- getitem (pyGeo.surfs o) isurf ;;
   getitem2 (surf_spline.globalCtlIndex sfi) i j) = Raise e ->
  set_globalCtlIndex o isurf i j g = Raise IndexError.
Proof.
  unfold set_globalCtlIndex. destruct (getitem (pyGeo.surfs o) isurf) as [sfi|e'] eqn:E;
    cbn [bind].
  - intros Hr. now rewrite (getitem2_Raise_setitem2 _ _ _ g Hr).
  - intros _. now rewrite (getitem_Raise _ _ E).
Qed.

(** A record that [_findConIndex] found is in the table. *)
Lemma findCon_from_nth (l : list edge.obj) (i isurf e k : Z) (b : bool) :
  findCon_from l i isurf e = Some (k, b) ->
  exists n c, k = i + Z.of_nat n /\ nth_error l n = Some c.
Proof.
  revert i. induction l as [|c l IH]; intros i; cbn [findCon_from]; [discriminate|].
  destruct ((edge.f1 c =? isurf) && (edge.e1 c =? e)).
  - intros [= <- <-]. exists 0%nat, c. split; [lia|reflexivity].
  - destruct ((edge.f2 c =? isurf) && (edge.e2 c =? e)).
    + intros [= <- <-]. exists 0%nat, c. split; [lia|reflexivity].
    + intros Hf. destruct (IH _ Hf) as (n & c' & -> & Hn).
      exists (S n), c'. split; [lia|exact Hn].
Qed.

Lemma findConIndex_record (o : pyGeo.obj) (isurf e icon : Z) (b : bool) :
  _findConIndex o isurf e = Ok (icon, b) ->
  exists con c, pyGeo.con o = Some con /\ getitem con icon = Ok c.
Proof.
  unfold _findConIndex. destruct (pyGeo.con o) as [con|]; [|discriminate].
  destruct (findCon_from con 0 isurf e) as [[k b']|] eqn:Ef; cbn [lift]; [|discriminate].
  intros [= -> ->]. destruct (findCon_from_nth _ _ _ _ Ef) as (n & c & -> & Hn).
  exists con, c. split; [reflexivity|].
  rewrite getitem_nonneg.
  - rewrite Z.add_0_l, Nat2Z.id, Hn. reflexivity.
  - assert (n < List.length con)%nat by (apply nth_error_Some; congruence). lia.
Qed.

(** The slave block, case by case: it returns when its four lookups do,
    and otherwise ends with the exception of the first that fails. *)
Lemma alias_slave_cases `{Externals} (isurf i j icon t : Z) (fr : frame)
    (con : list edge.obj) (c : edge.obj) :
  pyGeo.con (self fr) = Some con ->
  getitem con icon = Ok c ->
  match getitem (pyGeo.surfs (self fr)) (edge.f1 c) with
  | Raise _ => alias_slave isurf i j icon t fr = Raise IndexError
  | Ok master =>
      match getGlobalIndexEdge master (edge.e1 c) t (edge.dir c) with
      | Raise ex => alias_slave isurf i j icon t fr = Raise ex
      | Ok g =>
          match getitem (pyGeo.global_coef (self fr)) g,
                (sfi <- getitem (pyGeo.surfs (self fr)) isurf ;;
                 getitem2 (surf_spline.globalCtlIndex sfi) i j) with
          | Ok en, Ok _ =>
              exists fr',
                alias_slave isurf i j icon t fr = Ok fr' /\
                counter fr' = counter fr /\
                g_index fr' = Some g /\
                getitem (pyGeo.global_coef (self fr')) g = Ok (en ++ [(isurf, i, j)]) /\
                List.length (pyGeo.global_coef (self fr'))
                = List.length (pyGeo.global_coef (self fr)) /\
                pyGeo.stdout (self fr') = pyGeo.stdout (self fr) /\
                exists sfi', getitem (pyGeo.surfs (self fr')) isurf = Ok sfi' /\
                             getitem2 (surf_spline.globalCtlIndex sfi') i j = Ok g
          | _, _ => alias_slave isurf i j icon t fr = Raise IndexError
          end
      end
  end.
Proof.
  intros Hcon Hc.
  destruct (getitem (pyGeo.surfs (self fr)) (edge.f1 c)) as [master|e1] eqn:Hm.
  - destruct (getGlobalIndexEdge master (edge.e1 c) t (edge.dir c)) as [g|ex] eqn:Hg.
    + destruct (getitem (pyGeo.global_coef (self fr)) g) as [en|e3] eqn:He.
      * destruct (sfi <- getitem (pyGeo.surfs (self fr)) isurf ;;
                  getitem2 (surf_spline.globalCtlIndex sfi) i j) as [old|e4] eqn:Hold.
        -- apply bind_Ok in Hold. destruct Hold as (sfi & Hs & Hold).
           exact (@alias_slave_ok _ isurf i j icon t g old fr con c master sfi en
                    Hcon Hc Hm Hg He Hs Hold).
        -- unfold alias_slave. rewrite Hcon. cbn [lift bind]. rewrite Hc. cbn [bind].
           unfold alias_to. cbn [self]. rewrite Hm. cbn [bind]. rewrite Hg. cbn [bind].
           unfold cell in *. rewrite He. cbn [bind].
           destruct (getitem_setitem _ _ (en ++ [(isurf, i, j)]) He) as (gc & -> & _).
           cbn [bind]. erewrite set_globalCtlIndex_Raise; [reflexivity|exact Hold].
      * unfold alias_slave. rewrite Hcon. cbn [lift bind]. rewrite Hc. cbn [bind].
        unfold alias_to. cbn [self]. rewrite Hm. cbn [bind]. rewrite Hg. cbn [bind].
        unfold cell in *. rewrite He. cbn [bind]. now rewrite (getitem_Raise _ _ He).
    + unfold alias_slave. rewrite Hcon. cbn [lift bind]. rewrite Hc. cbn [bind].
      unfold alias_to. cbn [self]. rewrite Hm. cbn [bind]. rewrite Hg. reflexivity.
  - unfold alias_slave. rewrite Hcon. cbn [lift bind]. rewrite Hc. cbn [bind].
    unfold alias_to. cbn [self]. rewrite Hm. cbn [bind]. now rewrite (getitem_Raise _ _ Hm).
Qed.

(** C3, amended.  At Node 0, 1 or 3 of a patch of at least 2 x 2 control
    points whose two edges there are both slaves, the code has no fatal
    path: the cell is handled by the slave block of the record found for
    the first edge, and what happens is decided by the four lookups of
    that block, in their order.  When the master patch of the record
    exists, [getGlobalIndexEdge] returns an index [g], entry [g] of
    [global_coef] exists and the cell exists in [globalCtlIndex], the
    corner is appended to entry [g], its index becomes [g], no degree of
    freedom is counted, Node 0 prints its diagnostic, and indexing goes
    on.  When a lookup fails the cell ends with the exception of that
    lookup: [IndexError] for a patch, an entry or a cell that is missing,
    and whatever [getGlobalIndexEdge] raised. *)
Theorem corner_both_slaves_aliased `{Externals}
    (n : corner) (isurf Nctlu Nctlv icon1 icon2 : Z) (fr : frame) :
  n <> Node2 -> 2 <= Nctlu -> 2 <= Nctlv ->
  _findConIndex (self fr) isurf (fst (corner_edges n)) = Ok (icon1, false) ->
  _findConIndex (self fr) isurf (snd (corner_edges n)) = Ok (icon2, false) ->
  exists con c,
    pyGeo.con (self fr) = Some con /\ getitem con icon1 = Ok c /\
    let i := fst (corner_cell Nctlu Nctlv n) in
    let j := snd (corner_cell Nctlu Nctlv n) in
    match getitem (pyGeo.surfs (self fr)) (edge.f1 c) with
    | Raise _ => index_cell isurf Nctlu Nctlv i j fr = Raise IndexError
    | Ok master =>
        match getGlobalIndexEdge master (edge.e1 c) (corner_position Nctlu n) (edge.dir c) with
        | Raise ex => index_cell isurf Nctlu Nctlv i j fr = Raise ex
        | Ok g =>
            match getitem (pyGeo.global_coef (self fr)) g,
                  (sfi <- getitem (pyGeo.surfs (self fr)) isurf ;;
                   getitem2 (surf_spline.globalCtlIndex sfi) i j) with
            | Ok en, Ok _ =>
                exists fr',
                  index_cell isurf Nctlu Nctlv i j fr = Ok fr' /\
                  counter fr' = counter fr /\
                  getitem (pyGeo.global_coef (self fr')) g = Ok (en ++ [(isurf, i, j)]) /\
                  List.length (pyGeo.global_coef (self fr'))
                  = List.length (pyGeo.global_coef (self fr)) /\
                  (exists sfi',
                      getitem (pyGeo.surfs (self fr')) isurf = Ok sfi' /\
                      getitem2 (surf_spline.globalCtlIndex sfi') i j = Ok g) /\
                  pyGeo.stdout (self fr')
                  = pyGeo.stdout (self fr) ++ corner_diagnostic n isurf icon1 icon2 g
            | _, _ => index_cell isurf Nctlu Nctlv i j fr = Raise IndexError
            end
        end
    end.
Proof.
  intros Hn Hu Hv H1 H2.
  destruct (findConIndex_record _ _ _ H1) as (con & c & Hcon & Hc).
  exists con, c. split; [exact Hcon|]. split; [exact Hc|]. cbv zeta.
  destruct n; [| | congruence |];
    cbn [corner_cell corner_edges corner_position corner_diagnostic fst snd] in *.
  - (* Node 0 *)
    set (fr1 := print_fr ("icon1,icon2: " ++ str_of_Z icon1 ++ " " ++ str_of_Z icon2)%string
                  (print_fr ("isurf: " ++ str_of_Z isurf)%string (print_fr "Both False" fr))).
    assert (Hrun : index_cell isurf Nctlu Nctlv 0 0 fr
                   = (fr' <- alias_slave isurf 0 0 icon1 0 fr1 ;;
                      g <- lift (NameError "g_index") (g_index fr') ;;
                      Ok (print_fr ("gindex: " ++ str_of_Z g)%string fr'))).
    { unfold index_cell. cbn [Z.ltb Z.eqb Z.compare andb].
      rewrite ?andb_false_r. cbn [andb].
      rewrite H1. cbn [bind]. rewrite H2. cbn [bind negb andb]. reflexivity. }
    rewrite Hrun.
    pose proof (@alias_slave_cases _ isurf 0 0 icon1 0 fr1 con c Hcon Hc) as Hcases.
    change (pyGeo.surfs (self fr1)) with (pyGeo.surfs (self fr)) in Hcases.
    change (pyGeo.global_coef (self fr1)) with (pyGeo.global_coef (self fr)) in Hcases.
    destruct (getitem (pyGeo.surfs (self fr)) (edge.f1 c)) as [master|e1];
      [|rewrite Hcases; reflexivity].
    destruct (getGlobalIndexEdge master (edge.e1 c) 0 (edge.dir c)) as [g|ex];
      [|rewrite Hcases; reflexivity].
    destruct (getitem (pyGeo.global_coef (self fr)) g) as [en|e3];
      [|rewrite Hcases; reflexivity].
    destruct (sfi <- getitem (pyGeo.surfs (self fr)) isurf ;;
              getitem2 (surf_spline.globalCtlIndex sfi) 0 0) as [old|e4];
      [|rewrite Hcases; reflexivity].
    destruct Hcases as (fr' & Hok & Hcnt & Hgi & Hent & Hlen & Hout & Hidx).
    exists (print_fr ("gindex: " ++ str_of_Z g)%string fr').
    rewrite Hok. cbn [bind]. rewrite Hgi. cbn [lift bind].
    split; [reflexivity|].
    split; [exact Hcnt|]. split; [exact Hent|]. split; [exact Hlen|]. split; [exact Hidx|].
    cbn [print_fr self set_self print write_stdout pyGeo.set_stdout pyGeo.stdout].
    rewrite Hout. subst fr1.
    cbn [print_fr self set_self print write_stdout pyGeo.set_stdout pyGeo.stdout].
    unfold both_false_diagnostic. rewrite <- !app_assoc. reflexivity.
  - (* Node 1 *)
    assert (Hrun : index_cell isurf Nctlu Nctlv (Nctlu - 1) 0 fr
                   = alias_slave isurf (Nctlu - 1) 0 icon1 (Nctlu - 1) fr).
    { unfold index_cell.
      replace (0 <? Nctlu - 1) with true by (symmetry; apply Z.ltb_lt; lia).
      rewrite !Z.ltb_irrefl.
      replace (Nctlu - 1 =? 0) with false by (symmetry; apply Z.eqb_neq; lia).
      rewrite !Z.eqb_refl. cbn [Z.ltb Z.eqb Z.compare andb].
      rewrite ?andb_false_r. cbn [andb].
      rewrite H1. cbn [bind]. rewrite H2. cbn [bind negb andb]. reflexivity. }
    rewrite Hrun.
    pose proof (@alias_slave_cases _ isurf (Nctlu - 1) 0 icon1 (Nctlu - 1) fr con c Hcon Hc)
      as Hcases.
    destruct (getitem (pyGeo.surfs (self fr)) (edge.f1 c)) as [master|e1]; [|exact Hcases].
    destruct (getGlobalIndexEdge master (edge.e1 c) (Nctlu - 1) (edge.dir c)) as [g|ex];
      [|exact Hcases].
    destruct (getitem (pyGeo.global_coef (self fr)) g) as [en|e3]; [|exact Hcases].
    destruct (sfi <- getitem (pyGeo.surfs (self fr)) isurf ;;
              getitem2 (surf_spline.globalCtlIndex sfi) (Nctlu - 1) 0) as [old|e4];
      [|exact Hcases].
    destruct Hcases as (fr' & Hok & Hcnt & Hgi & Hent & Hlen & Hout & Hidx).
    exists fr'. rewrite app_nil_r. auto 10.
  - (* Node 3 *)
    assert (Hrun : index_cell isurf Nctlu Nctlv (Nctlu - 1) (Nctlv - 1) fr
                   = alias_slave isurf (Nctlu - 1) (Nctlv - 1) icon1 (Nctlu - 1) fr).
    { unfold index_cell.
      replace (0 <? Nctlu - 1) with true by (symmetry; apply Z.ltb_lt; lia).
      replace (0 <? Nctlv - 1) with true by (symmetry; apply Z.ltb_lt; lia).
      rewrite !Z.ltb_irrefl.
      replace (Nctlu - 1 =? 0) with false by (symmetry; apply Z.eqb_neq; lia).
      replace (Nctlv - 1 =? 0) with false by (symmetry; apply Z.eqb_neq; lia).
      rewrite !Z.eqb_refl. cbn [Z.ltb Z.eqb Z.compare andb].
      rewrite ?andb_false_r. cbn [andb].
      rewrite H1. cbn [bind]. rewrite H2. cbn [bind negb andb]. reflexivity. }
    rewrite Hrun.
    pose proof (@alias_slave_cases _ isurf (Nctlu - 1) (Nctlv - 1) icon1 (Nctlu - 1) fr con c
                  Hcon Hc) as Hcases.
    destruct (getitem (pyGeo.surfs (self fr)) (edge.f1 c)) as [master|e1]; [|exact Hcases].
    destruct (getGlobalIndexEdge master (edge.e1 c) (Nctlu - 1) (edge.dir c)) as [g|ex];
      [|exact Hcases].
    destruct (getitem (pyGeo.global_coef (self fr)) g) as [en|e3]; [|exact Hcases].
    destruct (sfi <- getitem (pyGeo.surfs (self fr)) isurf ;;
              getitem2 (surf_spline.globalCtlIndex sfi) (Nctlu - 1) (Nctlv - 1)) as [old|e4];
      [|exact Hcases].
    destruct Hcases as (fr' & Hok & Hcnt & Hgi & Hent & Hlen & Hout & Hidx).
    exists fr'. rewrite app_nil_r. auto 10.
Qed.

Lemma corner_both_slaves_aliased_witness :
  (exists con c,
     pyGeo.con (self frame_at_patch_3) = Some con /\ getitem con 2 = Ok c /\
     let i := fst (corner_cell 4 4 Node0) in
     let j := snd (corner_cell 4 4 Node0) in
     match getitem (pyGeo.surfs (self frame_at_patch_3)) (edge.f1 c) with
     | Raise _ => index_cell 3 4 4 i j frame_at_patch_3 = Raise IndexError
     | Ok master =>
         match getGlobalIndexEdge master (edge.e1 c) (corner_position 4 Node0) (edge.dir c) with
         | Raise ex => index_cell 3 4 4 i j frame_at_patch_3 = Raise ex
         | Ok g =>
             match getitem (pyGeo.global_coef (self frame_at_patch_3)) g,
                   (sfi <- getitem (pyGeo.surfs (self frame_at_patch_3)) 3 ;;
                    getitem2 (surf_spline.globalCtlIndex sfi) i j) with
             | Ok en, Ok _ =>
                 exists fr',
                   index_cell 3 4 4 i j frame_at_patch_3 = Ok fr' /\
                   counter fr' = counter frame_at_patch_3 /\
                   getitem (pyGeo.global_coef (self fr')) g = Ok (en ++ [(3, i, j)]) /\
                   List.length (pyGeo.global_coef (self fr'))
                   = List.length (pyGeo.global_coef (self frame_at_patch_3)) /\
                   (exists sfi',
                       getitem (pyGeo.surfs (self fr')) 3 = Ok sfi' /\
                       getitem2 (surf_spline.globalCtlIndex sfi') i j = Ok g) /\
                   pyGeo.stdout (self fr')
                   = pyGeo.stdout (self frame_at_patch_3) ++ corner_diagnostic Node0 3 2 3 g
             | _, _ => index_cell 3 4 4 i j frame_at_patch_3 = Raise IndexError
             end
         end
     end) /\
  (exists fr', index_cell 3 4 4 0 0 frame_at_patch_3 = Ok fr' /\
               getitem (pyGeo.global_coef (self fr')) 15
               = Ok [(0, 3, 3); (1, 0, 3); (2, 3, 0); (3, 0, 0)]) /\
  (exists con c,
     pyGeo.con (self slave_first_frame) = Some con /\ getitem con 0 = Ok c /\
     let i := fst (corner_cell 4 4 Node0) in
     let j := snd (corner_cell 4 4 Node0) in
     match getitem (pyGeo.surfs (self slave_first_frame)) (edge.f1 c) with
     | Raise _ => index_cell 0 4 4 i j slave_first_frame = Raise IndexError
     | Ok master =>
         match getGlobalIndexEdge master (edge.e1 c) (corner_position 4 Node0) (edge.dir c) with
         | Raise ex => index_cell 0 4 4 i j slave_first_frame = Raise ex
         | Ok g =>
             match getitem (pyGeo.global_coef (self slave_first_frame)) g,
                   (sfi <- getitem (pyGeo.surfs (self slave_first_frame)) 0 ;;
                    getitem2 (surf_spline.globalCtlIndex sfi) i j) with
             | Ok en, Ok _ =>
                 exists fr',
                   index_cell 0 4 4 i j slave_first_frame = Ok fr' /\
                   counter fr' = counter slave_first_frame /\
                   getitem (pyGeo.global_coef (self fr')) g = Ok (en ++ [(0, i, j)]) /\
                   List.length (pyGeo.global_coef (self fr'))
                   = List.length (pyGeo.global_coef (self slave_first_frame)) /\
                   (exists sfi',
                       getitem (pyGeo.surfs (self fr')) 0 = Ok sfi' /\
                       getitem2 (surf_spline.globalCtlIndex sfi') i j = Ok g) /\
                   pyGeo.stdout (self fr')
                   = pyGeo.stdout (self slave_first_frame) ++ corner_diagnostic Node0 0 0 1 g
             | _, _ => index_cell 0 4 4 i j slave_first_frame = Raise IndexError
             end
         end
     end) /\
  index_cell 0 4 4 0 0 slave_first_frame = Raise IndexError /\
  _setEdgeConnectivity slave_first = Raise IndexError.
Proof.
  split; [|split; [|split; [|split]]].
  - apply (@corner_both_slaves_aliased spec_model Node0 3 4 4 2 3 frame_at_patch_3).
    + discriminate.
    + lia.
    + lia.
    + vm_compute; reflexivity.
    + vm_compute; reflexivity.
  - eexists. split; vm_compute; reflexivity.
  - apply (@corner_both_slaves_aliased spec_model Node0 0 4 4 0 1 slave_first_frame).
    + discriminate.
    + lia.
    + lia.
    + vm_compute; reflexivity.
    + vm_compute; reflexivity.
  - vm_compute; reflexivity.
  - vm_compute; reflexivity.
Defined.

(** ** Overwriting an existing connectivity *)

(** C7, as stated, fails: with connectivity present and ["1"] typed, both
    operations run and replace it. *)
Lemma overwrite_not_refused :
  ~ refuses_to_overwrite (fun self => calcEdgeConnectivity self tol_1e_4 tol_1e_4) /\
  ~ refuses_to_overwrite (fun self => readEdgeConnectivity self "wing.con").
Proof.
  split; intros Hclaim.
  - destruct (Hclaim two_patches_again) as (e & He); [discriminate|].
    vm_compute in He. discriminate He.
  - destruct (Hclaim two_patches_again) as (e & He); [discriminate|].
    vm_compute in He. discriminate He.
Qed.

(** C7, amended.  When connectivity exists, both operations print a warning
    and read one line of standard input: on ["0"] they return and leave the
    object as it is, on any other line they go on exactly as if there were
    no connectivity, and at end of input they raise [EOFError]. *)
Theorem overwrite_gated_by_prompt `{Externals}
    (self : pyGeo.obj) (c : list edge.obj) (node_tol edge_tol : Qc) (file_name : string) :
  pyGeo.con self = Some c ->
  match pyGeo.stdin self with
  | [] =>
      calcEdgeConnectivity self node_tol edge_tol = Raise EOFError /\
      readEdgeConnectivity self file_name = Raise EOFError
  | ans :: rest =>
      if String.eqb ans "0" then
        calcEdgeConnectivity self node_tol edge_tol
        = Ok (asked overwrite_warning_calc rest self) /\
        readEdgeConnectivity self file_name
        = Ok (asked overwrite_warning_read rest self)
      else
        calcEdgeConnectivity self node_tol edge_tol
        = calcEdgeConnectivity (pyGeo.set_con None (asked overwrite_warning_calc rest self))
            node_tol edge_tol /\
        readEdgeConnectivity self file_name
        = readEdgeConnectivity (pyGeo.set_con None (asked overwrite_warning_read rest self))
            file_name
  end.
Proof.
  intros Hcon. unfold calcEdgeConnectivity, readEdgeConnectivity, raw_input.
  rewrite Hcon. cbn [pyGeo.stdin print write_stdout pyGeo.set_stdout].
  destruct (pyGeo.stdin self) as [|ans rest]; [split; reflexivity|].
  cbn [bind]. destruct (String.eqb ans "0"); split; reflexivity.
Qed.

Lemma overwrite_gated_by_prompt_witness :
  calcEdgeConnectivity two_patches_again tol_1e_4 tol_1e_4
  = calcEdgeConnectivity
      (pyGeo.set_con None (asked overwrite_warning_calc [] two_patches_again))
      tol_1e_4 tol_1e_4 /\
  readEdgeConnectivity two_patches_again "wing.con"
  = readEdgeConnectivity
      (pyGeo.set_con None (asked overwrite_warning_read [] two_patches_again)) "wing.con".
Proof.
  exact (@overwrite_gated_by_prompt spec_model two_patches_again [] tol_1e_4 tol_1e_4
           "wing.con" eq_refl).
Defined.

(** ** Text of a table row: printing and reading back *)

Lemma all_chars_uint (d : uint) : all_chars is_field_char (NilEmpty.string_of_uint d) = true.
Proof. induction d; simpl; auto. Qed.

Lemma all_chars_str_of_Z (z : Z) : all_chars is_field_char (str_of_Z z) = true.
Proof.
  unfold str_of_Z, NilZero.string_of_int, NilZero.string_of_uint.
  destruct (Z.to_int z) as [d|d]; destruct d; try reflexivity;
    try apply (all_chars_uint (_ _)); simpl; apply all_chars_uint.
Qed.

Lemma str_of_Z_nonempty (z : Z) : str_of_Z z <> "".
Proof.
  unfold str_of_Z, NilZero.string_of_int, NilZero.string_of_uint.
  destruct (Z.to_int z) as [d|d]; destruct d; discriminate.
Qed.

Lemma to_int_not_nil (z : Z) : Z.to_int z <> Pos Nil /\ Z.to_int z <> Neg Nil.
Proof.
  destruct z; simpl; split; try discriminate; intros [= E];
    now apply Unsigned.to_uint_nonnil in E.
Qed.

(** [int(str(z)) == z] *)
Lemma int_str_of_Z (z : Z) : int_ (str_of_Z z) = Ok z.
Proof.
  assert (Hi : NilZero.int_of_string (str_of_Z z) = Some (Z.to_int z)).
  { destruct (to_int_not_nil z). now apply NilZero.isi. }
  pose proof (all_chars_str_of_Z z) as Hc.
  unfold int_. destruct (str_of_Z z) as [|c s] eqn:E.
  - rewrite Hi. simpl. now rewrite of_to.
  - destruct c as [[|] [|] [|] [|] [|] [|] [|] [|]];
      try (rewrite Hi; simpl; now rewrite of_to).
    simpl in Hc. discriminate Hc.
Qed.

Lemma field_char_not_space (c : ascii) :
  is_field_char c = true -> isspace c = false /\ Ascii.eqb c "|" = false.
Proof.
  destruct c as [[|] [|] [|] [|] [|] [|] [|] [|]]; simpl; intros E;
    (discriminate E || (split; reflexivity)).
Qed.

Lemma append_assoc (a b c : string) : ((a ++ b) ++ c = a ++ (b ++ c))%string.
Proof. induction a as [|x a IH]; simpl; [reflexivity|now rewrite IH]. Qed.

Lemma append_empty_r (a : string) : (a ++ "" = a)%string.
Proof. induction a as [|x a IH]; simpl; [reflexivity|now rewrite IH]. Qed.

Lemma replace_app (a b : ascii) (s1 s2 : string) :
  replace a b (s1 ++ s2)%string = (replace a b s1 ++ replace a b s2)%string.
Proof. induction s1 as [|c s1 IH]; simpl; [reflexivity|now rewrite IH]. Qed.

Lemma replace_word (w : string) :
  all_chars is_field_char w = true -> replace "|" " " w = w.
Proof.
  induction w as [|c w IH]; simpl; [reflexivity|].
  intros E. apply andb_true_iff in E. destruct E as [Ec Ew].
  apply field_char_not_space in Ec. destruct Ec as [_ Ec].
  rewrite Ec, IH; auto.
Qed.

Lemma replace_spaces (k : nat) : replace "|" " " (spaces k) = spaces k.
Proof. induction k as [|k IH]; simpl; [reflexivity|now rewrite IH]. Qed.

Lemma replace_fmt_3d (z : Z) : replace "|" " " (fmt_3d z) = fmt_3d z.
Proof.
  unfold fmt_3d. rewrite replace_app, replace_spaces, replace_word; [reflexivity|].
  apply all_chars_str_of_Z.
Qed.

Lemma split_from_word (w s tok : string) :
  all_chars is_field_char w = true ->
  split_from (w ++ s)%string tok = split_from s (tok ++ w)%string.
Proof.
  revert tok. induction w as [|c w IH]; simpl; intros tok E.
  - now rewrite append_empty_r.
  - apply andb_true_iff in E. destruct E as [Ec Ew].
    apply field_char_not_space in Ec. destruct Ec as [Ec _].
    rewrite Ec, IH by exact Ew. rewrite append_assoc. reflexivity.
Qed.

Lemma split_from_spaces (k : nat) (s : string) :
  split_from (spaces k ++ s)%string "" = split_from s "".
Proof. induction k as [|k IH]; simpl; auto. Qed.

Lemma split_from_blank (b s : string) :
  all_chars is_blank b = true ->
  split_from (replace "|" " " b ++ s)%string "" = split_from s "".
Proof.
  induction b as [|c b IH]; simpl; intros E; [reflexivity|].
  apply andb_true_iff in E. destruct E as [Ec Eb].
  unfold is_blank in Ec. destruct (Ascii.eqb c "|") eqn:Ebar.
  - simpl. now apply IH.
  - rewrite orb_false_r in Ec. rewrite Ec. simpl. now apply IH.
Qed.

(** One printed field and the text after it are read back as the number. *)
Lemma split_from_field (z : Z) (sep rest : string) :
  sep <> "" -> all_chars is_blank sep = true ->
  split_from (replace "|" " " (fmt_3d z ++ sep) ++ rest)%string ""
  = str_of_Z z :: split_from rest "".
Proof.
  intros Hne Hb. unfold fmt_3d.
  rewrite !replace_app, replace_spaces, replace_word by apply all_chars_str_of_Z.
  rewrite !append_assoc, split_from_spaces.
  rewrite split_from_word by apply all_chars_str_of_Z.
  destruct sep as [|c sep]; [congruence|].
  simpl in Hb. apply andb_true_iff in Hb. destruct Hb as [Hc Hb].
  assert (Hsp : isspace (if Ascii.eqb c "|" then " "%char else c) = true).
  { unfold is_blank in Hc. destruct (Ascii.eqb c "|"); [reflexivity|].
    now rewrite orb_false_r in Hc. }
  cbn [replace String.append split_from]. rewrite Hsp.
  destruct (String.eqb (str_of_Z z) "") eqn:E.
  - apply String.eqb_eq in E. now apply str_of_Z_nonempty in E.
  - f_equal. now apply split_from_blank.
Qed.

Lemma split_fields_text (l : list (Z * string)) :
  Forall (fun p => snd p <> "" /\ all_chars is_blank (snd p) = true) l ->
  split (replace "|" " " (fields_text l)) = map (fun p => str_of_Z (fst p)) l.
Proof.
  unfold split. induction 1 as [|[z sep] l [Hne Hb] Hl IH]; [reflexivity|].
  cbn [fields_text map fst snd] in *.
  rewrite <- append_assoc, replace_app, split_from_field by assumption.
  now rewrite IH.
Qed.

(** The fields of a row, as [edge.__init__] sees them after the bars are
    gone. *)
Lemma split_row (a0 a1 a2 a3 a4 a5 a6 a7 a8 a9 a10 : Z) :
  split (replace "|" " " (row_format a0 a1 a2 a3 a4 a5 a6 a7 a8 a9 a10))
  = map str_of_Z [a0; a1; a2; a3; a4; a5; a6; a7; a8; a9; a10].
Proof.
  unfold row_format. rewrite split_fields_text; [reflexivity|].
  repeat (constructor; [split; [discriminate|reflexivity]|]). constructor.
Qed.

(** What [edge.__init__] makes of a printed row. *)
Lemma edge_init_row (i f1 e1 type dof cont dir dg Nctl f2 e2 : Z) :
  edge_init (replace "|" " " (row_format i f1 e1 type dof cont dir dg Nctl f2 e2))
  = Ok (if type =? 0
        then edge.mk type f1 e1 dg Nctl dof (-1) 1 (-1) (-1)
        else edge.mk type f1 e1 dg Nctl 7 cont dir f2 e2).
Proof.
  unfold edge_init. rewrite split_row.
  set (aux := map str_of_Z [i; f1; e1; type; dof; cont; dir; dg; Nctl; f2; e2]).
  assert (G1 : getitem aux 1 = Ok (str_of_Z f1)) by reflexivity.
  assert (G2 : getitem aux 2 = Ok (str_of_Z e1)) by reflexivity.
  assert (G3 : getitem aux 3 = Ok (str_of_Z type)) by reflexivity.
  assert (G4 : getitem aux 4 = Ok (str_of_Z dof)) by reflexivity.
  assert (G5 : getitem aux 5 = Ok (str_of_Z cont)) by reflexivity.
  assert (G6 : getitem aux 6 = Ok (str_of_Z dir)) by reflexivity.
  assert (G7 : getitem aux 7 = Ok (str_of_Z dg)) by reflexivity.
  assert (G8 : getitem aux 8 = Ok (str_of_Z Nctl)) by reflexivity.
  assert (G9 : getitem aux 9 = Ok (str_of_Z f2)) by reflexivity.
  assert (G10 : getitem aux 10 = Ok (str_of_Z e2)) by reflexivity.
  clearbody aux.
  rewrite G1, G2, G3, G4, G5, G6, G7, G8, G9, G10.
  cbn [bind].
  rewrite !int_str_of_Z.
  cbn [bind].
  destruct (type =? 0); cbn [bind]; reflexivity.
Qed.
(** Writing a record and reading the row back gives the record again. *)
Lemma edge_init_write_info (c : edge.obj) (i : Z) :
  built_by_init c ->
  edge_init (replace "|" " " (write_info c i)) = Ok c.
Proof.
  unfold built_by_init, write_info. intros Hc. rewrite edge_init_row.
  destruct c as [ty f1 e1 dg nc dof cont dir f2 e2]; simpl in *.
  destruct (ty =? 0).
  - destruct Hc as (-> & -> & -> & ->). reflexivity.
  - subst. reflexivity.
Qed.

(** Every record comes out of [edge.__init__] in this form. *)
Lemma edge_init_built (s : string) (c : edge.obj) :
  edge_init s = Ok c -> built_by_init c.
Proof.
  unfold edge_init, built_by_init. intros H. inv_ok.
  destruct (a =? 0) eqn:E; inv_ok; simpl; rewrite E; auto.
Qed.

(** ** Text of a table file: lines *)

Lemma all_chars_app (p : ascii -> bool) (a b : string) :
  all_chars p (a ++ b)%string = all_chars p a && all_chars p b.
Proof.
  induction a as [|c a IH]; simpl; [reflexivity|]. now rewrite IH, andb_assoc.
Qed.

Lemma all_chars_impl (p q : ascii -> bool) (s : string) :
  (forall c, p c = true -> q c = true) -> all_chars p s = true -> all_chars q s = true.
Proof.
  intros Hpq. induction s as [|c s IH]; simpl; [reflexivity|].
  rewrite !andb_true_iff. intros [Hc Hs]. auto.
Qed.

Lemma all_chars_spaces (k : nat) : all_chars not_newline (spaces k) = true.
Proof. induction k; simpl; auto. Qed.

Lemma field_char_not_newline (c : ascii) : is_field_char c = true -> not_newline c = true.
Proof.
  destruct c as [[|] [|] [|] [|] [|] [|] [|] [|]]; simpl; intros E;
    (discriminate E || reflexivity).
Qed.

Lemma all_chars_fmt_3d (z : Z) : all_chars not_newline (fmt_3d z) = true.
Proof.
  unfold fmt_3d. rewrite all_chars_app, all_chars_spaces. simpl.
  eapply all_chars_impl; [apply field_char_not_newline | apply all_chars_str_of_Z].
Qed.

Lemma all_chars_fields_text (l : list (Z * string)) :
  Forall (fun p => all_chars not_newline (snd p) = true) l ->
  all_chars not_newline (fields_text l) = true.
Proof.
  induction 1 as [|[z sep] l Hs Hl IH]; [reflexivity|].
  cbn [fields_text snd] in *. now rewrite !all_chars_app, all_chars_fmt_3d, Hs, IH.
Qed.

Lemma row_format_is_line (a0 a1 a2 a3 a4 a5 a6 a7 a8 a9 a10 : Z) :
  is_line (row_format a0 a1 a2 a3 a4 a5 a6 a7 a8 a9 a10).
Proof.
  exists (fields_text
            [(a0, "        |"); (a1, "     "); (a2, "    |"); (a3, "   | "); (a4, "  |  ");
             (a5, "       | "); (a6, "  | "); (a7, "           | "); (a8, "  | "); (a9, "     ");
             (a10, "      |")]).
  split.
  - unfold row_format. cbn [fields_text]. rewrite !append_assoc, !append_empty_r. reflexivity.
  - apply all_chars_fields_text. repeat (constructor; [reflexivity|]). constructor.
Qed.

Lemma lines_from_word (w s cur : string) :
  all_chars not_newline w = true ->
  lines_from (w ++ s)%string cur = lines_from s (cur ++ w)%string.
Proof.
  revert cur. induction w as [|c w IH]; simpl; intros cur E.
  - now rewrite append_empty_r.
  - apply andb_true_iff in E. destruct E as [Ec Ew].
    unfold not_newline in Ec. apply negb_true_iff in Ec. rewrite Ec.
    rewrite IH by exact Ew. now rewrite append_assoc.
Qed.

Lemma lines_from_line (r s : string) :
  is_line r -> lines_from (r ++ s)%string "" = r :: lines_from s "".
Proof.
  intros (w & -> & Hw). rewrite append_assoc, lines_from_word by exact Hw.
  simpl. rewrite ?Ascii.eqb_refl. reflexivity.
Qed.

Lemma concat_empty_cons (x : string) (xs : list string) :
  String.concat "" (x :: xs) = (x ++ String.concat "" xs)%string.
Proof. destruct xs; simpl; [now rewrite append_empty_r | reflexivity]. Qed.

(** Lines that were written one after the other are read back one by one. *)
Lemma readlines_concat (rows : list string) :
  Forall is_line rows -> readlines (String.concat "" rows) = rows.
Proof.
  unfold readlines. induction 1 as [|r rows Hr Hrows IH]; [reflexivity|].
  rewrite concat_empty_cons, lines_from_line by exact Hr. now rewrite IH.
Qed.

Lemma table_header_is_line : is_line (table_header ++ nl)%string.
Proof. exists table_header. split; reflexivity. Qed.

Lemma write_rows_are_lines (l : list edge.obj) : Forall is_line (write_rows l).
Proof.
  unfold write_rows. apply Forall_forall. intros r Hr.
  apply in_map_iff in Hr. destruct Hr as ([i c] & <- & _).
  apply row_format_is_line.
Qed.

Lemma xrange2_cons (a b : Z) : a < b -> xrange2 a b = a :: xrange2 (a + 1) b.
Proof.
  intros Hab. unfold xrange2.
  replace (Z.to_nat (b - a)) with (S (Z.to_nat (b - (a + 1)))) by lia.
  cbn [seq map]. f_equal; [lia|].
  rewrite <- seq_shift, map_map. apply map_ext. intros k. lia.
Qed.

Lemma xrange2_nil (a b : Z) : b <= a -> xrange2 a b = [].
Proof. intros Hab. unfold xrange2. now replace (Z.to_nat (b - a)) with 0%nat by lia. Qed.

(** The loop of [readEdgeConnectivity] over the lines after [pre]. *)
Lemma read_rows_loop {A} (f : string -> result A) (ls : list string) (cs : list A) :
  Forall2 (fun l c => f l = Ok c) ls cs ->
  forall (pre : list string) (acc : list A),
    for_ (xrange2 (Z.of_nat (List.length pre)) (Z.of_nat (List.length (pre ++ ls))))
      (fun i con => line <- getitem (pre ++ ls) i ;; c <- f line ;; Ok (con ++ [c])) acc
    = Ok (acc ++ cs).
Proof.
  induction 1 as [|l c ls cs Hl Hls IH]; intros pre acc.
  - rewrite app_nil_r, xrange2_nil by lia. simpl. now rewrite app_nil_r.
  - rewrite xrange2_cons by (rewrite length_app; simpl; lia).
    cbn [for_]. rewrite getitem_nonneg by (rewrite length_app; simpl; lia).
    rewrite Nat2Z.id, nth_error_app2, Nat.sub_diag by lia. cbn [nth_error lift bind].
    rewrite Hl. cbn [bind].
    replace (pre ++ l :: ls) with ((pre ++ [l]) ++ ls) by (now rewrite <- app_assoc).
    replace (Z.of_nat (List.length pre) + 1) with (Z.of_nat (List.length (pre ++ [l])))
      by (rewrite length_app; simpl; lia).
    rewrite IH. now rewrite <- app_assoc.
Qed.

Lemma rows_read_back (idx : list Z) (c : list edge.obj) :
  Forall built_by_init c ->
  List.length idx = List.length c ->
  Forall2 (fun l r => edge_init l = Ok r)
    (map (replace "|" " ") (map (fun p => write_info (snd p) (fst p)) (combine idx c))) c.
Proof.
  intros Hc. revert idx. induction Hc as [|r c Hr Hc IH]; intros [|i idx] Hlen;
    simpl in *; try discriminate; constructor.
  - now apply edge_init_write_info.
  - apply IH. congruence.
Qed.

Lemma length_xrange (n : Z) : List.length (xrange n) = Z.to_nat n.
Proof. unfold xrange. now rewrite length_map, length_seq. Qed.

(** The table that [writeEdgeConnectivity] writes is read back, record by
    record, as the list it was written from. *)
Lemma table_read_back (c : list edge.obj) :
  Forall built_by_init c ->
  let file := map (replace "|" " ")
                (readlines ((table_header ++ nl) ++ String.concat "" (write_rows c))%string) in
  for_ (xrange2 1 (Z.of_nat (List.length file)))
    (fun i con => line <- getitem file i ;; r <- edge_init line ;; Ok (con ++ [r])) []
  = Ok c.
Proof.
  intros Hc. cbv zeta. unfold readlines.
  rewrite lines_from_line by apply table_header_is_line.
  fold (readlines (String.concat "" (write_rows c))).
  rewrite readlines_concat by apply write_rows_are_lines.
  cbn [map].
  apply (read_rows_loop edge_init
           (ls := map (replace "|" " ") (write_rows c)) (cs := c))
    with (pre := [replace "|" " " (table_header ++ nl)%string]) (acc := []).
  unfold write_rows. apply rows_read_back; [exact Hc|].
  rewrite length_xrange. lia.
Qed.

(** ** Global indexing does not depend on what was printed before *)

Lemma agree_bind {A B} (R : A -> A -> Prop) (S : B -> B -> Prop)
    (m m' : result A) (k k' : A -> result B) :
  agree R m m' ->
  (forall a a', R a a' -> agree S (k a) (k' a')) ->
  agree S (bind m k) (bind m' k').
Proof.
  destruct m, m'; simpl; intros Hm Hk; try contradiction; auto.
Qed.

Lemma agree_eq {A} (R : A -> A -> Prop) (r : result A) :
  (forall a, R a a) -> agree R r r.
Proof. destruct r; simpl; auto. Qed.

Lemma agree_for {A S} (R : S -> S -> Prop) (l : list A) (body body' : A -> S -> result S) :
  (forall x s s', R s s' -> agree R (body x s) (body' x s')) ->
  forall s s', R s s' -> agree R (for_ l body s) (for_ l body' s').
Proof.
  intros Hb. induction l as [|x l IH]; intros s s' Hs; simpl; [exact Hs|].
  eapply agree_bind; [apply Hb; exact Hs|]. intros a a' Ha. now apply IH.
Qed.

Ltac obj_fields H :=
  unfold same_object in H;
  pose proof (f_equal pyGeo.ref_axis H);
  pose proof (f_equal pyGeo.ref_axis_con H);
  pose proof (f_equal pyGeo.DV_listGlobal H);
  pose proof (f_equal pyGeo.DV_listLocal H);
  pose proof (f_equal pyGeo.DV_namesGlobal H);
  pose proof (f_equal pyGeo.DV_namesLocal H);
  pose proof (f_equal pyGeo.J1 H);
  pose proof (f_equal pyGeo.con H);
  pose proof (f_equal pyGeo.surfs H);
  pose proof (f_equal pyGeo.nSurf H);
  pose proof (f_equal pyGeo.global_coef H);
  pose proof (f_equal pyGeo.coef_sizes H);
  pose proof (f_equal pyGeo.coef_shapes H);
  pose proof (f_equal pyGeo.coef H);
  pose proof (f_equal pyGeo.slices H);
  pose proof (f_equal pyGeo.Ncoef H);
  cbn [no_env pyGeo.set_stdout pyGeo.set_stdin pyGeo.set_files pyGeo.ref_axis pyGeo.ref_axis_con pyGeo.DV_listGlobal
       pyGeo.DV_listLocal pyGeo.DV_namesGlobal pyGeo.DV_namesLocal pyGeo.J1 pyGeo.con
       pyGeo.surfs pyGeo.nSurf pyGeo.global_coef pyGeo.coef_sizes pyGeo.coef_shapes
       pyGeo.coef pyGeo.slices pyGeo.Ncoef pyGeo.stdin pyGeo.files] in *.

Lemma same_object_intro (o o' : pyGeo.obj) :
  pyGeo.ref_axis o = pyGeo.ref_axis o' ->
  pyGeo.ref_axis_con o = pyGeo.ref_axis_con o' ->
  pyGeo.DV_listGlobal o = pyGeo.DV_listGlobal o' ->
  pyGeo.DV_listLocal o = pyGeo.DV_listLocal o' ->
  pyGeo.DV_namesGlobal o = pyGeo.DV_namesGlobal o' ->
  pyGeo.DV_namesLocal o = pyGeo.DV_namesLocal o' ->
  pyGeo.J1 o = pyGeo.J1 o' ->
  pyGeo.con o = pyGeo.con o' ->
  pyGeo.surfs o = pyGeo.surfs o' ->
  pyGeo.nSurf o = pyGeo.nSurf o' ->
  pyGeo.global_coef o = pyGeo.global_coef o' ->
  pyGeo.coef_sizes o = pyGeo.coef_sizes o' ->
  pyGeo.coef_shapes o = pyGeo.coef_shapes o' ->
  pyGeo.coef o = pyGeo.coef o' ->
  pyGeo.slices o = pyGeo.slices o' ->
  pyGeo.Ncoef o = pyGeo.Ncoef o' ->
  same_object o o'.
Proof.
  destruct o, o'. unfold same_object, no_env. cbn. intros. subst. reflexivity.
Qed.

Ltac same_object_tac :=
  apply same_object_intro;
  cbn [asked print write_stdout pyGeo.set_stdout pyGeo.set_stdin pyGeo.set_files
       pyGeo.set_global_coef pyGeo.set_surfs pyGeo.set_coef_sizes pyGeo.set_coef_shapes
       pyGeo.set_coef pyGeo.set_slices pyGeo.set_Ncoef pyGeo.set_con
       pyGeo.ref_axis pyGeo.ref_axis_con pyGeo.DV_listGlobal
       pyGeo.DV_listLocal pyGeo.DV_namesGlobal pyGeo.DV_namesLocal pyGeo.J1 pyGeo.con
       pyGeo.surfs pyGeo.nSurf pyGeo.global_coef pyGeo.coef_sizes pyGeo.coef_shapes
       pyGeo.coef pyGeo.slices pyGeo.Ncoef pyGeo.stdin pyGeo.stdout pyGeo.files];
  (assumption || congruence).

Lemma same_object_refl (o : pyGeo.obj) : same_object o o.
Proof. reflexivity. Qed.

Lemma same_object_print_l (line : string) (o o' : pyGeo.obj) :
  same_object o o' -> same_object (print line o) o'.
Proof. exact (fun H => H). Qed.

Lemma same_object_print_r (line : string) (o o' : pyGeo.obj) :
  same_object o o' -> same_object o (print line o').
Proof. exact (fun H => H). Qed.

Lemma same_findConIndex (o o' : pyGeo.obj) (isurf e : Z) :
  same_object o o' -> _findConIndex o isurf e = _findConIndex o' isurf e.
Proof.
  intros H. obj_fields H. unfold _findConIndex.
  match goal with E : pyGeo.con o = _ |- _ => now rewrite E end.
Qed.

Lemma same_set_globalCtlIndex (o o' : pyGeo.obj) (isurf i j g : Z) :
  same_object o o' ->
  agree same_object (set_globalCtlIndex o isurf i j g) (set_globalCtlIndex o' isurf i j g).
Proof.
  intros H. obj_fields H. unfold set_globalCtlIndex.
  match goal with E : pyGeo.surfs o = _ |- _ => rewrite <- E end.
  destruct (getitem (pyGeo.surfs o) isurf) as [sf|]; cbn [bind agree]; [|reflexivity].
  destruct (setitem2 (surf_spline.globalCtlIndex sf) i j g) as [a|]; cbn [bind agree];
    [|reflexivity].
  destruct (setitem (pyGeo.surfs o) isurf (surf_spline.set_globalCtlIndex a sf));
    cbn [bind agree]; [|reflexivity].
  same_object_tac.
Qed.

Lemma same_alloc_master (isurf i j : Z) (fr fr' : frame) :
  same_frame fr fr' ->
  agree same_frame (alloc_master isurf i j fr) (alloc_master isurf i j fr').
Proof.
  intros (Ho & Hc & Hp & Hg & Hm). unfold alloc_master. rewrite <- Hc, <- Hp, <- Hm.
  eapply agree_bind.
  - apply same_set_globalCtlIndex. obj_fields Ho. same_object_tac.
  - intros o1 o1' Ho1.
    destruct (setitem2 (master_bool_array fr) i j true); cbn [bind agree]; [|reflexivity].
    repeat split; auto.
Qed.

Lemma same_alias_to `{Externals} (isurf i j pid e t d : Z) (fr fr' : frame) :
  same_frame fr fr' ->
  agree same_frame (alias_to isurf i j pid e t d fr) (alias_to isurf i j pid e t d fr').
Proof.
  intros (Ho & Hc & Hp & Hg & Hm). unfold alias_to. rewrite <- Hc, <- Hp, <- Hm.
  pose proof Ho as Ho'. obj_fields Ho'.
  match goal with E : pyGeo.surfs (self fr) = _ |- _ => rewrite <- E end.
  match goal with E : pyGeo.global_coef (self fr) = _ |- _ => rewrite <- E end.
  destruct (getitem (pyGeo.surfs (self fr)) pid) as [sf|]; cbn [bind agree]; [|reflexivity].
  destruct (getGlobalIndexEdge sf e t d) as [g|]; cbn [bind agree]; [|reflexivity].
  destruct (getitem (pyGeo.global_coef (self fr)) g) as [en|]; cbn [bind agree]; [|reflexivity].
  destruct (setitem (pyGeo.global_coef (self fr)) g (en ++ [(isurf, i, j)])) as [gc|];
    cbn [bind agree]; [|reflexivity].
  eapply agree_bind.
  - apply same_set_globalCtlIndex. same_object_tac.
  - intros o1 o1' Ho1. repeat split; auto.
Qed.

Lemma same_alias_slave `{Externals} (isurf i j icon t : Z) (fr fr' : frame) :
  same_frame fr fr' ->
  agree same_frame (alias_slave isurf i j icon t fr) (alias_slave isurf i j icon t fr').
Proof.
  intros Hf. pose proof Hf as (Ho & Hc & Hp & Hg & Hm). unfold alias_slave.
  pose proof Ho as Ho'. obj_fields Ho'.
  match goal with E : pyGeo.con (self fr) = _ |- _ => rewrite <- E end.
  destruct (pyGeo.con (self fr)) as [l|]; cbn [lift bind agree]; [|reflexivity].
  destruct (getitem l icon) as [c|]; cbn [bind agree]; [|reflexivity].
  apply same_alias_to. repeat split; auto.
Qed.

Lemma same_alias_slave_patchiD `{Externals} (isurf i j icon t : Z) (fr fr' : frame) :
  same_frame fr fr' ->
  agree same_frame (alias_slave_patchiD isurf i j icon t fr)
    (alias_slave_patchiD isurf i j icon t fr').
Proof.
  intros Hf. pose proof Hf as (Ho & Hc & Hp & Hg & Hm). unfold alias_slave_patchiD.
  pose proof Ho as Ho'. obj_fields Ho'.
  match goal with E : pyGeo.con (self fr) = _ |- _ => rewrite <- E end.
  rewrite <- Hp.
  destruct (pyGeo.con (self fr)) as [l|]; cbn [lift bind agree]; [|reflexivity].
  destruct (getitem l icon) as [c|]; cbn [bind agree]; [|reflexivity].
  destruct (patchID fr); cbn [lift bind agree]; [|reflexivity].
  now apply same_alias_to.
Qed.

Lemma same_frame_print (line line' : list string) (fr fr' : frame) :
  same_frame fr fr' ->
  same_frame (fold_left (fun f l => print_fr l f) line fr)
             (fold_left (fun f l => print_fr l f) line' fr').
Proof.
  intros Hf. revert fr Hf. induction line as [|l line IH]; intros fr Hf; simpl.
  - revert fr' Hf. induction line' as [|l' line' IH']; intros fr' Hf; simpl; [exact Hf|].
    apply IH'. exact Hf.
  - apply IH. exact Hf.
Qed.

Lemma same_frame_print_fr (line : string) (fr fr' : frame) :
  same_frame fr fr' -> same_frame (print_fr line fr) (print_fr line fr').
Proof. exact (fun H => H). Qed.

Lemma same_edge_cell `{Externals} (isurf i j e t : Z) (fr fr' : frame) :
  same_frame fr fr' ->
  agree same_frame (edge_cell isurf i j e t fr) (edge_cell isurf i j e t fr').
Proof.
  intros Hf. unfold edge_cell. rewrite <- (same_findConIndex isurf e (proj1 Hf)).
  destruct (_findConIndex (self fr) isurf e) as [[icon [|]]|]; cbn [bind agree];
    [now apply same_alloc_master | now apply same_alias_slave | reflexivity].
Qed.

Lemma same_index_cell `{Externals} (isurf Nctlu Nctlv i j : Z) (fr fr' : frame) :
  same_frame fr fr' ->
  agree same_frame (index_cell isurf Nctlu Nctlv i j fr) (index_cell isurf Nctlu Nctlv i j fr').
Proof.
  intros Hf. unfold index_cell.
  repeat match goal with
  | |- agree _ (if ?b then _ else _) (if ?b then _ else _) => destruct b
  | |- agree _ (alloc_master _ _ _ _) _ => now apply same_alloc_master
  | |- agree _ (edge_cell _ _ _ _ _ _) _ => now apply same_edge_cell
  | |- agree _ (alias_slave _ _ _ _ _ _) _ => now apply same_alias_slave
  | |- agree _ (alias_slave_patchiD _ _ _ _ _ _) _ => now apply same_alias_slave_patchiD
  | |- agree _ (Ok _) (Ok _) => exact Hf
  | |- agree _ (bind (_findConIndex (self fr) ?s ?e) _) _ =>
      rewrite <- (same_findConIndex s e (proj1 Hf));
      destruct (_findConIndex (self fr) s e) as [[? [|]]|]; cbn [bind agree negb andb];
      [ | | reflexivity]
  end.
  - (* Node 0, edge 0 slave only *)
    eapply agree_bind; [apply same_alias_slave; exact Hf|].
    intros a a' Ha. exact Ha.
  - (* Node 0, both slaves: the diagnostic is printed on both sides *)
    eapply agree_bind; [apply same_alias_slave; exact Hf|].
    intros a a' Ha. destruct Ha as (Ho & Hc & Hp & Hg & Hm). rewrite <- Hg.
    destruct (g_index a) eqn:Eg; cbn [lift bind agree]; [|reflexivity].
    repeat split; auto. cbn [print_fr set_self g_index]. congruence.
Qed.

Lemma same_index_surf `{Externals} (isurf : Z) (fr fr' : frame) :
  same_frame fr fr' -> agree same_frame (index_surf isurf fr) (index_surf isurf fr').
Proof.
  intros Hf. pose proof Hf as (Ho & Hc & Hp & Hg & Hm). unfold index_surf.
  pose proof Ho as Ho'. obj_fields Ho'.
  match goal with E : pyGeo.surfs (self fr) = _ |- _ => rewrite <- E end.
  destruct (getitem (pyGeo.surfs (self fr)) isurf) as [sf|]; cbn [bind agree]; [|reflexivity].
  cbn [counter self master_bool_array patchID g_index].
  eapply agree_bind.
  - apply agree_for.
    + intros i s s' Hs. apply agree_for; [|exact Hs].
      intros j t t' Ht. now apply same_index_cell.
    + repeat split; auto.
  - intros a a' (Ho1 & Hc1 & Hp1 & Hg1 & Hm1). rewrite <- Hm1, <- Hc1, <- Hc.
    destruct (getitem (master_bool_array a) 0); cbn [bind agree]; [|reflexivity].
    destruct (getitem (master_bool_array a) (surf_spline.Nctlu sf - 1)); cbn [bind agree];
      [|reflexivity].
    destruct (column (master_bool_array a) 0); cbn [bind agree]; [|reflexivity].
    destruct (column (master_bool_array a) (surf_spline.Nctlv sf - 1)); cbn [bind agree];
      [|reflexivity].
    unfold same_frame, set_self; cbn [self counter patchID g_index master_bool_array].
    repeat split; auto.
    obj_fields Ho1. same_object_tac.
Qed.

Lemma same_fill_coef (o o' : pyGeo.obj) :
  same_object o o' -> agree same_object (fill_coef o) (fill_coef o').
Proof.
  intros Ho. unfold fill_coef.
  replace (pyGeo.global_coef o') with (pyGeo.global_coef o) by (obj_fields Ho; congruence).
  apply agree_for; [|exact Ho].
  intros ii s s' Hs. pose proof Hs as Hs'. obj_fields Hs'.
  match goal with E : pyGeo.global_coef s = _ |- _ => rewrite <- E end.
  match goal with E : pyGeo.surfs s = _ |- _ => rewrite <- E end.
  destruct (getitem (pyGeo.global_coef s) ii) as [en|]; cbn [bind agree]; [|reflexivity].
  destruct (getitem en 0) as [[[p i] j]|]; cbn [bind agree]; [|reflexivity].
  destruct (getitem (pyGeo.surfs s) p) as [sf|]; cbn [bind agree]; [|reflexivity].
  destruct (getitem2 (surf_spline.coef sf) i j); cbn [bind agree]; [|reflexivity].
  same_object_tac.
Qed.

(** Objects that differ only in what was printed are indexed alike. *)
Lemma same_setEdgeConnectivity `{Externals} (o o' : pyGeo.obj) :
  same_object o o' ->
  agree same_object (_setEdgeConnectivity o) (_setEdgeConnectivity o').
Proof.
  intros Ho. unfold _setEdgeConnectivity.
  pose proof Ho as Ho'. obj_fields Ho'.
  match goal with E : pyGeo.con o = _ |- _ => rewrite <- E end.
  destruct (pyGeo.con o) eqn:Econ; cbn [agree]; [|reflexivity].
  cbn [pyGeo.nSurf pyGeo.set_slices pyGeo.set_coef pyGeo.set_coef_shapes pyGeo.set_coef_sizes
       pyGeo.set_global_coef].
  match goal with E : pyGeo.nSurf o = _ |- _ => rewrite <- E end.
  eapply agree_bind.
  - apply agree_for; [intros; now apply same_index_surf|].
    repeat split; auto. cbn [self]. same_object_tac.
  - intros a a' (Ho1 & Hc1 & _). apply same_fill_coef. rewrite <- Hc1.
    obj_fields Ho1. same_object_tac.
Qed.

Lemma same_object_fold_write (rows : list string) (o : pyGeo.obj) :
  same_object (fold_left (fun o row => write_stdout row o) rows o) o.
Proof.
  revert o. induction rows as [|r rows IH]; intros o; simpl; [reflexivity|].
  unfold same_object in *. rewrite IH. reflexivity.
Qed.

Lemma same_object_sym (o o' : pyGeo.obj) : same_object o o' -> same_object o' o.
Proof. unfold same_object. auto. Qed.

Lemma same_object_trans (a b c : pyGeo.obj) :
  same_object a b -> same_object b c -> same_object a c.
Proof. unfold same_object. congruence. Qed.

Lemma printEdgeConnectivity_same (o : pyGeo.obj) (c : list edge.obj) :
  pyGeo.con o = Some c ->
  exists o', printEdgeConnectivity o = Ok o' /\ same_object o' o.
Proof.
  intros Hc. unfold printEdgeConnectivity. rewrite Hc. cbn [lift bind].
  eexists. split; [reflexivity|].
  apply same_object_print_l.
  unfold same_object. rewrite same_object_fold_write. reflexivity.
Qed.

(** ** Writing the connectivity table and reading it back *)

Lemma lookup_file_head (name text : string) (files : list (string * string)) :
  lookup_file ((name, text) :: files) name = Some text.
Proof. simpl. now rewrite String.eqb_refl. Qed.

(** C6.  Let [self] be the object after global indexing of [pre] with the
    table [c], whose records all come from [edge.__init__].  Writing the
    table succeeds and changes nothing but the file; reading that file with
    an object that is as [pre] was, without connectivity, gives an object
    equal to [self] in every attribute: the records with all their fields,
    [globalCtlIndex] of every patch, [global_coef] and [Ncoef]. *)
Theorem connectivity_round_trip `{Externals}
    (pre self : pyGeo.obj) (c : list edge.obj) (file_name : string) :
  _setEdgeConnectivity (pyGeo.set_con (Some c) pre) = Ok self ->
  Forall built_by_init c ->
  exists written,
    writeEdgeConnectivity self file_name = Ok written /\
    same_object written self /\
    forall reader,
      pyGeo.con reader = None ->
      same_object reader (pyGeo.set_con None pre) ->
      lookup_file (pyGeo.files reader) file_name = lookup_file (pyGeo.files written) file_name ->
      exists back,
        readEdgeConnectivity reader file_name = Ok back /\
        pyGeo.con back = Some c /\
        pyGeo.surfs back = pyGeo.surfs self /\
        pyGeo.global_coef back = pyGeo.global_coef self /\
        pyGeo.Ncoef back = pyGeo.Ncoef self /\
        same_object back self.
Proof.
  intros Hrun Hc.
  assert (Hcon : pyGeo.con self = Some c).
  { apply setEdgeConnectivity_indexed in Hrun. destruct Hrun as ((E & _) & _). exact E. }
  unfold writeEdgeConnectivity. rewrite Hcon. cbn [lift bind].
  eexists. split; [reflexivity|]. split; [reflexivity|].
  intros reader Hnone Hsame Hfile.
  cbn [pyGeo.files pyGeo.set_files] in Hfile. rewrite lookup_file_head in Hfile.
  unfold readEdgeConnectivity. rewrite Hnone. cbn [bind].
  cbn [pyGeo.files pyGeo.set_con]. rewrite Hfile. cbn [lift bind].
  rewrite (table_read_back Hc). cbn [bind].
  destruct (@printEdgeConnectivity_same
              (pyGeo.set_con (Some c) (pyGeo.set_con (Some []) reader)) c eq_refl)
    as (printed & Hprint & Hp).
  rewrite Hprint. cbn [bind].
  assert (Hrel : same_object printed (pyGeo.set_con (Some c) pre)).
  { eapply same_object_trans; [exact Hp|]. obj_fields Hsame. same_object_tac. }
  pose proof (same_setEdgeConnectivity Hrel) as Hagree.
  rewrite Hrun in Hagree.
  destruct (_setEdgeConnectivity printed) as [back|]; cbn [agree] in Hagree; [|contradiction].
  exists back. split; [reflexivity|].
  pose proof Hagree as Hf. obj_fields Hf.
  repeat split; congruence || exact Hagree.
Qed.

Lemma connectivity_round_trip_witness :
  exists written,
    writeEdgeConnectivity two_patches_indexed "wing.con" = Ok written /\
    same_object written two_patches_indexed /\
    forall reader,
      pyGeo.con reader = None ->
      same_object reader (pyGeo.set_con None two_patches) ->
      lookup_file (pyGeo.files reader) "wing.con" = lookup_file (pyGeo.files written) "wing.con" ->
      exists back,
        readEdgeConnectivity reader "wing.con" = Ok back /\
        pyGeo.con back = Some two_patches_con /\
        pyGeo.surfs back = pyGeo.surfs two_patches_indexed /\
        pyGeo.global_coef back = pyGeo.global_coef two_patches_indexed /\
        pyGeo.Ncoef back = pyGeo.Ncoef two_patches_indexed /\
        same_object back two_patches_indexed.
Proof.
  apply (@connectivity_round_trip spec_model two_patches two_patches_indexed two_patches_con
           "wing.con").
  - vm_compute. reflexivity.
  - repeat constructor.
Defined.

(** The reader of the witness does read the table back. *)
Lemma two_patches_read_back :
  exists back,
    readEdgeConnectivity two_patches_reader "wing.con" = Ok back /\
    pyGeo.con back = Some two_patches_con /\
    pyGeo.Ncoef back = 42.
Proof. eexists. split; [vm_compute; reflexivity|]. split; vm_compute; reflexivity. Qed.

(** ** Coverage of the edges by the records *)

Lemma three_patches_computed :
  exists o con,
    calcEdgeConnectivity three_patches tol_1e_4 tol_1e_4 = Ok o /\
    pyGeo.con o = Some con /\
    count (references 0 1) con = 2%nat.
Proof. eexists. eexists. split; [|split]; vm_compute; reflexivity. Qed.

(** C8, as stated, fails: where three patches meet along one line, edge 1
    of patch 0 is referenced by two records. *)
Lemma three_patches_not_covered_once : ~ covered_once three_patches tol_1e_4 tol_1e_4.
Proof.
  unfold covered_once. intros Hclaim.
  destruct three_patches_computed as (o & con & Hrun & Hcon & Hcount).
  assert (H1 : 0 <= 0 < pyGeo.nSurf three_patches) by (vm_compute; split; [discriminate|reflexivity]).
  assert (H2 : 0 <= 1 < 4) by lia.
  pose proof (Hclaim o con 0 1 Hrun Hcon H1 H2) as K.
  rewrite Hcount in K. discriminate K.
Qed.

(** *** The driving groups do not change which edges an entry joins *)

Lemma strip_set_nth (edges : list entry) (n : nat) (en : entry) (d : Z) :
  nth_error edges n = Some en ->
  strip (set_nth edges n (set_entry_dg d en)) = strip edges.
Proof.
  unfold strip. intros Hn. rewrite map_set_nth. apply set_nth_same.
  rewrite nth_error_map, Hn. destruct en; reflexivity.
Qed.

Lemma assign_dg_strip (edges edges' : list entry) (k d : Z) :
  assign_dg edges k d = Ok edges' -> strip edges' = strip edges.
Proof.
  unfold assign_dg. intros H. inv_ok.
  apply getitem_Ok in Ha. destruct Ha as (n & Hn & Hnth).
  apply setitem_Ok in H. destruct H as (m & Hm & ->).
  assert (m = n) by congruence. subst. now apply strip_set_nth.
Qed.

Ltac case_if_in H :=
  match type of H with
  | context [if ?b then _ else _] => destruct b eqn:?
  end.

Ltac strip_steps :=
  repeat match goal with
  | K : assign_dg _ _ _ = Ok _ |- _ => apply assign_dg_strip in K
  end.

Lemma propagate_strip (fuel : nat) (edge_list : list (Z * Z)) (nJoined nMirror dg_counter : Z) :
  forall (edges edges' : list entry) (index order : Z),
    propagate fuel edge_list nJoined nMirror dg_counter edges index order = Ok edges' ->
    strip edges' = strip edges.
Proof.
  induction fuel as [|fuel IH]; intros edges edges' index order H; simpl in H; [discriminate|].
  inv_ok. case_if_in H; inv_ok; [reflexivity|]. strip_steps.
  case_if_in H; inv_ok; [assumption|].
  apply IH in H. congruence.
Qed.




(** *** Loops that collect *)

Lemma for_collect {A B} (l : list A) (body : A -> list B -> result (list B))
    (sel : A -> list B) :
  (forall x acc acc', In x l -> body x acc = Ok acc' -> acc' = acc ++ sel x) ->
  forall acc out, for_ l body acc = Ok out -> out = acc ++ flat_map sel l.
Proof.
  intros Hb acc out Hrun.
  apply (for_invariant _ (fun d s => s = acc ++ flat_map sel d)) in Hrun; auto.
  - now rewrite app_nil_r.
  - intros d x t t' Hx -> Hbx. apply Hb in Hbx; [|exact Hx]. subst.
    rewrite flat_map_app. simpl. now rewrite app_nil_r, app_assoc.
Qed.

Lemma flat_map_select {A B} (p : A -> bool) (f : A -> B) (l : list A) :
  flat_map (fun x => if p x then [f x] else []) l = map f (filter p l).
Proof.
  induction l as [|x l IH]; simpl; [reflexivity|].
  destruct (p x); simpl; now rewrite IH.
Qed.

Lemma map_filter_flat_map {A B C} (p : B -> bool) (f : B -> C) (g : A -> list B) (l : list A) :
  map f (filter p (flat_map g l)) = flat_map (fun x => map f (filter p (g x))) l.
Proof.
  induction l as [|x l IH]; simpl; [reflexivity|].
  now rewrite filter_app, map_app, IH.
Qed.

Lemma flat_map_ext_in {A B} (f g : A -> list B) (l : list A) :
  (forall x, In x l -> f x = g x) -> flat_map f l = flat_map g l.
Proof.
  induction l as [|x l IH]; simpl; intros H; [reflexivity|].
  rewrite H by now left. rewrite IH; [reflexivity|]. intros y Hy. apply H. now right.
Qed.

Lemma map_filter_map_select {A B C} (p : B -> bool) (f : B -> C) (g : A -> B) (l : list A) :
  map f (filter p (map g l)) = flat_map (fun x => if p (g x) then [f (g x)] else []) l.
Proof.
  induction l as [|x l IH]; simpl; [reflexivity|].
  destruct (p (g x)); simpl; now rewrite IH.
Qed.

(** [e_con] holds one joined entry for every pair that [test_edge] reports,
    in the order of the loops. *)
Lemma find_joined_spec `{Externals} (self : pyGeo.obj) (edge_tol : Qc) (e_con : list entry) :
  find_joined self edge_tol = Ok e_con ->
  e_con = map (joined_entry self edge_tol)
            (filter (coincident self edge_tol) (edge_pairs (pyGeo.nSurf self))).
Proof.
  unfold find_joined, edge_pairs. intros Hrun.
  set (selJ := fun a b i j =>
         if coincident self edge_tol (a, i, b, j)
         then [joined_entry self edge_tol (a, i, b, j)] else []).
  set (selI := fun a b i => flat_map (selJ a b i) (xrange 4)).
  set (selB := fun a b => flat_map (selI a b) (xrange 4)).
  set (selA := fun a => flat_map (selB a) (xrange2 (a + 1) (pyGeo.nSurf self))).
  assert (E : e_con = [] ++ flat_map selA (xrange (pyGeo.nSurf self))).
  { apply (for_collect _ _ selA) in Hrun; [exact Hrun|].
    intros a acc acc' _ Ha.
    apply (for_collect _ _ (selB a)) in Ha; [exact Ha|].
    intros b acc1 acc1' _ Hb.
    apply (for_collect _ _ (selI a b)) in Hb; [exact Hb|].
    intros i acc2 acc2' _ Hi.
    apply (for_collect _ _ (selJ a b i)) in Hi; [exact Hi|].
    intros j acc3 acc3' _ Hj. inv_ok. unfold selJ, coincident, joined_entry.
    repeat match goal with K : getitem _ _ = Ok _ |- _ => rewrite K; clear K end.
    match goal with K : context [test_edge ?x ?y ?i ?j ?t] |- _ =>
      destruct (test_edge x y i j t) as [[|] d] end; inv_ok; cbn [fst snd].
    - reflexivity.
    - now rewrite app_nil_r. }
  rewrite E. cbn [app].
  rewrite map_filter_flat_map. apply flat_map_ext_in. intros a _.
  rewrite map_filter_flat_map. apply flat_map_ext_in. intros b _.
  rewrite map_filter_flat_map. apply flat_map_ext_in. intros i _.
  rewrite map_filter_map_select. reflexivity.
Qed.

(** *** The mirrored edges *)

Lemma pair_eqb_eq (a b : Z * Z) : pair_eqb a b = true <-> a = b.
Proof.
  destruct a, b. unfold pair_eqb; simpl. rewrite andb_true_iff, !Z.eqb_eq.
  split; [intros [-> ->]; reflexivity | intros [= -> ->]; auto].
Qed.

Lemma mem_pair_In (x : Z * Z) (l : list (Z * Z)) : mem_pair x l = true <-> In x l.
Proof.
  unfold mem_pair. rewrite existsb_exists. split.
  - intros (y & Hy & E). apply pair_eqb_eq in E. now subst.
  - intros Hx. exists x. split; [exact Hx|]. now apply pair_eqb_eq.
Qed.

Lemma mem_pair_app (x : Z * Z) (l1 l2 : list (Z * Z)) :
  mem_pair x (l1 ++ l2) = mem_pair x l1 || mem_pair x l2.
Proof. unfold mem_pair. apply existsb_app. Qed.

Lemma fold_left_flat_map {A B S} (f : S -> B -> S) (g : A -> list B) (l : list A) (s : S) :
  fold_left f (flat_map g l) s = fold_left (fun s a => fold_left f (g a) s) l s.
Proof.
  revert s. induction l as [|a l IH]; intros s; cbn [flat_map fold_left]; [reflexivity|].
  now rewrite fold_left_app, IH.
Qed.

Lemma fold_left_map {A B S} (f : S -> B -> S) (g : A -> B) (l : list A) (s : S) :
  fold_left f (map g l) s = fold_left (fun s a => f s (g a)) l s.
Proof.
  revert s. induction l as [|a l IH]; intros s; cbn [map fold_left]; [reflexivity|].
  now rewrite IH.
Qed.

Lemma fold_left_ext {A S} (f g : S -> A -> S) (l : list A) (s : S) :
  (forall s a, f s a = g s a) -> fold_left f l s = fold_left g l s.
Proof.
  intros H. revert s. induction l as [|a l IH]; intros s; cbn [fold_left]; [reflexivity|].
  now rewrite H, IH.
Qed.

Lemma find_mirrored_fold (nSurf : Z) (edge_list : list (Z * Z)) :
  find_mirrored nSurf edge_list = fold_left mirror_step (all_edges nSurf) ([], edge_list).
Proof.
  unfold find_mirrored, all_edges. rewrite fold_left_flat_map.
  apply fold_left_ext. intros st i. rewrite fold_left_map.
  apply fold_left_ext. intros [m el] j. reflexivity.
Qed.

Lemma mirror_fold_spec (sides : list (Z * Z)) (ps done : list (Z * Z)) :
  NoDup (done ++ ps) ->
  fold_left mirror_step ps
    (map mirrored_entry (filter (not_joined sides) done), sides ++ filter (not_joined sides) done)
  = (map mirrored_entry (filter (not_joined sides) (done ++ ps)),
     sides ++ filter (not_joined sides) (done ++ ps)).
Proof.
  revert done. induction ps as [|p ps IH]; intros done Hnd; cbn [fold_left].
  - now rewrite app_nil_r.
  - assert (Hp : ~ In p done).
    { apply NoDup_remove_2 in Hnd. intros Hin. apply Hnd. apply in_or_app. now left. }
    assert (Hmem : mem_pair p (sides ++ filter (not_joined sides) done) = mem_pair p sides).
    { rewrite mem_pair_app.
      destruct (mem_pair p (filter (not_joined sides) done)) eqn:E; [|apply orb_false_r].
      apply mem_pair_In in E. apply filter_In in E. tauto. }
    assert (Happ : done ++ p :: ps = (done ++ [p]) ++ ps) by (now rewrite <- app_assoc).
    rewrite Happ in *. rewrite <- (IH (done ++ [p]) Hnd). f_equal.
    unfold mirror_step. rewrite Hmem, filter_app. cbn [filter].
    fold (not_joined sides p). destruct (not_joined sides p); cbn [map app].
    + now rewrite map_app, app_assoc.
    + now rewrite !app_nil_r.
Qed.

Lemma NoDup_all_edges (n : Z) : NoDup (all_edges n).
Proof.
  unfold all_edges. apply NoDup_flat_map.
  - apply NoDup_xrange.
  - intros i _. apply Finite.Injective_map_NoDup; [|apply NoDup_xrange].
    intros a b [= ->]. reflexivity.
  - intros i i' p _ _ Hp Hp'. apply in_map_iff in Hp, Hp'.
    destruct Hp as (j & <- & _), Hp' as (j' & [= -> _] & _). reflexivity.
Qed.

Lemma in_all_edges (n f e : Z) : In (f, e) (all_edges n) <-> 0 <= f < n /\ 0 <= e < 4.
Proof.
  unfold all_edges. rewrite in_flat_map. split.
  - intros (i & Hi & Hp). apply in_map_iff in Hp. destruct Hp as (j & [= -> ->] & Hj).
    apply in_xrange in Hi, Hj. lia.
  - intros [Hf He]. exists f. split; [now apply in_xrange|].
    apply in_map_iff. exists e. split; [reflexivity|now apply in_xrange].
Qed.


(** *** Counting *)








(** *** From entries to records *)

Lemma xrange_xrange2 (n : Z) : xrange n = xrange2 0 n.
Proof.
  unfold xrange, xrange2. rewrite Z.sub_0_r. apply map_ext. intros k. lia.
Qed.

(** A loop that reads [ls] by index and appends what [g] makes of each
    element. *)
Lemma for_index_map {A B} (g : Z -> A -> result B) (h : A -> B) :
  (forall i a b, g i a = Ok b -> b = h a) ->
  forall (ls pre : list A) (acc out : list B),
    for_ (xrange2 (Z.of_nat (List.length pre)) (Z.of_nat (List.length (pre ++ ls))))
      (fun i con => en <- getitem (pre ++ ls) i ;; c <- g i en ;; Ok (con ++ [c])) acc
    = Ok out ->
    out = acc ++ map h ls.
Proof.
  intros Hg. induction ls as [|l ls IH]; intros pre acc out Hrun.
  - rewrite app_nil_r, xrange2_nil in Hrun by lia. simpl in Hrun. inv_ok.
    now rewrite app_nil_r.
  - rewrite xrange2_cons in Hrun by (rewrite length_app; simpl; lia).
    cbn [for_] in Hrun. rewrite getitem_nonneg in Hrun by (rewrite length_app; simpl; lia).
    rewrite Nat2Z.id, nth_error_app2, Nat.sub_diag in Hrun by lia.
    cbn [nth_error lift bind] in Hrun.
    destruct (g (Z.of_nat (List.length pre)) l) as [c|] eqn:Eg; cbn [bind] in Hrun;
      [|discriminate].
    apply Hg in Eg. subst c.
    replace (pre ++ l :: ls) with ((pre ++ [l]) ++ ls) in Hrun by (now rewrite <- app_assoc).
    replace (Z.of_nat (List.length pre) + 1) with (Z.of_nat (List.length (pre ++ [l]))) in Hrun
      by (rewrite length_app; simpl; lia).
    apply IH in Hrun. rewrite Hrun, <- app_assoc. reflexivity.
Qed.

Lemma init_string_record (i nJoined : Z) (en : entry) (str : string) (c : edge.obj) :
  (str <- init_string i en nJoined ;; edge_init (replace "|" " " str)) = Ok c ->
  c = edge_of_entry en.
Proof.
  unfold init_string. intros H.
  destruct (i <? nJoined / 2), en; cbn [bind] in H; try discriminate;
    rewrite edge_init_row in H; simpl in H; now inv_ok.
Qed.

Lemma for_ext {A S} (body body' : A -> S -> result S) (l : list A) (s : S) :
  (forall x t, body x t = body' x t) -> for_ l body s = for_ l body' s.
Proof.
  intros H. revert s. induction l as [|x l IH]; intros s; cbn [for_]; [reflexivity|].
  rewrite H. destruct (body' x s); cbn [bind]; auto.
Qed.

(** The records are the entries, one for one. *)
Lemma records_of_entries (edges : list entry) (nJoined : Z) (con : list edge.obj) :
  for_ (xrange (Z.of_nat (List.length edges)))
    (fun i con =>
       en <- getitem edges i ;;
       str <- init_string i en nJoined ;;
       let temp := replace "|" " " str in
       c <- edge_init temp ;;
       Ok (con ++ [c]))
    [] = Ok con ->
  con = map edge_of_entry edges.
Proof.
  intros Hrun. rewrite xrange_xrange2 in Hrun.
  apply (@for_index_map entry edge.obj
           (fun i en => str <- init_string i en nJoined ;; edge_init (replace "|" " " str))
           edge_of_entry (fun i a b => @init_string_record i nJoined a "" b)
           edges [] [] con).
  change (@nil entry ++ edges) with edges.
  change (Z.of_nat (List.length (@nil entry))) with 0. rewrite <- Hrun.
  apply for_ext. intros i acc.
  destruct (getitem edges i) as [en|]; cbn [bind]; [|reflexivity].
  destruct (init_string i en nJoined) as [str|]; cbn [bind]; reflexivity.
Qed.









(** On an object without connectivity there is no question to answer. *)
Lemma calcEdgeConnectivity_steps `{Externals} (self : pyGeo.obj) (node_tol edge_tol : Qc) :
  pyGeo.con self = None ->
  calcEdgeConnectivity self node_tol edge_tol
  = (con <- calc_con self edge_tol ;;
     let o := print "Attempting to Determine Edge Connectivity" (print " " self) in
     o <- printEdgeConnectivity (pyGeo.set_con (Some con) o) ;;
     o <- _setEdgeConnectivity (print "going to set edge connectivity" o) ;;
     Ok (print "Time for Edge Calculation:" o)).
Proof.
  intros Hnone. unfold calcEdgeConnectivity. rewrite Hnone. reflexivity.
Qed.

(** The connectivity that [calcEdgeConnectivity] stores is the one that
    [calc_con] computes. *)
Lemma calcEdgeConnectivity_con `{Externals} (self o : pyGeo.obj) (node_tol edge_tol : Qc) :
  pyGeo.con self = None ->
  calcEdgeConnectivity self node_tol edge_tol = Ok o ->
  exists con, calc_con self edge_tol = Ok con /\ pyGeo.con o = Some con.
Proof.
  intros Hnone Hrun. rewrite calcEdgeConnectivity_steps in Hrun by exact Hnone.
  destruct (calc_con self edge_tol) as [con|] eqn:Ec; cbn [bind] in Hrun; [|discriminate].
  exists con. split; [reflexivity|].
  match type of Hrun with
  | bind (printEdgeConnectivity ?p) _ = _ =>
      destruct (@printEdgeConnectivity_same p con eq_refl) as (p' & Ep & Hs);
      rewrite Ep in Hrun; cbn [bind] in Hrun
  end.
  match type of Hrun with
  | bind ?m _ = _ => destruct m as [q|] eqn:Eq; cbn [bind] in Hrun; [|discriminate]
  end.
  apply setEdgeConnectivity_indexed in Eq. destruct Eq as ((Hc & _) & _).
  injection Hrun as <-.
  change (pyGeo.con (print "Time for Edge Calculation:" q)) with (pyGeo.con q).
  rewrite Hc.
  change (pyGeo.con (print "going to set edge connectivity" p')) with (pyGeo.con p').
  obj_fields Hs.
  match goal with E : pyGeo.con p' = _ |- _ => rewrite E end. reflexivity.
Qed.



(** ** Every edge must be in the connectivity *)

(** A loop that returns has run its body, and returned, for every element. *)
Lemma for_reaches {A S} (P : S -> Prop) (body : A -> S -> result S) (l : list A)
    (s s' : S) (x : A) :
  for_ l body s = Ok s' ->
  P s ->
  (forall y t t', In y l -> P t -> body y t = Ok t' -> P t') ->
  In x l ->
  exists t t', P t /\ body x t = Ok t'.
Proof.
  revert s. induction l as [|y l IH]; intros s Hrun HP Hstep Hin; [destruct Hin|].
  cbn [for_] in Hrun. apply bind_Ok in Hrun. destruct Hrun as (t & Hb & Hrest).
  destruct Hin as [<-|Hin].
  - exists s, t. auto.
  - apply (IH t); auto.
    + eapply Hstep; eauto. now left.
    + intros z u u' Hz. apply Hstep. now right.
Qed.

Lemma findConIndex_references (o : pyGeo.obj) (con : list edge.obj) (isurf e : Z)
    (r : Z * bool) :
  pyGeo.con o = Some con ->
  _findConIndex o isurf e = Ok r ->
  existsb (references isurf e) con = true.
Proof.
  unfold _findConIndex. intros -> Hr.
  destruct (findCon_from con 0 isurf e) as [p|] eqn:Ef; [clear Hr|discriminate].
  revert Ef. generalize 0. induction con as [|c con IH]; intros k Ef; [discriminate|].
  cbn [findCon_from] in Ef. cbn [existsb]. unfold references at 1.
  destruct ((edge.f1 c =? isurf) && (edge.e1 c =? e)); [reflexivity|].
  destruct ((edge.f2 c =? isurf) && (edge.e2 c =? e)); [reflexivity|].
  cbn [orb]. eauto.
Qed.

(** The corner cells look up the four edges of the patch. *)
Lemma index_cell_node0 `{Externals} (isurf Nctlu Nctlv : Z) (fr fr' : frame) :
  2 <= Nctlu -> 2 <= Nctlv ->
  index_cell isurf Nctlu Nctlv 0 0 fr = Ok fr' ->
  (exists r, _findConIndex (self fr) isurf 0 = Ok r) /\
  (exists r, _findConIndex (self fr) isurf 2 = Ok r).
Proof.
  intros Hu Hv. unfold index_cell.
  replace (0 <? 0) with false by reflexivity. cbn [andb].
  replace (0 =? Nctlu - 1) with false by (symmetry; apply Z.eqb_neq; lia).
  replace (0 =? 0) with true by reflexivity. cbn [andb].
  intros Hrun. apply bind_Ok in Hrun. destruct Hrun as ([icon1 m1] & E1 & Hrun).
  apply bind_Ok in Hrun. destruct Hrun as ([icon2 m2] & E2 & _). eauto.
Qed.

Lemma index_cell_node3 `{Externals} (isurf Nctlu Nctlv : Z) (fr fr' : frame) :
  2 <= Nctlu -> 2 <= Nctlv ->
  index_cell isurf Nctlu Nctlv (Nctlu - 1) (Nctlv - 1) fr = Ok fr' ->
  (exists r, _findConIndex (self fr) isurf 1 = Ok r) /\
  (exists r, _findConIndex (self fr) isurf 3 = Ok r).
Proof.
  intros Hu Hv. unfold index_cell.
  replace (Nctlu - 1 <? Nctlu - 1) with false by (symmetry; apply Z.ltb_irrefl).
  replace (Nctlv - 1 <? Nctlv - 1) with false by (symmetry; apply Z.ltb_irrefl).
  replace (Nctlu - 1 =? 0) with false by (symmetry; apply Z.eqb_neq; lia).
  replace (Nctlv - 1 =? 0) with false by (symmetry; apply Z.eqb_neq; lia).
  rewrite !Z.eqb_refl, ?andb_false_r. cbn [andb].
  intros Hrun. apply bind_Ok in Hrun. destruct Hrun as ([icon1 m1] & E1 & Hrun).
  apply bind_Ok in Hrun. destruct Hrun as ([icon2 m2] & E2 & _). eauto.
Qed.

(** The cell [(i, j)] of a patch is indexed in a frame whose object still
    has the connectivity and the shapes of the start. *)
Lemma index_surf_reaches `{Externals} (isurf i j : Z) (fr fr' : frame) (sf : surf_spline.obj) :
  index_surf isurf fr = Ok fr' ->
  getitem (pyGeo.surfs (self fr)) isurf = Ok sf ->
  0 <= i < surf_spline.Nctlu sf -> 0 <= j < surf_spline.Nctlv sf ->
  exists t t',
    same_topology (self fr) (self t) /\
    index_cell isurf (surf_spline.Nctlu sf) (surf_spline.Nctlv sf) i j t = Ok t'.
Proof.
  unfold index_surf. intros Hrun Hsf Hi Hj. rewrite Hsf in Hrun. cbn [bind] in Hrun.
  apply bind_Ok in Hrun. destruct Hrun as (fr1 & Hgrid & _).
  set (P := fun t : frame => same_topology (self fr) (self t)).
  apply (for_reaches P) with (x := i) in Hgrid.
  - destruct Hgrid as (t & t' & HP & Hrow).
    apply (for_reaches P) with (x := j) in Hrow.
    + exact Hrow.
    + exact HP.
    + intros y u u' Hy HPu Hb. apply in_xrange in Hy.
      apply index_cell_added in Hb; [|assumption|assumption].
      destruct Hb as (T & _). unfold P in *. eapply same_topology_trans; eauto.
    + apply in_xrange. assumption.
  - unfold P. apply same_topology_refl.
  - intros y u u' Hy HPu Hb. apply in_xrange in Hy.
    apply index_row_indexed in Hb; [|assumption].
    destruct Hb as (T & _). unfold P in *. eapply same_topology_trans; eauto.
  - apply in_xrange. assumption.
Qed.

Lemma getitem_nth_error {A} (l : list A) (i : Z) (x : A) :
  0 <= i -> getitem l i = Ok x -> nth_error l (Z.to_nat i) = Some x.
Proof.
  intros Hi Hg. apply getitem_Ok in Hg. destruct Hg as (n & Hn & Hnth).
  unfold norm_index in Hn.
  destruct ((0 <=? i) && (i <? Z.of_nat (List.length l))); [congruence|].
  destruct ((- Z.of_nat (List.length l) <=? i) && (i <? 0)) eqn:E; [|discriminate].
  apply andb_true_iff in E. lia.
Qed.

(** X2.  [_setEdgeConnectivity] returns only when the connectivity has a
    record for every edge of every patch that is at least 2 x 2: the
    lookup of [_findConIndex] exits otherwise. *)
Theorem setEdgeConnectivity_every_edge `{Externals} (self0 o : pyGeo.obj)
    (con : list edge.obj) (isurf e : Z) (sf : surf_spline.obj) :
  _setEdgeConnectivity self0 = Ok o ->
  pyGeo.con self0 = Some con ->
  0 <= isurf < pyGeo.nSurf self0 ->
  nth_error (pyGeo.surfs self0) (Z.to_nat isurf) = Some sf ->
  2 <= surf_spline.Nctlu sf -> 2 <= surf_spline.Nctlv sf ->
  0 <= e < 4 ->
  existsb (references isurf e) con = true.
Proof.
  intros Hrun Hcon Hs Hsf Hu Hv He.
  unfold _setEdgeConnectivity in Hrun. rewrite Hcon in Hrun.
  apply bind_Ok in Hrun. destruct Hrun as (fr & Hloop & _).
  match type of Hloop with
  | for_ _ _ ?fr0 = _ => set (f0 := fr0) in Hloop
  end.
  set (P := fun t : frame => same_topology (self f0) (self t)).
  apply (for_reaches P) with (x := isurf) in Hloop.
  - destruct Hloop as (t & t' & HP & Hsurf).
    assert (Hget : exists sf', getitem (pyGeo.surfs (self t)) isurf = Ok sf').
    { unfold index_surf in Hsurf. apply bind_Ok in Hsurf.
      destruct Hsurf as (sf' & Hg & _). eauto. }
    destruct Hget as (sf' & Hget).
    assert (Hd : dims sf' = dims sf).
    { apply getitem_nth_error in Hget; [|lia].
      destruct HP as (_ & _ & Hshape). cbn in Hshape.
      apply (f_equal (fun l => nth_error l (Z.to_nat isurf))) in Hshape.
      rewrite !nth_error_map, Hget, Hsf in Hshape. cbn in Hshape. congruence. }
    unfold dims in Hd. injection Hd as Hdu Hdv.
    assert (Hc : forall u, same_topology (self t) (self u) -> pyGeo.con (self u) = Some con).
    { intros u (Hcu & _). destruct HP as (Hct & _). cbn in Hct. congruence. }
    assert (E02 : e = 0 \/ e = 2 \/ e = 1 \/ e = 3) by lia.
    destruct E02 as [ -> | [ -> | [ -> | -> ] ] ].
    + destruct (@index_surf_reaches _ isurf 0 0 t t' sf' Hsurf Hget) as (u & u' & Tu & Hcell);
        [lia|lia|].
      apply index_cell_node0 in Hcell; [|lia|lia]. destruct Hcell as ((r & Hr) & _).
      eapply findConIndex_references; [apply Hc; exact Tu|exact Hr].
    + destruct (@index_surf_reaches _ isurf 0 0 t t' sf' Hsurf Hget) as (u & u' & Tu & Hcell);
        [lia|lia|].
      apply index_cell_node0 in Hcell; [|lia|lia]. destruct Hcell as (_ & (r & Hr)).
      eapply findConIndex_references; [apply Hc; exact Tu|exact Hr].
    + destruct (@index_surf_reaches _ isurf (surf_spline.Nctlu sf' - 1)
                  (surf_spline.Nctlv sf' - 1) t t' sf' Hsurf Hget) as (u & u' & Tu & Hcell);
        [lia|lia|].
      apply index_cell_node3 in Hcell; [|lia|lia]. destruct Hcell as ((r & Hr) & _).
      eapply findConIndex_references; [apply Hc; exact Tu|exact Hr].
    + destruct (@index_surf_reaches _ isurf (surf_spline.Nctlu sf' - 1)
                  (surf_spline.Nctlv sf' - 1) t t' sf' Hsurf Hget) as (u & u' & Tu & Hcell);
        [lia|lia|].
      apply index_cell_node3 in Hcell; [|lia|lia]. destruct Hcell as (_ & (r & Hr)).
      eapply findConIndex_references; [apply Hc; exact Tu|exact Hr].
  - unfold P. apply same_topology_refl.
  - intros y u u' Hy HPu Hb. apply in_xrange in Hy.
    apply index_surf_indexed in Hb; [|lia].
    destruct Hb as (T & _). unfold P in *. eapply same_topology_trans; eauto.
  - apply in_xrange. cbn. lia.
Qed.

Lemma setEdgeConnectivity_every_edge_witness :
  existsb (references 3 2) four_patches_con = true.
Proof.
  apply (@setEdgeConnectivity_every_edge spec_model four_patches_joined four_patches_indexed
           four_patches_con 3 2 (flat_patch 4 4 3 3)).
  - vm_compute. reflexivity.
  - reflexivity.
  - vm_compute. split; [discriminate|reflexivity].
  - reflexivity.
  - vm_compute. discriminate.
  - vm_compute. discriminate.
  - lia.
Defined.

(** ** The driving groups: the loops return *)

Lemma norm_index_of_nat (n k : nat) : (k < n)%nat -> norm_index n (Z.of_nat k) = Some k.
Proof.
  intros Hk. unfold norm_index.
  replace (0 <=? Z.of_nat k) with true by (symmetry; apply Z.leb_le; lia).
  replace (Z.of_nat k <? Z.of_nat n) with true by (symmetry; apply Z.ltb_lt; lia).
  cbn [andb]. now rewrite Nat2Z.id.
Qed.

Lemma getitem_of_nat {A} (l : list A) (k : nat) (x : A) :
  nth_error l k = Some x -> getitem l (Z.of_nat k) = Ok x.
Proof.
  intros Hx. unfold getitem.
  rewrite norm_index_of_nat by (apply nth_error_Some; congruence).
  now rewrite Hx.
Qed.

Lemma setitem_of_nat {A} (l : list A) (k : nat) (x : A) :
  (k < List.length l)%nat -> setitem l (Z.of_nat k) x = Ok (set_nth l k x).
Proof. intros Hk. unfold setitem. now rewrite norm_index_of_nat. Qed.

Lemma assign_dg_of_nat (edges : list entry) (k : nat) (d : Z) (en : entry) :
  nth_error edges k = Some en ->
  assign_dg edges (Z.of_nat k) d = Ok (set_nth edges k (set_entry_dg d en)).
Proof.
  intros Hk. unfold assign_dg. rewrite (@getitem_of_nat _ edges k en Hk). cbn [bind].
  apply setitem_of_nat. apply nth_error_Some. congruence.
Qed.

Lemma strip_nth (edges edges' : list entry) (k : nat) (en' : entry) :
  strip edges' = strip edges ->
  nth_error edges' k = Some en' ->
  exists en, nth_error edges k = Some en /\ set_entry_dg 0 en = set_entry_dg 0 en'.
Proof.
  unfold strip. intros Hs Hk.
  apply (f_equal (fun l => nth_error l k)) in Hs. rewrite !nth_error_map, Hk in Hs.
  destruct (nth_error edges k) as [en|]; [|discriminate].
  exists en. split; [reflexivity|]. cbn in Hs. congruence.
Qed.

Lemma strip_length (edges edges' : list entry) :
  strip edges' = strip edges -> List.length edges' = List.length edges.
Proof.
  unfold strip. intros Hs. apply (f_equal (@List.length entry)) in Hs.
  now rewrite !length_map in Hs.
Qed.

Lemma same_entry_shape (nSurf : Z) (en en' : entry) :
  set_entry_dg 0 en = set_entry_dg 0 en' ->
  (sides_in nSurf en -> sides_in nSurf en') /\ is_mirrored en' = is_mirrored en /\
  forall order, entry_side en' order = entry_side en order.
Proof.
  destruct en, en'; cbn; intros E; try discriminate; injection E as -> ->; intros; subst; auto.
Qed.

Lemma well_formed_strip (nSurf : Z) (nJ : nat) (edges edges' : list entry) :
  strip edges' = strip edges -> well_formed nSurf nJ edges -> well_formed nSurf nJ edges'.
Proof.
  intros Hs Hw k en' Hk.
  destruct (@strip_nth edges edges' k en' Hs Hk) as (en & Hen & E).
  destruct (Hw k en Hen) as (S1 & M1).
  destruct (@same_entry_shape nSurf en en' E) as (S2 & M2 & _). split; [auto|congruence].
Qed.

Lemma count_set_nth {A} (p : A -> bool) (l : list A) (k : nat) (x y : A) :
  nth_error l k = Some x ->
  (count p (set_nth l k y) + (if p x then 1 else 0)
   = count p l + (if p y then 1 else 0))%nat.
Proof.
  unfold count. revert k. induction l as [|z l IH]; intros [|k] Hk; try discriminate.
  - injection Hk as ->. cbn. destruct (p x), (p y); cbn; lia.
  - cbn [nth_error] in Hk. cbn [set_nth filter].
    specialize (IH k Hk). destruct (p z); cbn [List.length]; lia.
Qed.

Lemma unassigned_set_nth (edges : list entry) (k : nat) (en : entry) (d : Z) :
  nth_error edges k = Some en ->
  entry_dg en = -1 -> d <> -1 ->
  S (unassigned (set_nth edges k (set_entry_dg d en))) = unassigned edges.
Proof.
  intros Hk Hen Hd. unfold unassigned.
  pose proof (@count_set_nth _ (fun en => entry_dg en =? -1) edges k en (set_entry_dg d en) Hk) as Hc.
  cbv beta in Hc. rewrite Hen in Hc.
  replace (entry_dg (set_entry_dg d en)) with d in Hc by (destruct en; reflexivity).
  replace (d =? -1) with false in Hc by (symmetry; now apply Z.eqb_neq).
  cbn in Hc. lia.
Qed.

Lemma unassigned_le (edges : list entry) : (unassigned edges <= List.length edges)%nat.
Proof. unfold unassigned, count. apply filter_length_le. Qed.

Lemma flipEdge_range (e : Z) : 0 <= e < 4 -> 0 <= flipEdge e < 4.
Proof.
  intros He. unfold flipEdge.
  destruct (e =? 0); [lia|]. destruct (e =? 1); [lia|].
  destruct (e =? 2); [lia|]. destruct (e =? 3); lia.
Qed.

(** A side of an entry of a well-formed list, and what [entry_side] reads. *)
Lemma entry_side_in (nSurf : Z) (en : entry) (order : Z) :
  sides_in nSurf en ->
  order = 0 \/ (is_mirrored en = false /\ order = 1) ->
  exists f e, entry_side en order = Ok (f, e) /\ side_in nSurf (f, flipEdge e).
Proof.
  unfold side_in. intros Hs Ho. destruct en; cbn in *.
  - destruct Hs as ((F1 & E1) & (F2 & E2)). cbn in *.
    destruct Ho as [->|(_ & ->)]; cbn; eexists; eexists; (split; [reflexivity|]); cbn;
      auto using flipEdge_range.
  - destruct Ho as [->|(Hm & _)]; [|discriminate]. destruct Hs as (F1 & E1). cbn in *.
    eexists; eexists; (split; [reflexivity|]); cbn; auto using flipEdge_range.
Qed.

Lemma propagate_S (fuel : nat) (edge_list : list (Z * Z)) (nJoined nMirror dg_counter : Z)
    (edges : list entry) (index order : Z) :
  propagate (S fuel) edge_list nJoined nMirror dg_counter edges index order
  = (en <- getitem edges index ;;
     '(cur_face, cur_edge) <- entry_side en order ;;
     let cur_edge := flipEdge cur_edge in
     '(new_index, order) <- _getConIndex edge_list (cur_face, cur_edge) nJoined nMirror ;;
     en' <- getitem edges new_index ;;
     if negb (entry_dg en' =? -1) then Ok edges
     else
       let order := if order =? 0 then 1 else 0 in
       edges <- assign_dg edges new_index dg_counter ;;
       en' <- getitem edges new_index ;;
       if is_mirrored en' then Ok edges
       else propagate fuel edge_list nJoined nMirror dg_counter edges new_index order).
Proof. reflexivity. Qed.

Lemma is_mirrored_set_entry_dg (d : Z) (en : entry) :
  is_mirrored (set_entry_dg d en) = is_mirrored en.
Proof. destruct en; reflexivity. Qed.

Lemma nth_error_lt {A} (l : list A) (k : nat) :
  (k < List.length l)%nat -> exists x, nth_error l k = Some x.
Proof.
  intros Hk. destruct (nth_error l k) eqn:E; [eauto|].
  apply nth_error_None in E. lia.
Qed.

(** The [while] loop stops: every round but the last gives a group to an
    entry that had none. *)
Lemma propagate_total (nSurf : Z) (edge_list : list (Z * Z)) (nJoined nMirror dg_counter : Z)
    (nJ : nat) :
  dg_counter <> -1 ->
  forall (fuel : nat) (edges : list entry) (k : nat) (order : Z),
    well_formed nSurf nJ edges ->
    lookup_ok nSurf edge_list nJoined nMirror nJ (List.length edges) ->
    (k < nJ)%nat -> (k < List.length edges)%nat ->
    order = 0 \/ order = 1 ->
    (unassigned edges < fuel)%nat ->
    exists edges',
      propagate fuel edge_list nJoined nMirror dg_counter edges (Z.of_nat k) order = Ok edges'.
Proof.
  intros Hd. induction fuel as [|fuel IH]; intros edges k order Hw Hl HkJ Hk Ho Hf; [lia|].
  rewrite propagate_S.
  destruct (nth_error_lt edges Hk) as (en & Hen).
  rewrite (@getitem_of_nat _ edges k en Hen). cbn [bind].
  destruct (Hw k en Hen) as (Hs & Hm).
  replace (Nat.ltb k nJ) with true in Hm by (symmetry; apply Nat.ltb_lt; lia).
  cbn [negb] in Hm.
  destruct (@entry_side_in nSurf en order Hs) as (f & e & Hside & Hin).
  { destruct Ho as [->| ->]; auto. }
  rewrite Hside. cbn [bind].
  destruct (Hl _ Hin) as (k' & order' & Hget & Hk' & Ho').
  rewrite Hget. cbn [bind].
  destruct (nth_error_lt edges Hk') as (en' & Hen').
  rewrite (@getitem_of_nat _ edges k' en' Hen'). cbn [bind].
  destruct (entry_dg en' =? -1) eqn:Edg; cbn [negb]; [|eauto].
  apply Z.eqb_eq in Edg.
  rewrite (@assign_dg_of_nat edges k' dg_counter en' Hen'). cbn [bind].
  assert (Hnew : nth_error (set_nth edges k' (set_entry_dg dg_counter en')) k'
                 = Some (set_entry_dg dg_counter en')).
  { apply nth_error_set_nth_eq. exact Hk'. }
  rewrite (@getitem_of_nat _ _ k' _ Hnew). cbn [bind].
  rewrite is_mirrored_set_entry_dg.
  destruct (is_mirrored en') eqn:Em'; [eauto|].
  assert (Hstrip : strip (set_nth edges k' (set_entry_dg dg_counter en')) = strip edges)
    by (now apply strip_set_nth).
  apply IH.
  - eapply well_formed_strip; [exact Hstrip|exact Hw].
  - now rewrite length_set_nth.
  - destruct (Hw k' en' Hen') as (_ & Hm'). rewrite Em' in Hm'.
    destruct (Nat.ltb k' nJ) eqn:El; [|discriminate]. now apply Nat.ltb_lt in El.
  - now rewrite length_set_nth.
  - destruct (order' =? 0); auto.
  - pose proof (@unassigned_set_nth edges k' en' dg_counter Hen' Edg Hd). lia.
Qed.

Lemma propagate_branch_total (nSurf : Z) (edge_list : list (Z * Z))
    (nJoined nMirror dg_counter : Z) (nJ : nat) (edges : list entry) (k : nat) :
  dg_counter <> -1 ->
  well_formed nSurf nJ edges ->
  lookup_ok nSurf edge_list nJoined nMirror nJ (List.length edges) ->
  (k < List.length edges)%nat ->
  exists en edges',
    getitem edges (Z.of_nat k) = Ok en /\
    (if is_mirrored en then Ok edges
     else propagate (S (List.length edges)) edge_list nJoined nMirror dg_counter edges
            (Z.of_nat k) 1) = Ok edges' /\
    strip edges' = strip edges.
Proof.
  intros Hd Hw Hl Hk.
  destruct (nth_error_lt edges Hk) as (en & Hen).
  exists en. destruct (is_mirrored en) eqn:Em.
  - exists edges. split; [now apply getitem_of_nat|]. split; reflexivity.
  - destruct (Hw k en Hen) as (_ & Hm). rewrite Em in Hm.
    assert (HkJ : (k < nJ)%nat).
    { destruct (Nat.ltb k nJ) eqn:El; [now apply Nat.ltb_lt in El|discriminate]. }
    destruct (@propagate_total nSurf edge_list nJoined nMirror dg_counter nJ Hd
                (S (List.length edges)) edges k 1 Hw Hl HkJ Hk) as (edges' & Hp).
    + now right.
    + pose proof (unassigned_le edges). lia.
    + exists edges'. split; [now apply getitem_of_nat|]. split; [exact Hp|].
      eapply propagate_strip; exact Hp.
Qed.

(** The body of the loop over the entries returns. *)
Lemma assign_group_total (nSurf : Z) (edge_list : list (Z * Z)) (nJoined nMirror : Z)
    (nJ : nat) (edges : list entry) (dg_counter : Z) (k : nat) :
  -1 <= dg_counter ->
  well_formed nSurf nJ edges ->
  lookup_ok nSurf edge_list nJoined nMirror nJ (List.length edges) ->
  (k < List.length edges)%nat ->
  exists st', assign_group edge_list nJoined nMirror (Z.of_nat k) (edges, dg_counter) = Ok st'.
Proof.
  intros Hd Hw Hl Hk. unfold assign_group.
  destruct (nth_error_lt edges Hk) as (en & Hen).
  rewrite (@getitem_of_nat _ edges k en Hen). cbn [bind].
  destruct (entry_dg en =? -1); [|eauto].
  rewrite (@assign_dg_of_nat edges k (dg_counter + 1) en Hen). cbn [bind].
  set (edges1 := set_nth edges k (set_entry_dg (dg_counter + 1) en)).
  assert (H1 : nth_error edges1 k = Some (set_entry_dg (dg_counter + 1) en))
    by (apply nth_error_set_nth_eq; exact Hk).
  assert (S1 : strip edges1 = strip edges) by (now apply strip_set_nth).
  assert (W1 : well_formed nSurf nJ edges1) by (eapply well_formed_strip; eauto).
  assert (L1 : List.length edges1 = List.length edges) by apply length_set_nth.
  rewrite (@getitem_of_nat _ edges1 k _ H1). cbn [bind].
  destruct (W1 k _ H1) as (Hs1 & _).
  destruct (@entry_side_in nSurf _ 0 Hs1) as (f & e & Hside & Hin); [now left|].
  rewrite Hside. cbn [bind].
  destruct (Hl _ Hin) as (fi & order & Hget & Hfi & _).
  rewrite Hget. cbn [bind].
  rewrite <- L1 in Hfi.
  destruct (nth_error_lt edges1 Hfi) as (enf & Henf).
  rewrite (@assign_dg_of_nat edges1 fi (dg_counter + 1) enf Henf). cbn [bind].
  set (edges2 := set_nth edges1 fi (set_entry_dg (dg_counter + 1) enf)).
  assert (S2 : strip edges2 = strip edges1) by (now apply strip_set_nth).
  assert (W2 : well_formed nSurf nJ edges2) by (eapply well_formed_strip; eauto).
  assert (L2 : List.length edges2 = List.length edges) by (unfold edges2; now rewrite length_set_nth).
  assert (Hd1 : dg_counter + 1 <> -1) by lia.
  destruct (@propagate_branch_total nSurf edge_list nJoined nMirror (dg_counter + 1) nJ
              edges2 k Hd1 W2) as (en2 & edges3 & G2 & P2 & S3).
  { now rewrite L2. }
  { now rewrite L2. }
  rewrite G2. cbn [bind]. rewrite P2. cbn [bind].
  assert (W3 : well_formed nSurf nJ edges3) by (eapply well_formed_strip; eauto).
  assert (L3 : List.length edges3 = List.length edges)
    by (rewrite (strip_length _ _ S3); exact L2).
  destruct (@propagate_branch_total nSurf edge_list nJoined nMirror (dg_counter + 1) nJ
              edges3 fi Hd1 W3) as (en3 & edges4 & G3 & P3 & S4).
  { now rewrite L3. }
  { rewrite L3, <- L1. exact Hfi. }
  rewrite G3. cbn [bind]. rewrite P3. cbn [bind]. eauto.
Qed.

(** A loop returns when its body does, under an invariant. *)
Lemma for_total {A S} (Inv : S -> Prop) (body : A -> S -> result S) (l : list A) (s : S) :
  Inv s ->
  (forall x t, In x l -> Inv t -> exists t', body x t = Ok t' /\ Inv t') ->
  exists s', for_ l body s = Ok s' /\ Inv s'.
Proof.
  revert s. induction l as [|x l IH]; intros s Hs Hb; cbn [for_]; [eauto|].
  destruct (Hb x s) as (t & Ht & Hinv); [now left|assumption|].
  rewrite Ht. cbn [bind]. apply IH; [assumption|].
  intros y u Hy. apply Hb. now right.
Qed.

Lemma in_xrange2 (a b k : Z) : In k (xrange2 a b) <-> a <= k < b.
Proof.
  unfold xrange2. rewrite in_map_iff. split.
  - intros (n & <- & Hn). apply in_seq in Hn. lia.
  - intros Hk. exists (Z.to_nat (k - a)). split; [lia|]. apply in_seq. lia.
Qed.

Lemma in_edge_pairs (n a i b j : Z) :
  In (a, i, b, j) (edge_pairs n) ->
  (0 <= a < n /\ 0 <= i < 4) /\ (0 <= b < n /\ 0 <= j < 4).
Proof.
  unfold edge_pairs. intros Hin.
  apply in_flat_map in Hin. destruct Hin as (a' & Ha & Hin).
  apply in_flat_map in Hin. destruct Hin as (b' & Hb & Hin).
  apply in_flat_map in Hin. destruct Hin as (i' & Hi & Hin).
  apply in_map_iff in Hin. destruct Hin as (j' & [= -> -> -> ->] & Hj).
  apply in_xrange in Ha, Hi, Hj. apply in_xrange2 in Hb. lia.
Qed.

(** The four loops of the pairwise edge test return. *)
Lemma find_joined_total `{Externals} (self : pyGeo.obj) (edge_tol : Qc) :
  pyGeo.nSurf self <= Z.of_nat (List.length (pyGeo.surfs self)) ->
  exists e_con, find_joined self edge_tol = Ok e_con.
Proof.
  intros Hn. unfold find_joined.
  assert (Hget : forall k, 0 <= k < pyGeo.nSurf self ->
                           exists sf, getitem (pyGeo.surfs self) k = Ok sf).
  { intros k Hk.
    destruct (@nth_error_lt _ (pyGeo.surfs self) (Z.to_nat k)) as (sf & Hsf); [lia|].
    exists sf. rewrite <- (Z2Nat.id k) by lia. now apply getitem_of_nat. }
  destruct (@for_total _ _ (fun _ : list entry => True)
              (fun isurf e_con =>
                 for_ (xrange2 (isurf + 1) (pyGeo.nSurf self))
                   (fun jpatch e_con =>
                      for_ (xrange 4)
                        (fun i e_con =>
                           for_ (xrange 4)
                             (fun j e_con =>
                                s1 <- getitem (pyGeo.surfs self) isurf ;;
                                s2 <- getitem (pyGeo.surfs self) jpatch ;;
                                let '(coinc, dir_flag) := test_edge s1 s2 i j edge_tol in
                                let cont_flag := 0 in
                                if coinc : bool
                                then Ok (e_con ++ [Joined isurf i jpatch j cont_flag dir_flag (-1)])
                                else Ok e_con)
                             e_con)
                        e_con)
                   e_con)
              (xrange (pyGeo.nSurf self)) []) as (e_con & Hrun & _); [exact I| |eauto].
  intros a t Ha _. apply in_xrange in Ha.
  apply for_total; [exact I|]. intros b t1 Hb _. apply in_xrange2 in Hb.
  apply for_total; [exact I|]. intros i t2 _ _.
  apply for_total; [exact I|]. intros j t3 _ _.
  destruct (Hget a) as (s1 & ->); [lia|]. destruct (Hget b) as (s2 & ->); [lia|].
  cbn [bind]. destruct (test_edge s1 s2 i j edge_tol) as [[|] d]; eauto.
Qed.

Lemma index_from_In (l : list (Z * Z)) (p : Z * Z) (z : Z) :
  In p l ->
  exists i, index_from l p z = Ok (z + Z.of_nat i) /\ (i < List.length l)%nat.
Proof.
  revert z. induction l as [|y l IH]; intros z Hin; [destruct Hin|].
  cbn [index_from]. destruct (pair_eqb y p) eqn:E.
  - exists 0%nat. cbn. split; [f_equal; lia|lia].
  - destruct Hin as [->|Hin].
    + assert (pair_eqb p p = true) by (now apply pair_eqb_eq). congruence.
    + destruct (IH (z + 1) Hin) as (i & Hi & Hlt).
      exists (S i). split; [rewrite Hi; f_equal; lia|cbn; lia].
Qed.

Lemma length_joined_sides (e_con : list entry) :
  Forall (fun en => is_mirrored en = false) e_con ->
  List.length (joined_sides e_con) = (2 * List.length e_con)%nat.
Proof.
  induction 1 as [|en l Hen _ IH]; [reflexivity|].
  destruct en; [|discriminate]. cbn [joined_sides List.length]. lia.
Qed.

(** [_getConIndex] on the list of sides: positions below [nJoined] are the
    two sides of the joined entries, the others the mirrored entries. *)
Lemma lookup_ok_sides (nSurf : Z) (e_con : list entry) (M : list (Z * Z)) (nMirror : Z) :
  Forall (fun en => is_mirrored en = false) e_con ->
  (forall p, side_in nSurf p -> In p (joined_sides e_con ++ M)) ->
  lookup_ok nSurf (joined_sides e_con ++ M) (Z.of_nat (List.length e_con) * 2) nMirror
    (List.length e_con) (List.length e_con + List.length M).
Proof.
  intros HJ Hall p Hp. unfold _getConIndex.
  destruct (@index_from_In _ p 0 (Hall p Hp)) as (i & Hi & Hlt).
  rewrite Hi. cbn [bind]. rewrite length_app, (length_joined_sides HJ) in Hlt.
  set (n := List.length e_con) in *.
  replace (0 + Z.of_nat i) with (Z.of_nat i) by lia.
  destruct (Z.of_nat i <? Z.of_nat n * 2) eqn:E.
  - apply Z.ltb_lt in E.
    exists (i / 2)%nat, (Z.of_nat i mod 2).
    assert (Hk : (i / 2 < n)%nat) by (apply Nat.Div0.div_lt_upper_bound; lia).
    split; [|split; [lia|]].
    + f_equal. f_equal. now rewrite Nat2Z.inj_div.
    + pose proof (Z.mod_pos_bound (Z.of_nat i) 2 ltac:(lia)). 
      assert (Z.of_nat i mod 2 = 0 \/ Z.of_nat i mod 2 = 1) as [->| ->] by lia; auto.
  - apply Z.ltb_ge in E.
    exists (n + (i - 2 * n))%nat, 0.
    split; [|split; [lia|now left]].
    f_equal. f_equal. rewrite Z.div_mul by lia. lia.
Qed.

(** ** The driving groups: what the loops assign *)

Lemma regrouped_refl (d : Z) (edges : list entry) : regrouped d edges edges.
Proof. split; [reflexivity|]. intros k en en' H1 H2. left. congruence. Qed.

Lemma regrouped_trans (d : Z) (a b c : list entry) :
  regrouped d a b -> regrouped d b c -> regrouped d a c.
Proof.
  intros (S1 & R1) (S2 & R2). split; [congruence|].
  intros k en en'' Ha Hc.
  destruct (@strip_nth b c k en'' S2 Hc) as (en' & Hb & _).
  destruct (R1 k en en' Ha Hb), (R2 k en' en'' Hb Hc); (left; congruence) || (right; congruence).
Qed.

Lemma regrouped_set_nth (d : Z) (edges : list entry) (k : nat) (en : entry) :
  nth_error edges k = Some en ->
  regrouped d edges (set_nth edges k (set_entry_dg d en)).
Proof.
  intros Hk. split; [now apply strip_set_nth|].
  intros m x x' Hx Hx'. destruct (Nat.eq_dec m k) as [->|Hne].
  - rewrite nth_error_set_nth_eq in Hx' by (apply nth_error_Some; congruence).
    injection Hx' as <-. right. destruct en; reflexivity.
  - rewrite nth_error_set_nth_ne in Hx' by auto. left. congruence.
Qed.

Lemma assign_dg_regrouped (edges edges' : list entry) (k d : Z) :
  assign_dg edges k d = Ok edges' -> regrouped d edges edges'.
Proof.
  unfold assign_dg. intros H. inv_ok.
  apply getitem_Ok in Ha. destruct Ha as (n & Hn & Hnth).
  apply setitem_Ok in H. destruct H as (m & Hm & ->).
  assert (m = n) by congruence. subst. now apply regrouped_set_nth.
Qed.

Lemma propagate_regrouped (fuel : nat) (edge_list : list (Z * Z)) (nJoined nMirror dg_counter : Z) :
  forall (edges edges' : list entry) (index order : Z),
    propagate fuel edge_list nJoined nMirror dg_counter edges index order = Ok edges' ->
    regrouped dg_counter edges edges'.
Proof.
  induction fuel as [|fuel IH]; intros edges edges' index order H; simpl in H; [discriminate|].
  inv_ok. case_if_in H; inv_ok; [apply regrouped_refl|].
  match goal with K : assign_dg _ _ _ = Ok _ |- _ => apply assign_dg_regrouped in K end.
  case_if_in H; inv_ok; [assumption|].
  apply IH in H. eapply regrouped_trans; eauto.
Qed.

Lemma propagate_branch_regrouped (edge_list : list (Z * Z)) (nJoined nMirror d : Z)
    (en : entry) (edges edges' : list entry) (fuel : nat) (index order : Z) :
  (if is_mirrored en then Ok edges
   else propagate fuel edge_list nJoined nMirror d edges index order) = Ok edges' ->
  regrouped d edges edges'.
Proof.
  destruct (is_mirrored en); intros H.
  - injection H as <-. apply regrouped_refl.
  - eapply propagate_regrouped; exact H.
Qed.

(** The body of the loop over the entries: an entry that has a group is
    left alone; one that has none starts the next group, and keeps it. *)
Lemma assign_group_spec (edge_list : list (Z * Z)) (nJoined nMirror : Z) (k : nat)
    (edges edges' : list entry) (dg_counter dg_counter' : Z) :
  assign_group edge_list nJoined nMirror (Z.of_nat k) (edges, dg_counter)
  = Ok (edges', dg_counter') ->
  (dg_counter' = dg_counter /\ edges' = edges /\
   exists en, nth_error edges k = Some en /\ entry_dg en <> -1) \/
  (dg_counter' = dg_counter + 1 /\ regrouped (dg_counter + 1) edges edges' /\
   exists en', nth_error edges' k = Some en' /\ entry_dg en' = dg_counter + 1).
Proof.
  unfold assign_group. intros H.
  apply bind_Ok in H. destruct H as (en & Hen & H).
  apply getitem_nth_error in Hen; [|lia]. rewrite Nat2Z.id in Hen.
  destruct (entry_dg en =? -1) eqn:Edg.
  2:{ injection H as <- <-. left. split; [reflexivity|]. split; [reflexivity|].
      exists en. split; [assumption|]. now apply Z.eqb_neq. }
  right.
  rewrite (@assign_dg_of_nat edges k (dg_counter + 1) en Hen) in H. cbn [bind] in H.
  set (edges1 := set_nth edges k (set_entry_dg (dg_counter + 1) en)) in H.
  assert (R1 : regrouped (dg_counter + 1) edges edges1) by (now apply regrouped_set_nth).
  assert (H1 : nth_error edges1 k = Some (set_entry_dg (dg_counter + 1) en)).
  { apply nth_error_set_nth_eq. apply nth_error_Some. congruence. }
  apply bind_Ok in H. destruct H as (en1 & _ & H).
  apply bind_Ok in H. destruct H as ([f e] & _ & H).
  apply bind_Ok in H. destruct H as ([fi order] & _ & H).
  apply bind_Ok in H. destruct H as (edges2 & A2 & H).
  apply assign_dg_regrouped in A2.
  apply bind_Ok in H. destruct H as (en2 & _ & H).
  apply bind_Ok in H. destruct H as (edges3 & P3 & H).
  apply propagate_branch_regrouped in P3.
  apply bind_Ok in H. destruct H as (en3 & _ & H).
  apply bind_Ok in H. destruct H as (edges4 & P4 & H).
  apply propagate_branch_regrouped in P4.
  injection H as <- <-.
  assert (R : regrouped (dg_counter + 1) edges1 edges4).
  { eapply regrouped_trans; [exact A2|]. eapply regrouped_trans; eauto. }
  split; [reflexivity|]. split; [eapply regrouped_trans; eauto|].
  destruct R as (S4 & R4).
  destruct (@nth_error_lt _ edges4 k) as (en4 & Hen4).
  { rewrite (strip_length _ _ S4). apply nth_error_Some. congruence. }
  exists en4. split; [exact Hen4|].
  destruct (R4 k _ en4 H1 Hen4) as [E|E]; [|exact E].
  rewrite E. destruct en; reflexivity.
Qed.

(** ** The connectivity computation as a whole *)

Lemma find_mirrored_both (nSurf : Z) (e_con : list entry) :
  find_mirrored nSurf (joined_sides e_con)
  = (map mirrored_entry (free_sides nSurf e_con),
     joined_sides e_con ++ free_sides nSurf e_con).
Proof.
  rewrite find_mirrored_fold.
  pose proof (@mirror_fold_spec (joined_sides e_con) (all_edges nSurf) []) as H.
  simpl in H. rewrite app_nil_r in H. apply H. apply NoDup_all_edges.
Qed.

(** [calc_con] is the pairwise test, the loop of the driving groups and
    the loop that builds the records, one after the other. *)
Lemma calc_con_steps `{Externals} (self : pyGeo.obj) (edge_tol : Qc) :
  calc_con self edge_tol
  = (e_con <- find_joined self edge_tol ;;
     '(edges, _) <- assign_groups (pyGeo.nSurf self) e_con ;;
     build_records (Z.of_nat (List.length e_con) * 2) edges).
Proof.
  unfold calc_con. destruct (find_joined self edge_tol) as [e_con|]; cbn [bind]; [|reflexivity].
  rewrite find_mirrored_both. reflexivity.
Qed.

Lemma find_joined_entries `{Externals} (self : pyGeo.obj) (edge_tol : Qc) (e_con : list entry) :
  find_joined self edge_tol = Ok e_con ->
  Forall (fun en => is_mirrored en = false /\ sides_in (pyGeo.nSurf self) en /\
                    entry_dg en = -1) e_con.
Proof.
  intros Hj. apply find_joined_spec in Hj. subst e_con.
  apply Forall_forall. intros en Hen. apply in_map_iff in Hen.
  destruct Hen as ([[[a i] b] j] & <- & Hq). apply filter_In in Hq. destruct Hq as (Hq & _).
  apply in_edge_pairs in Hq. unfold joined_entry.
  destruct (getitem (pyGeo.surfs self) a), (getitem (pyGeo.surfs self) b);
    cbn; unfold side_in; cbn; auto.
Qed.

Lemma free_sides_entries (nSurf : Z) (e_con : list entry) :
  Forall (fun en => is_mirrored en = true /\ sides_in nSurf en /\ entry_dg en = -1)
    (map mirrored_entry (free_sides nSurf e_con)).
Proof.
  apply Forall_forall. intros en Hen. apply in_map_iff in Hen.
  destruct Hen as ([f e] & <- & Hp). apply filter_In in Hp. destruct Hp as (Hp & _).
  apply in_all_edges in Hp. cbn. unfold side_in. cbn. auto.
Qed.

Lemma well_formed_before `{Externals} (self : pyGeo.obj) (edge_tol : Qc) (e_con : list entry) :
  find_joined self edge_tol = Ok e_con ->
  well_formed (pyGeo.nSurf self) (List.length e_con) (entries_before (pyGeo.nSurf self) e_con) /\
  Forall (fun en => entry_dg en = -1) (entries_before (pyGeo.nSurf self) e_con).
Proof.
  intros Hj. pose proof (find_joined_entries _ _ Hj) as HJ.
  pose proof (free_sides_entries (pyGeo.nSurf self) e_con) as HM.
  rewrite Forall_forall in HJ, HM. unfold entries_before. split.
  - intros k en Hk. destruct (Nat.ltb k (List.length e_con)) eqn:E.
    + apply Nat.ltb_lt in E. rewrite nth_error_app1 in Hk by exact E.
      apply nth_error_In in Hk. destruct (HJ en Hk) as (A & B & _). auto.
    + apply Nat.ltb_ge in E. rewrite nth_error_app2 in Hk by exact E.
      apply nth_error_In in Hk. destruct (HM en Hk) as (A & B & _). auto.
  - apply Forall_forall. intros en Hen. apply in_app_or in Hen.
    destruct Hen as [Hen|Hen]; [apply HJ in Hen|apply HM in Hen]; tauto.
Qed.

Lemma every_side_listed (nSurf : Z) (e_con : list entry) (p : Z * Z) :
  side_in nSurf p -> In p (joined_sides e_con ++ free_sides nSurf e_con).
Proof.
  intros Hp. apply in_or_app. unfold free_sides.
  destruct (mem_pair p (joined_sides e_con)) eqn:E.
  - left. now apply mem_pair_In.
  - right. apply filter_In. split.
    + destruct p as [f e]. now apply in_all_edges.
    + unfold not_joined. now rewrite E.
Qed.

(** The loop of the driving groups returns. *)
Lemma assign_groups_total `{Externals} (self : pyGeo.obj) (edge_tol : Qc) (e_con : list entry) :
  find_joined self edge_tol = Ok e_con ->
  exists edges dg_counter,
    assign_groups (pyGeo.nSurf self) e_con = Ok (edges, dg_counter) /\
    strip edges = strip (entries_before (pyGeo.nSurf self) e_con).
Proof.
  intros Hj. unfold assign_groups.
  destruct (well_formed_before _ _ Hj) as (Hw & _).
  pose proof (find_joined_entries _ _ Hj) as HJ.
  set (n := pyGeo.nSurf self) in *.
  set (base := entries_before n e_con) in *.
  assert (Hl : lookup_ok n (joined_sides e_con ++ free_sides n e_con)
                 (Z.of_nat (List.length e_con) * 2)
                 (Z.of_nat (List.length (map mirrored_entry (free_sides n e_con))))
                 (List.length e_con) (List.length base)).
  { unfold base, entries_before. rewrite length_app, length_map.
    apply lookup_ok_sides.
    - eapply Forall_impl; [|exact HJ]. cbv beta. tauto.
    - intros p. apply every_side_listed. }
  destruct (@for_total _ _
              (fun st : list entry * Z => -1 <= snd st /\ strip (fst st) = strip base)
              (assign_group (joined_sides e_con ++ free_sides n e_con)
                 (Z.of_nat (List.length e_con) * 2)
                 (Z.of_nat (List.length (map mirrored_entry (free_sides n e_con)))))
              (xrange (Z.of_nat (List.length base))) (base, -1))
    as ([edges dgc] & Hrun & _ & Hs).
  - cbn. split; [lia|reflexivity].
  - intros x [edges dgc] Hx (Hd & Hs). cbn [fst snd] in *. apply in_xrange in Hx.
    assert (Hlen : List.length edges = List.length base) by (now apply strip_length).
    assert (Hk : (Z.to_nat x < List.length edges)%nat) by lia.
    assert (Hw' : well_formed n (List.length e_con) edges)
      by (eapply well_formed_strip; [exact Hs|exact Hw]).
    rewrite <- Hlen in Hl.
    destruct (@assign_group_total n _ _ _ (List.length e_con) edges dgc (Z.to_nat x)
                Hd Hw' Hl Hk) as ([edges' dgc'] & Hb).
    rewrite Z2Nat.id in Hb by lia.
    exists (edges', dgc'). split; [exact Hb|].
    rewrite <- (Z2Nat.id x) in Hb by lia.
    apply assign_group_spec in Hb. cbn [fst snd].
    destruct Hb as [(-> & -> & _)|(-> & (Hs' & _) & _)]; split; try lia; congruence.
  - exists edges, dgc. cbn [fst] in Hs. auto.
Qed.

(** The loop that builds the records returns, with one record for every
    entry. *)
Lemma build_records_total (nSurf : Z) (nJ : nat) (edges : list entry) :
  well_formed nSurf nJ edges ->
  build_records (Z.of_nat nJ * 2) edges = Ok (map edge_of_entry edges).
Proof.
  intros Hw. unfold build_records.
  destruct (@for_total _ _ (fun _ : list edge.obj => True)
              (fun i con =>
                 en <- getitem edges i ;;
                 str <- init_string i en (Z.of_nat nJ * 2) ;;
                 let temp := replace "|" " " str in
                 c <- edge_init temp ;;
                 Ok (con ++ [c]))
              (xrange (Z.of_nat (List.length edges))) []) as (con & Hrun & _).
  - exact I.
  - intros x acc Hx _. apply in_xrange in Hx.
    destruct (@nth_error_lt _ edges (Z.to_nat x)) as (en & Hen); [lia|].
    assert (Hg : getitem edges x = Ok en)
      by (rewrite <- (Z2Nat.id x) by lia; now apply getitem_of_nat).
    rewrite Hg. cbn [bind].
    destruct (Hw _ _ Hen) as (_ & Hm). unfold init_string.
    rewrite Z.div_mul by lia.
    destruct (x <? Z.of_nat nJ) eqn:E.
    + replace (Nat.ltb (Z.to_nat x) nJ) with true in Hm
        by (symmetry; apply Nat.ltb_lt; apply Z.ltb_lt in E; lia).
      destruct en; [|discriminate]. cbn [bind]. rewrite edge_init_row. cbn [bind]. eauto.
    + replace (Nat.ltb (Z.to_nat x) nJ) with false in Hm
        by (symmetry; apply Nat.ltb_ge; apply Z.ltb_ge in E; lia).
      destruct en; [discriminate|]. cbn [bind]. rewrite edge_init_row. cbn [bind]. eauto.
  - assert (E : con = map edge_of_entry edges)
      by (eapply records_of_entries; exact Hrun).
    subst con. exact Hrun.
Qed.

(** The driving groups that the loop leaves: every entry has one, and
    they are numbered below the number of entries. *)
Lemma assign_groups_assigned `{Externals} (self : pyGeo.obj) (edge_tol : Qc)
    (e_con edges : list entry) (dg_counter : Z) :
  find_joined self edge_tol = Ok e_con ->
  assign_groups (pyGeo.nSurf self) e_con = Ok (edges, dg_counter) ->
  Forall (fun en => 0 <= entry_dg en < Z.of_nat (List.length edges)) edges.
Proof.
  intros Hj Hrun. unfold assign_groups in Hrun.
  destruct (well_formed_before _ _ Hj) as (_ & Hnone).
  set (n := pyGeo.nSurf self) in *.
  set (base := entries_before n e_con) in *.
  apply (for_invariant _
           (fun d (st : list entry * Z) =>
              strip (fst st) = strip base /\
              -1 <= snd st < Z.of_nat (List.length d) /\
              (forall k en, nth_error (fst st) k = Some en -> -1 <= entry_dg en <= snd st) /\
              (forall x en, In x d -> nth_error (fst st) (Z.to_nat x) = Some en ->
                            entry_dg en <> -1))) in Hrun.
  - cbn [fst snd] in Hrun. destruct Hrun as (Hs & Hd & Hb & Ha).
    apply strip_length in Hs. rewrite length_xrange in Hd.
    apply Forall_forall. intros en Hen. apply In_nth_error in Hen. destruct Hen as (k & Hk).
    assert (Hlt : (k < List.length edges)%nat) by (apply nth_error_Some; congruence).
    specialize (Hb k en Hk).
    specialize (Ha (Z.of_nat k) en). rewrite Nat2Z.id in Ha.
    assert (entry_dg en <> -1) by (apply Ha; [apply in_xrange; lia|exact Hk]).
    lia.
  - cbn [fst snd List.length]. split; [reflexivity|]. split; [lia|]. split.
    + intros k en Hk. apply nth_error_In in Hk.
      rewrite Forall_forall in Hnone. rewrite (Hnone en Hk). lia.
    + intros x en [].
  - intros d x [e0 d0] [e1 d1] Hx (Hs & Hd & Hb & Ha) Hstep. cbn [fst snd] in *.
    apply in_xrange in Hx. rewrite <- (Z2Nat.id x) in Hstep by lia.
    apply assign_group_spec in Hstep. rewrite length_app. cbn [List.length].
    destruct Hstep as [(-> & -> & (en & Hen & Hne))|(-> & (Hs1 & R) & (en' & Hen' & Hdg))].
    + split; [exact Hs|]. split; [lia|]. split; [exact Hb|].
      intros y en0 Hy Hy0. apply in_app_or in Hy. destruct Hy as [Hy|[<-|[]]].
      * eapply Ha; eauto.
      * congruence.
    + split; [congruence|]. split; [lia|]. split.
      * intros k en1 Hk. destruct (@strip_nth e0 e1 k en1 Hs1 Hk) as (en0 & Hk0 & _).
        specialize (Hb k en0 Hk0). destruct (R k en0 en1 Hk0 Hk); lia.
      * intros y en1 Hy Hy1. apply in_app_or in Hy. destruct Hy as [Hy|[<-|[]]].
        -- destruct (@strip_nth e0 e1 _ en1 Hs1 Hy1) as (en0 & Hk0 & _).
           specialize (Ha y en0 Hy Hk0). destruct (R _ en0 en1 Hk0 Hy1); lia.
        -- assert (en1 = en') by congruence. subst. lia.
Qed.

(** The connectivity computation returns. *)
Lemma calc_con_total `{Externals} (self : pyGeo.obj) (edge_tol : Qc) :
  pyGeo.nSurf self <= Z.of_nat (List.length (pyGeo.surfs self)) ->
  exists con, calc_con self edge_tol = Ok con.
Proof.
  intros Hn. rewrite calc_con_steps.
  destruct (find_joined_total self edge_tol Hn) as (e_con & Hj).
  rewrite Hj. cbn [bind].
  destruct (assign_groups_total _ _ Hj) as (edges & dgc & Hg & Hs).
  rewrite Hg. cbn [bind].
  destruct (well_formed_before _ _ Hj) as (Hw & _).
  exists (map edge_of_entry edges). eapply build_records_total.
  eapply well_formed_strip; [exact Hs|exact Hw].
Qed.

(** X3.  On an object without connectivity that has its [nSurf] surfaces,
    the part of [calcEdgeConnectivity] that computes the connectivity
    returns, whatever [test_edge] answers: its [while] loops stop and no
    index is out of range.  The call gets to [_setEdgeConnectivity] and
    fails only if that does. *)
Theorem calcEdgeConnectivity_reaches_indexing `{Externals} (self : pyGeo.obj)
    (node_tol edge_tol : Qc) :
  pyGeo.con self = None ->
  pyGeo.nSurf self <= Z.of_nat (List.length (pyGeo.surfs self)) ->
  exists con p,
    calc_con self edge_tol = Ok con /\
    same_object p (pyGeo.set_con (Some con) self) /\
    calcEdgeConnectivity self node_tol edge_tol
    = (o <- _setEdgeConnectivity p ;; Ok (print "Time for Edge Calculation:" o)).
Proof.
  intros Hnone Hn. destruct (calc_con_total self edge_tol Hn) as (con & Hc).
  rewrite calcEdgeConnectivity_steps by exact Hnone. rewrite Hc. cbn [bind].
  match goal with
  | |- context [printEdgeConnectivity ?q] =>
      destruct (@printEdgeConnectivity_same q con eq_refl) as (p' & Ep & Hs); rewrite Ep
  end.
  cbn [bind].
  exists con, (print "going to set edge connectivity" p').
  split; [reflexivity|]. split; [|reflexivity].
  apply same_object_print_l. exact Hs.
Qed.

Lemma calcEdgeConnectivity_reaches_indexing_witness :
  exists con p,
    calc_con two_patches tol_1e_4 = Ok con /\
    same_object p (pyGeo.set_con (Some con) two_patches) /\
    calcEdgeConnectivity two_patches tol_1e_4 tol_1e_4
    = (o <- _setEdgeConnectivity p ;; Ok (print "Time for Edge Calculation:" o)).
Proof.
  apply (@calcEdgeConnectivity_reaches_indexing spec_model two_patches tol_1e_4 tol_1e_4).
  - reflexivity.
  - vm_compute. discriminate.
Defined.

(** X4.  On an object without connectivity, when [calcEdgeConnectivity]
    returns every record of the connectivity has a driving group, and
    the groups are numbered from 0 and below the number of records. *)
Theorem calcEdgeConnectivity_groups `{Externals} (self o : pyGeo.obj)
    (node_tol edge_tol : Qc) :
  pyGeo.con self = None ->
  calcEdgeConnectivity self node_tol edge_tol = Ok o ->
  exists con,
    pyGeo.con o = Some con /\
    Forall (fun c => 0 <= edge.dg c < Z.of_nat (List.length con)) con.
Proof.
  intros Hnone Hrun.
  destruct (calcEdgeConnectivity_con _ _ _ Hnone Hrun) as (con & Hc & Ho).
  exists con. split; [exact Ho|].
  rewrite calc_con_steps in Hc.
  destruct (find_joined self edge_tol) as [e_con|] eqn:Hj; cbn [bind] in Hc; [|discriminate].
  destruct (assign_groups (pyGeo.nSurf self) e_con) as [[edges dgc]|] eqn:Hg;
    cbn [bind] in Hc; [|discriminate].
  pose proof (assign_groups_assigned _ _ Hj Hg) as Ha.
  assert (E : con = map edge_of_entry edges) by (eapply records_of_entries; exact Hc).
  subst con. rewrite length_map. apply Forall_map.
  eapply Forall_impl; [|exact Ha]. intros en Hen. destruct en; exact Hen.
Qed.

Lemma calcEdgeConnectivity_groups_witness :
  exists con,
    pyGeo.con three_patches_calc = Some con /\
    Forall (fun c => 0 <= edge.dg c < Z.of_nat (List.length con)) con.
Proof.
  apply (@calcEdgeConnectivity_groups spec_model three_patches three_patches_calc
           tol_1e_4 tol_1e_4).
  - reflexivity.
  - vm_compute. reflexivity.
Defined.

(** ** The index arrays and [global_coef] *)

Lemma set_globalCtlIndex_reindexed (o o' : pyGeo.obj) (isurf i j g : Z) :
  set_globalCtlIndex o isurf i j g = Ok o' ->
  reindexed (isurf, i, j) g o o' /\
  pyGeo.global_coef o' = pyGeo.global_coef o /\
  apart_from_indexing o o' /\
  pyGeo.coef o' = pyGeo.coef o.
Proof.
  unfold set_globalCtlIndex. intros H.
  apply bind_Ok in H. destruct H as (sf & Hsf & H).
  apply bind_Ok in H. destruct H as (a & Ha & H).
  apply bind_Ok in H. destruct H as (ss & Hss & H).
  injection H as <-. split; [|split; [|split]].
  - exists sf, a, ss. auto.
  - reflexivity.
  - unfold apart_from_indexing. cbn. repeat (split; [reflexivity|]).
    apply setitem_Ok in Hss. destruct Hss as (n & Hn & ->).
    apply getitem_Ok in Hsf. destruct Hsf as (m & Hm & Hnth).
    assert (n = m) by congruence. subst m.
    rewrite map_set_nth. apply set_nth_same.
    rewrite nth_error_map, Hnth. reflexivity.
  - reflexivity.
Qed.

Lemma alloc_master_step (isurf i j : Z) (fr fr' : frame) :
  alloc_master isurf i j fr = Ok fr' -> cell_step (isurf, i, j) fr fr'.
Proof.
  unfold alloc_master. intros H.
  apply bind_Ok in H. destruct H as (o' & Ho & H).
  apply bind_Ok in H. destruct H as (mba & _ & H). injection H as <-.
  apply set_globalCtlIndex_reindexed in Ho. destruct Ho as (R & G & A & K).
  exists (counter fr). cbn [self counter]. split; [exact R|]. split; [|split; [exact A|exact K]].
  left. rewrite G. cbn. auto.
Qed.

Lemma alias_to_step `{Externals} (isurf i j pid e t d : Z) (fr fr' : frame) :
  alias_to isurf i j pid e t d fr = Ok fr' -> cell_step (isurf, i, j) fr fr'.
Proof.
  unfold alias_to. intros H0.
  apply bind_Ok in H0. destruct H0 as (sf & _ & H0).
  apply bind_Ok in H0. destruct H0 as (g & _ & H0).
  apply bind_Ok in H0. destruct H0 as (en & Hen & H0).
  apply bind_Ok in H0. destruct H0 as (gc & Hgc & H0).
  apply bind_Ok in H0. destruct H0 as (o' & Ho & H0). injection H0 as <-.
  apply set_globalCtlIndex_reindexed in Ho. destruct Ho as (R & G & A & K).
  apply setitem_Ok in Hgc. destruct Hgc as (n & Hn & ->).
  apply getitem_Ok in Hen. destruct Hen as (m & Hm & Hnth).
  assert (n = m) by congruence. subst m.
  exists g. cbn [self counter]. split; [exact R|]. split; [|split; [exact A|exact K]].
  right. exists n, en. rewrite G. cbn. auto.
Qed.

Lemma alias_slave_step `{Externals} (isurf i j icon t : Z) (fr fr' : frame) :
  alias_slave isurf i j icon t fr = Ok fr' -> cell_step (isurf, i, j) fr fr'.
Proof.
  unfold alias_slave. intros H0. inv_ok.
  apply alias_to_step in H0. exact H0.
Qed.

Lemma alias_slave_patchiD_step `{Externals} (isurf i j icon t : Z) (fr fr' : frame) :
  alias_slave_patchiD isurf i j icon t fr = Ok fr' -> cell_step (isurf, i, j) fr fr'.
Proof.
  unfold alias_slave_patchiD. intros H0. inv_ok.
  now apply alias_to_step in H0.
Qed.

Lemma cell_step_print_r (c : cell) (line : string) (fr fr' : frame) :
  cell_step c fr fr' -> cell_step c fr (print_fr line fr').
Proof. destruct c as [[s i] j]. exact (fun H => H). Qed.

Lemma edge_cell_step `{Externals} (isurf i j e t : Z) (fr fr' : frame) :
  edge_cell isurf i j e t fr = Ok fr' -> cell_step (isurf, i, j) fr fr'.
Proof.
  unfold edge_cell. intros H0. inv_ok. case_bools.
  - now apply alloc_master_step.
  - now apply alias_slave_step in H0.
Qed.

Create HintDb steps.

#[local] Hint Resolve alloc_master_step alias_slave_step alias_slave_patchiD_step
  edge_cell_step cell_step_print_r : steps.

(** Every branch of the cell loop is one such step. *)
Lemma index_cell_step `{Externals} (isurf Nctlu Nctlv i j : Z) (fr fr' : frame) :
  0 <= i < Nctlu -> 0 <= j < Nctlv ->
  index_cell isurf Nctlu Nctlv i j fr = Ok fr' ->
  cell_step (isurf, i, j) fr fr'.
Proof.
  intros Hi Hj. unfold index_cell.
  destruct ((0 <? i) && (i <? Nctlu - 1) && (0 <? j) && (j <? Nctlv - 1)) eqn:C0;
    [solve [eauto with steps]|].
  destruct ((0 <? i) && (i <? Nctlu - 1) && (j =? 0)) eqn:C1; [solve [eauto with steps]|].
  destruct ((0 <? i) && (i <? Nctlu - 1) && (j =? Nctlv - 1)) eqn:C2; [solve [eauto with steps]|].
  destruct ((i =? 0) && (0 <? j) && (j <? Nctlv - 1)) eqn:C3; [solve [eauto with steps]|].
  destruct ((i =? Nctlu - 1) && (0 <? j) && (j <? Nctlv - 1)) eqn:C4; [solve [eauto with steps]|].
  destruct ((i =? 0) && (j =? 0)) eqn:C5.
  { intros H0. inv_ok.
    case_bools; simpl in H0; inv_ok; eauto with steps.
    all: match goal with
         | K : alias_slave _ _ _ _ _ _ = Ok _ |- _ => apply alias_slave_step in K; exact K
         | K : alloc_master _ _ _ _ = Ok _ |- _ => apply alloc_master_step in K; exact K
         end. }
  destruct ((i =? Nctlu - 1) && (j =? 0)) eqn:C6.
  { intros H0. inv_ok.
    case_bools; simpl in H0; eauto with steps. }
  destruct ((i =? 0) && (j =? Nctlv - 1)) eqn:C7.
  { intros H0. inv_ok.
    case_bools; simpl in H0; eauto with steps. }
  destruct ((i =? Nctlu - 1) && (j =? Nctlv - 1)) eqn:C8.
  { intros H0. inv_ok.
    case_bools; simpl in H0; eauto with steps. }
  exfalso.
  repeat match goal with
  | C : _ && _ = false |- _ => apply andb_false_iff in C
  end.
  lia.
Qed.

Lemma getitem_nat {A} (l : list A) (i : Z) :
  0 <= i -> getitem l i = lift IndexError (nth_error l (Z.to_nat i)).
Proof.
  intros Hi. unfold getitem, norm_index.
  replace (0 <=? i) with true by (symmetry; apply Z.leb_le; lia).
  replace (i <? 0) with false by (symmetry; apply Z.ltb_ge; lia).
  rewrite andb_false_r. cbn [andb].
  destruct (i <? Z.of_nat (List.length l)) eqn:E; [reflexivity|].
  apply Z.ltb_ge in E.
  replace (nth_error l (Z.to_nat i)) with (@None A); [reflexivity|].
  symmetry. apply nth_error_None. lia.
Qed.

Lemma setitem_nat {A} (l l' : list A) (i : Z) (x : A) :
  0 <= i -> setitem l i x = Ok l' ->
  l' = set_nth l (Z.to_nat i) x /\ (Z.to_nat i < List.length l)%nat.
Proof.
  intros Hi Hs. apply setitem_Ok in Hs. destruct Hs as (n & Hn & ->).
  pose proof (norm_index_lt _ _ Hn) as Hlt.
  unfold norm_index in Hn.
  replace (i <? 0) with false in Hn by (symmetry; apply Z.ltb_ge; lia).
  rewrite andb_false_r in Hn.
  destruct ((0 <=? i) && (i <? Z.of_nat (List.length l))); [|discriminate].
  injection Hn as <-. auto.
Qed.





(** A loop invariant rule that knows that the element at hand is not among
    those already processed. *)
Lemma for_invariant_fresh {A S} (body : A -> S -> result S) (P : list A -> S -> Prop)
    (l : list A) (s s' : S) :
  NoDup l ->
  P [] s ->
  (forall d x t t', In x l -> ~ In x d -> incl d l -> P d t -> body x t = Ok t' ->
                    P (d ++ [x]) t') ->
  for_ l body s = Ok s' ->
  P l s'.
Proof.
  intros Hnd HP Hstep Hrun.
  assert (G : forall (r pre : list A) (t : S),
             pre ++ r = l -> P pre t -> for_ r body t = Ok s' -> P l s').
  { induction r as [|x r IH]; intros pre t E HPt Hr.
    - cbn in Hr. injection Hr as <-. rewrite app_nil_r in E. now subst.
    - cbn [for_] in Hr. apply bind_Ok in Hr. destruct Hr as (t1 & Hb & Hr).
      apply (IH (pre ++ [x]) t1); [now rewrite <- app_assoc| |exact Hr].
      subst l. apply (Hstep pre x t t1); auto.
      + apply in_or_app. right. now left.
      + apply NoDup_remove_2 in Hnd. intros Hin. apply Hnd. apply in_or_app. now left.
      + intros y Hy. apply in_or_app. now left. }
  exact (G l [] s eq_refl HP Hrun).
Qed.







Lemma fill_coef_surfs (o o' : pyGeo.obj) :
  fill_coef o = Ok o' ->
  pyGeo.surfs o' = pyGeo.surfs o /\ pyGeo.global_coef o' = pyGeo.global_coef o.
Proof.
  unfold fill_coef. intros Hrun.
  apply (for_invariant _
           (fun (_ : list Z) s => pyGeo.surfs s = pyGeo.surfs o /\
                                  pyGeo.global_coef s = pyGeo.global_coef o)) in Hrun;
    [exact Hrun | split; reflexivity |].
  intros d ii t t' _ (S1 & G1) Hb. inv_ok. cbn. auto.
Qed.




(** ** What indexing leaves alone *)

Lemma apart_from_indexing_refl (o : pyGeo.obj) : apart_from_indexing o o.
Proof. unfold apart_from_indexing. repeat split. Qed.

Lemma apart_from_indexing_trans (a b c : pyGeo.obj) :
  apart_from_indexing a b -> apart_from_indexing b c -> apart_from_indexing a c.
Proof.
  unfold apart_from_indexing.
  intros (A1 & A2 & A3 & A4 & A5 & A6 & A7 & A8 & A9 & A10 & A11 & A12)
         (B1 & B2 & B3 & B4 & B5 & B6 & B7 & B8 & B9 & B10 & B11 & B12).
  repeat split; congruence.
Qed.

Lemma index_surf_apart `{Externals} (isurf : Z) (fr fr' : frame) :
  index_surf isurf fr = Ok fr' -> apart_from_indexing (self fr) (self fr').
Proof.
  unfold index_surf. intros Hrun.
  apply bind_Ok in Hrun. destruct Hrun as (sf & _ & Hrun).
  apply bind_Ok in Hrun. destruct Hrun as (fr1 & Hgrid & Hrun).
  apply bind_Ok in Hrun. destruct Hrun as (r0 & _ & Hrun).
  apply bind_Ok in Hrun. destruct Hrun as (r1 & _ & Hrun).
  apply bind_Ok in Hrun. destruct Hrun as (c0 & _ & Hrun).
  apply bind_Ok in Hrun. destruct Hrun as (c1 & _ & Hrun).
  injection Hrun as <-.
  change (apart_from_indexing (self fr) (self fr1)).
  apply (for_invariant _ (fun (_ : list Z) t => apart_from_indexing (self fr) (self t)))
    in Hgrid; [exact Hgrid|apply apart_from_indexing_refl|].
  intros d i t t' Hi Ht Hrow. apply in_xrange in Hi.
  apply (for_invariant _ (fun (_ : list Z) u => apart_from_indexing (self fr) (self u)))
    in Hrow; [exact Hrow|exact Ht|].
  intros d' j u u' Hj Hu Hcell. apply in_xrange in Hj.
  apply index_cell_step in Hcell; [|assumption|assumption].
  destruct Hcell as (g & _ & _ & A & _). eapply apart_from_indexing_trans; eauto.
Qed.

Lemma fill_coef_apart (o o' : pyGeo.obj) :
  fill_coef o = Ok o' -> apart_from_indexing o o'.
Proof.
  unfold fill_coef. intros Hrun.
  apply (for_invariant _ (fun (_ : list Z) s => apart_from_indexing o s)) in Hrun;
    [exact Hrun|apply apart_from_indexing_refl|].
  intros d ii t t' _ Ht Hb. inv_ok. exact Ht.
Qed.

(** X6.  [_setEdgeConnectivity] assigns nothing but the index arrays of
    the surfaces, [global_coef], [coef], the sizes, shapes and slices,
    [Ncoef] and standard output: the control points, knots and orders of
    the surfaces, the connectivity, the reference axes, the design
    variables, [J1], standard input and the files are as before. *)
Theorem setEdgeConnectivity_frame `{Externals} (self0 o : pyGeo.obj) :
  _setEdgeConnectivity self0 = Ok o -> apart_from_indexing self0 o.
Proof.
  unfold _setEdgeConnectivity. destruct (pyGeo.con self0); [|discriminate].
  intros Hrun. apply bind_Ok in Hrun. destruct Hrun as (fr & Hloop & Hfill).
  apply fill_coef_apart in Hfill.
  assert (Hinv : apart_from_indexing self0 (self fr)).
  { refine (@for_invariant _ _ index_surf
              (fun (_ : list Z) t => apart_from_indexing self0 (self t)) _ _ _ _ _ Hloop).
    - unfold apart_from_indexing. cbn. repeat split.
    - intros d isurf t t' _ Ht Hb. apply index_surf_apart in Hb.
      eapply apart_from_indexing_trans; eauto. }
  eapply apart_from_indexing_trans; [exact Hinv|exact Hfill].
Qed.

Lemma setEdgeConnectivity_frame_witness :
  apart_from_indexing four_patches_joined four_patches_indexed.
Proof.
  apply (@setEdgeConnectivity_frame spec_model four_patches_joined four_patches_indexed).
  vm_compute. reflexivity.
Defined.

(** ** Control points back to the surfaces *)

Lemma setitem_get_same {A} (l l' : list A) (i : Z) (x : A) :
  0 <= i -> setitem l i x = Ok l' -> getitem l' i = Ok x.
Proof.
  intros Hi Hs. apply setitem_nat in Hs; [|exact Hi]. destruct Hs as (-> & Hlt).
  rewrite getitem_nat by exact Hi. now rewrite nth_error_set_nth_eq.
Qed.

Lemma setitem_get_other {A} (l l' : list A) (i i' : Z) (x : A) :
  0 <= i -> 0 <= i' -> i' <> i -> setitem l i x = Ok l' -> getitem l' i' = getitem l i'.
Proof.
  intros Hi Hi' Hne Hs. apply setitem_nat in Hs; [|exact Hi]. destruct Hs as (-> & Hlt).
  rewrite !getitem_nat by exact Hi'. rewrite nth_error_set_nth_ne by lia. reflexivity.
Qed.

Lemma setitem2_get_same {A} (a a' : list (list A)) (i j : Z) (x : A) :
  0 <= i -> 0 <= j -> setitem2 a i j x = Ok a' -> getitem2 a' i j = Ok x.
Proof.
  intros Hi Hj Hs. unfold setitem2 in Hs.
  apply bind_Ok in Hs. destruct Hs as (row & Hrow & Hs).
  apply bind_Ok in Hs. destruct Hs as (row' & Hrow' & Hs).
  unfold getitem2. erewrite setitem_get_same; [|exact Hi|exact Hs]. cbn [bind].
  eapply setitem_get_same; [exact Hj|exact Hrow'].
Qed.

Lemma setitem2_get_other {A} (a a' : list (list A)) (i j i' j' : Z) (x : A) :
  0 <= i -> 0 <= j -> 0 <= i' -> 0 <= j' -> (i', j') <> (i, j) ->
  setitem2 a i j x = Ok a' -> getitem2 a' i' j' = getitem2 a i' j'.
Proof.
  intros Hi Hj Hi' Hj' Hne Hs. unfold setitem2 in Hs.
  apply bind_Ok in Hs. destruct Hs as (row & Hrow & Hs).
  apply bind_Ok in Hs. destruct Hs as (row' & Hrow' & Hs).
  unfold getitem2. destruct (Z.eq_dec i' i) as [->|Hni].
  - erewrite setitem_get_same; [|exact Hi|exact Hs]. rewrite Hrow. cbn [bind].
    eapply setitem_get_other; [exact Hj|exact Hj'| |exact Hrow']. congruence.
  - erewrite setitem_get_other; [reflexivity|exact Hi|exact Hi'|exact Hni|exact Hs].
Qed.

Lemma apart_from_points_trans (a b c : pyGeo.obj) :
  apart_from_points a b -> apart_from_points b c -> apart_from_points a c.
Proof. unfold apart_from_points. intros H1 H2. now rewrite H2. Qed.

(** What one assignment of [_updateSurfaceCoef] does. *)
Lemma set_coef_cell_spec (p : list Qc) (isurf i j : Z) (o o' : pyGeo.obj) :
  cell_nonneg (isurf, i, j) ->
  set_coef_cell p isurf i j o = Ok o' ->
  apart_from_points o o' /\
  (exists old q, coef_at o (isurf, i, j) = Ok old /\ assign_point old p = Ok q /\
                 coef_at o' (isurf, i, j) = Ok q) /\
  updated_at o' (isurf, i, j) = Ok 1%Qc /\
  (forall c, cell_nonneg c -> c <> (isurf, i, j) ->
     coef_at o' c = coef_at o c /\ updated_at o' c = updated_at o c).
Proof.
  unfold cell_nonneg. cbn [fst snd]. intros (Hs & Hi & Hj) H.
  unfold set_coef_cell in H.
  apply bind_Ok in H. destruct H as (sf & Hsf & H).
  apply bind_Ok in H. destruct H as (old & Hold & H).
  apply bind_Ok in H. destruct H as (q & Hq & H).
  apply bind_Ok in H. destruct H as (a & Ha & H).
  apply bind_Ok in H. destruct H as (u & Hu & H).
  apply bind_Ok in H. destruct H as (ss & Hss & H).
  injection H as <-.
  split; [|split; [|split]].
  - unfold apart_from_points. cbn.
    apply setitem_Ok in Hss. destruct Hss as (n & Hn & ->).
    apply getitem_Ok in Hsf. destruct Hsf as (m & Hm & Hnth).
    assert (n = m) by congruence. subst m.
    rewrite map_set_nth, set_nth_same; [destruct o; reflexivity|].
    rewrite nth_error_map, Hnth. reflexivity.
  - exists old, q. unfold coef_at. rewrite Hsf. cbn [bind]. split; [exact Hold|].
    split; [exact Hq|].
    cbn [pyGeo.surfs pyGeo.set_surfs].
    erewrite setitem_get_same; [|exact Hs|exact Hss]. cbn [bind].
    cbn [surf_spline.coef surf_spline.set_updated surf_spline.set_coef].
    eapply setitem2_get_same; [exact Hi|exact Hj|exact Ha].
  - unfold updated_at. cbn [pyGeo.surfs pyGeo.set_surfs].
    erewrite setitem_get_same; [|exact Hs|exact Hss]. cbn [bind].
    cbn [surf_spline.updated surf_spline.set_updated surf_spline.set_coef].
    eapply setitem2_get_same; [exact Hi|exact Hj|exact Hu].
  - intros [[s' i'] j'] (Hs' & Hi' & Hj') Hne. cbn [fst snd] in *.
    unfold coef_at, updated_at. cbn [pyGeo.surfs pyGeo.set_surfs].
    destruct (Z.eq_dec s' isurf) as [->|Hns].
    + erewrite setitem_get_same; [|exact Hs|exact Hss]. rewrite Hsf. cbn [bind].
      cbn [surf_spline.coef surf_spline.updated surf_spline.set_updated surf_spline.set_coef].
      assert (Hij : (i', j') <> (i, j)) by congruence.
      split.
      * eapply setitem2_get_other; [exact Hi|exact Hj|exact Hi'|exact Hj'|exact Hij|exact Ha].
      * eapply setitem2_get_other; [exact Hi|exact Hj|exact Hi'|exact Hj'|exact Hij|exact Hu].
    + erewrite setitem_get_other; [|exact Hs|exact Hs'|exact Hns|exact Hss].
      split; reflexivity.
Qed.

Lemma NoDup_app_inv {A} (l l' : list A) :
  NoDup (l ++ l') -> NoDup l /\ NoDup l' /\ forall a, In a l -> ~ In a l'.
Proof.
  induction l as [|x l IH]; cbn; intros H.
  - split; [constructor|]. split; [exact H|]. intros a [].
  - inversion H as [|y r Hx Hr]; subst. destruct (IH Hr) as (N1 & N2 & D).
    split; [|split; [exact N2|]].
    + constructor; [|exact N1]. intros Hin. apply Hx. apply in_or_app. now left.
    + intros a [<-|Ha]; [|now apply D]. intros Hin. apply Hx. apply in_or_app. now right.
Qed.

Lemma NoDup_concat_entry {A} (l : list (list A)) (n : nat) (en : list A) :
  NoDup (List.concat l) -> nth_error l n = Some en -> NoDup en.
Proof.
  revert n. induction l as [|x l IH]; intros [|n] Hnd Hn; try discriminate; cbn in *.
  - injection Hn as ->. now apply NoDup_app_inv in Hnd.
  - apply NoDup_app_inv in Hnd. destruct Hnd as (_ & Hnd & _). eauto.
Qed.

Lemma NoDup_concat_disjoint {A} (l : list (list A)) (n m : nat) (en em : list A) (c : A) :
  NoDup (List.concat l) ->
  nth_error l n = Some en -> nth_error l m = Some em -> n <> m ->
  In c en -> ~ In c em.
Proof.
  revert n m. induction l as [|x l IH]; intros [|n] [|m] Hnd Hn Hm Hne Hc;
    try discriminate; try lia; cbn in *; apply NoDup_app_inv in Hnd;
    destruct Hnd as (_ & Hnd & Hdis).
  - injection Hn as ->. intros Hin. apply (Hdis c Hc).
    apply in_concat. exists em. split; [|exact Hin]. eapply nth_error_In; eauto.
  - injection Hm as ->. intros Hin. apply (Hdis c Hin).
    apply in_concat. exists en. split; [|exact Hc]. eapply nth_error_In; eauto.
  - eapply IH; eauto.
Qed.

Lemma apart_from_points_fields (a b : pyGeo.obj) :
  apart_from_points a b ->
  pyGeo.global_coef b = pyGeo.global_coef a /\ pyGeo.coef b = pyGeo.coef a.
Proof.
  unfold apart_from_points. intros H. split.
  - apply (f_equal pyGeo.global_coef) in H. exact H.
  - apply (f_equal pyGeo.coef) in H. exact H.
Qed.

Lemma scattered_step (self o o' : pyGeo.obj) (W : list (cell * list Qc))
    (isurf i j : Z) (p : list Qc) :
  cell_nonneg (isurf, i, j) ->
  ~ In (isurf, i, j) (map fst W) ->
  Forall cell_nonneg (map fst W) ->
  scattered self W o ->
  set_coef_cell p isurf i j o = Ok o' ->
  scattered self (W ++ [((isurf, i, j), p)]) o'.
Proof.
  intros Hx Hfresh Hpos (A & Hw & Hrest) Hset.
  apply set_coef_cell_spec in Hset; [|exact Hx].
  destruct Hset as (A' & (old & q0 & Hold & Hq0 & Hnew) & Hup & Hother).
  destruct (Hrest _ Hx Hfresh) as (Hc0 & _).
  split; [|split].
  - eapply apart_from_points_trans; eauto.
  - intros c q Hin. apply in_app_or in Hin. destruct Hin as [Hin|[E|[]]].
    + assert (Hcin : In c (map fst W)) by (apply in_map_iff; exists (c, q); auto).
      assert (Hne : c <> (isurf, i, j)) by (intros ->; contradiction).
      rewrite Forall_forall in Hpos.
      destruct (Hother c (Hpos c Hcin) Hne) as (-> & ->). auto.
    + injection E as <- <-. exists old, q0. split; [congruence|]. auto.
  - intros c Hc Hnin. rewrite map_app in Hnin. cbn in Hnin.
    assert (Hne : c <> (isurf, i, j)).
    { intros ->. apply Hnin. apply in_or_app. right. now left. }
    assert (Hn' : ~ In c (map fst W)).
    { intros Hin. apply Hnin. apply in_or_app. now left. }
    destruct (Hother c Hc Hne) as (-> & ->). auto.
Qed.

Lemma flat_map_nth_from {A B} (f : A -> B) (l l0 : list A) :
  flat_map (fun k => match nth_error (l0 ++ l) (Z.to_nat k) with
                     | Some x => [f x]
                     | None => []
                     end)
    (map Z.of_nat (seq (List.length l0) (List.length l)))
  = map f l.
Proof.
  revert l0. induction l as [|x l IH]; intros l0; [reflexivity|].
  cbn [List.length seq map flat_map]. rewrite Nat2Z.id.
  rewrite nth_error_app2 by lia. rewrite Nat.sub_diag. cbn [nth_error].
  specialize (IH (l0 ++ [x])). rewrite <- app_assoc in IH.
  rewrite length_app in IH. cbn [List.length] in IH.
  replace (List.length l0 + 1)%nat with (S (List.length l0)) in IH by lia.
  rewrite <- IH. reflexivity.
Qed.

Lemma flat_map_nth {A B} (f : A -> B) (l : list A) :
  flat_map (fun k => match nth_error l (Z.to_nat k) with
                     | Some x => [f x]
                     | None => []
                     end)
    (xrange (Z.of_nat (List.length l)))
  = map f l.
Proof.
  unfold xrange. rewrite Nat2Z.id. exact (flat_map_nth_from f l []).
Qed.

(** The inner loop of [_updateSurfaceCoef]: the cells of one entry. *)
Lemma scatter_entry (self o o' : pyGeo.obj) (ii : Z) (en : list cell) (p : list Qc)
    (W0 : list (cell * list Qc)) :
  0 <= ii ->
  nth_error (pyGeo.global_coef self) (Z.to_nat ii) = Some en ->
  nth_error (pyGeo.coef self) (Z.to_nat ii) = Some p ->
  Forall cell_nonneg en -> NoDup en ->
  (forall c, In c en -> ~ In c (map fst W0)) ->
  Forall cell_nonneg (map fst W0) ->
  scattered self W0 o ->
  for_ (xrange (Z.of_nat (List.length en)))
    (fun jj o =>
       entry <- getitem (pyGeo.global_coef o) ii ;;
       '(isurf, i, j) <- getitem entry jj ;;
       c <- getitem (pyGeo.coef o) ii ;;
       set_coef_cell c isurf i j o)
    o = Ok o' ->
  scattered self (W0 ++ map (fun c => (c, p)) en) o'.
Proof.
  intros Hii Hen Hp Hpos Hnd Hfresh Hpos0 Hst Hrun.
  set (pair_at := fun jj : Z => match nth_error en (Z.to_nat jj) with
                                | Some c => [(c, p)]
                                | None => []
                                end).
  rewrite <- (flat_map_nth (fun c => (c, p)) en). fold pair_at.
  assert (Hin : forall d q, In q (map fst (flat_map pair_at d)) ->
                  exists jj, In jj d /\ nth_error en (Z.to_nat jj) = Some q).
  { intros d q Hq. apply in_map_iff in Hq. destruct Hq as ([c r] & <- & Hq).
    apply in_flat_map in Hq. destruct Hq as (jj & Hjj & Hq). exists jj. split; [exact Hjj|].
    unfold pair_at in Hq. destruct (nth_error en (Z.to_nat jj)); [|destruct Hq].
    destruct Hq as [[= -> _]|[]]. reflexivity. }
  apply (for_invariant_fresh _
           (fun d t => scattered self (W0 ++ flat_map pair_at d) t)) in Hrun;
    [exact Hrun|apply NoDup_xrange| |].
  - cbn. now rewrite app_nil_r.
  - intros d jj t t' Hjj Hnew Hd Ht Hb. apply in_xrange in Hjj.
    destruct Ht as (A & Hw & Hrest).
    destruct (apart_from_points_fields A) as (Hgc & Hcoef).
    unfold cell in *.
    rewrite getitem_nat, Hgc, Hen in Hb by exact Hii. cbn [lift bind] in Hb.
    rewrite getitem_nat in Hb by lia.
    destruct (nth_error en (Z.to_nat jj)) as [[[s i] j]|] eqn:Ejj; [|cbn in Hb; discriminate].
    cbn [lift bind] in Hb.
    rewrite getitem_nat, Hcoef, Hp in Hb by exact Hii. cbn [lift bind] in Hb.
    rewrite flat_map_app, app_assoc. cbn [flat_map]. unfold pair_at at 2.
    rewrite Ejj. cbn [app].
    assert (Hxin : In (s, i, j) en) by (eapply nth_error_In; eauto).
    apply (@scattered_step self t t' (W0 ++ flat_map pair_at d) s i j p).
    + rewrite Forall_forall in Hpos. auto.
    + rewrite map_app. intros Hin'. apply in_app_or in Hin'. destruct Hin' as [Hin'|Hin'].
      * exact (Hfresh _ Hxin Hin').
      * apply Hin in Hin'. destruct Hin' as (jj' & Hjj' & Ejj').
        assert (Z.to_nat jj' = Z.to_nat jj).
        { apply (proj1 (NoDup_nth_error en) Hnd); [|congruence].
          apply nth_error_Some. congruence. }
        assert (jj' = jj).
        { apply Hd in Hjj'. apply in_xrange in Hjj'. lia. }
        subst. contradiction.
    + rewrite map_app. apply Forall_app. split; [exact Hpos0|].
      apply Forall_forall. intros q Hq. apply Hin in Hq. destruct Hq as (jj' & _ & Ejj').
      rewrite Forall_forall in Hpos. apply Hpos. eapply nth_error_In; eauto.
    + split; [exact A|]. split; assumption.
    + exact Hb.
Qed.

Lemma in_writes_of (self : pyGeo.obj) (d : list Z) (c : cell) (p : list Qc) :
  In (c, p) (flat_map (writes_of self) d) ->
  exists ii en, In ii d /\
    nth_error (pyGeo.global_coef self) (Z.to_nat ii) = Some en /\ In c en /\
    nth_error (pyGeo.coef self) (Z.to_nat ii) = Some p.
Proof.
  intros Hin. apply in_flat_map in Hin. destruct Hin as (ii & Hii & Hin).
  unfold writes_of in Hin.
  destruct (nth_error (pyGeo.global_coef self) (Z.to_nat ii)) as [en|] eqn:Een; [|destruct Hin].
  destruct (nth_error (pyGeo.coef self) (Z.to_nat ii)) as [q|] eqn:Eq; [|destruct Hin].
  apply in_map_iff in Hin. destruct Hin as (c' & [= -> ->] & Hc). exists ii, en. auto.
Qed.

(** The two loops of [_updateSurfaceCoef]. *)
Lemma scatter_all (self o : pyGeo.obj) :
  NoDup (List.concat (pyGeo.global_coef self)) ->
  Forall cell_nonneg (List.concat (pyGeo.global_coef self)) ->
  _updateSurfaceCoef self = Ok o ->
  scattered self
    (flat_map (writes_of self) (xrange (Z.of_nat (List.length (pyGeo.coef self))))) o.
Proof.
  intros Hnd Hpos Hrun. unfold _updateSurfaceCoef in Hrun.
  assert (Hentry : forall n en, nth_error (pyGeo.global_coef self) n = Some en ->
                     Forall cell_nonneg en).
  { intros n en Hn. apply Forall_forall. intros c Hc. rewrite Forall_forall in Hpos.
    apply Hpos. apply in_concat. exists en. split; [eapply nth_error_In; eauto|exact Hc]. }
  apply (for_invariant_fresh _
           (fun d t => scattered self (flat_map (writes_of self) d) t)) in Hrun;
    [exact Hrun|apply NoDup_xrange| |].
  - split; [reflexivity|]. split; [intros c p []|]. intros c _ _. split; reflexivity.
  - intros d ii t t' Hii Hnew Hd Ht Hb. apply in_xrange in Hii.
    pose proof Ht as (A & _).
    destruct (apart_from_points_fields A) as (Hgc & Hcoef).
    rewrite getitem_nat, Hgc in Hb by lia.
    destruct (nth_error (pyGeo.global_coef self) (Z.to_nat ii)) as [en|] eqn:Een;
      [|discriminate].
    cbn [lift bind] in Hb.
    destruct (@nth_error_lt _ (pyGeo.coef self) (Z.to_nat ii)) as (p & Hp); [lia|].
    rewrite flat_map_app. cbn [flat_map]. rewrite app_nil_r.
    unfold writes_of at 2. rewrite Een, Hp.
    apply (@scatter_entry self t t' ii en p (flat_map (writes_of self) d)); auto.
    + lia.
    + eauto.
    + eapply NoDup_concat_entry; eauto.
    + intros c Hc Hin. apply in_map_iff in Hin. destruct Hin as ([c' q] & E & Hin).
      cbn in E. subst c'. apply in_writes_of in Hin.
      destruct Hin as (ii' & en' & Hii' & Een' & Hc' & _).
      assert (Hne : Z.to_nat ii <> Z.to_nat ii').
      { intros E. pose proof (Hd _ Hii') as Hr. apply in_xrange in Hr.
        assert (ii = ii') by lia. subst. contradiction. }
      exact (@NoDup_concat_disjoint _ _ _ _ en en' c Hnd Een Een' Hne Hc Hc').
    + apply Forall_forall. intros c Hin. apply in_map_iff in Hin.
      destruct Hin as ([c' q] & E & Hin). cbn in E. subst c'. apply in_writes_of in Hin.
      destruct Hin as (ii' & en' & _ & Een' & Hc' & _).
      pose proof (Hentry _ _ Een') as F. rewrite Forall_forall in F. auto.
Qed.

(** X7.  [_updateSurfaceCoef] gives every alias of an entry of
    [global_coef] the point that [self.coef] holds for the entry and marks
    it as updated; control points that are aliases of no entry, and all
    the rest of the object, stay as they are.  The aliases are taken to be
    distinct and to have no index counted from the end, as they are after
    [_setEdgeConnectivity]. *)
Theorem updateSurfaceCoef_scatter (self o : pyGeo.obj) :
  NoDup (List.concat (pyGeo.global_coef self)) ->
  Forall cell_nonneg (List.concat (pyGeo.global_coef self)) ->
  _updateSurfaceCoef self = Ok o ->
  apart_from_points self o /\
  (forall c p, driven_by self c p ->
     exists old q, coef_at self c = Ok old /\ assign_point old p = Ok q /\
                   coef_at o c = Ok q /\ updated_at o c = Ok 1%Qc) /\
  (forall c, cell_nonneg c -> (forall p, ~ driven_by self c p) ->
     coef_at o c = coef_at self c /\ updated_at o c = updated_at self c).
Proof.
  intros Hnd Hpos Hrun. destruct (@scatter_all self o Hnd Hpos Hrun) as (A & Hw & Hrest).
  split; [exact A|]. split.
  - intros c p (n & en & Hn & Hc & Hp). apply Hw.
    apply in_flat_map. exists (Z.of_nat n). split.
    + apply in_xrange. split; [lia|]. apply Nat2Z.inj_lt. apply nth_error_Some. congruence.
    + unfold writes_of. rewrite Nat2Z.id, Hn, Hp. apply in_map_iff. eauto.
  - intros c Hc Hno. apply Hrest; [exact Hc|].
    intros Hin. apply in_map_iff in Hin. destruct Hin as ([c' q] & E & Hin).
    cbn in E. subst c'. apply in_writes_of in Hin.
    destruct Hin as (ii & en & _ & Een & Hc' & Hq).
    apply (Hno q). exists (Z.to_nat ii), en. auto.
Qed.

(** ** Indexing, then scattering: aliases coincide *)

Lemma index_surf_coef `{Externals} (isurf : Z) (fr fr' : frame) :
  index_surf isurf fr = Ok fr' -> pyGeo.coef (self fr') = pyGeo.coef (self fr).
Proof.
  unfold index_surf. intros Hrun.
  apply bind_Ok in Hrun. destruct Hrun as (sf & _ & Hrun).
  apply bind_Ok in Hrun. destruct Hrun as (fr1 & Hgrid & Hrun).
  apply bind_Ok in Hrun. destruct Hrun as (r0 & _ & Hrun).
  apply bind_Ok in Hrun. destruct Hrun as (r1 & _ & Hrun).
  apply bind_Ok in Hrun. destruct Hrun as (c0 & _ & Hrun).
  apply bind_Ok in Hrun. destruct Hrun as (c1 & _ & Hrun).
  injection Hrun as <-.
  change (pyGeo.coef (self fr1) = pyGeo.coef (self fr)).
  apply (for_invariant _ (fun (_ : list Z) t => pyGeo.coef (self t) = pyGeo.coef (self fr)))
    in Hgrid; [exact Hgrid|reflexivity|].
  intros d i t t' Hi Ht Hrow. apply in_xrange in Hi.
  apply (for_invariant _ (fun (_ : list Z) u => pyGeo.coef (self u) = pyGeo.coef (self fr)))
    in Hrow; [exact Hrow|exact Ht|].
  intros d' j u u' Hj Hu Hcell. apply in_xrange in Hj.
  apply index_cell_step in Hcell; [|assumption|assumption].
  destruct Hcell as (g & _ & _ & _ & K). congruence.
Qed.

Lemma Forall2_nth_error_l {A B} (R : A -> B -> Prop) (l : list A) (l' : list B)
    (n : nat) (x : A) :
  Forall2 R l l' -> nth_error l n = Some x -> exists y, nth_error l' n = Some y /\ R x y.
Proof.
  intros H. revert n. induction H as [|a b l l' Hab _ IH]; intros [|n] Hn; try discriminate.
  - injection Hn as <-. exists b. auto.
  - cbn in *. auto.
Qed.

Lemma nth_error_seq_lt (a m n : nat) :
  (n < m)%nat -> nth_error (seq a m) n = Some (a + n)%nat.
Proof.
  revert a n. induction m as [|m IH]; intros a n Hn; [lia|].
  destruct n as [|n]; cbn; [f_equal; lia|].
  rewrite IH by lia. f_equal. lia.
Qed.

Lemma nth_error_xrange (len : Z) (n : nat) :
  (n < Z.to_nat len)%nat -> nth_error (xrange len) n = Some (Z.of_nat n).
Proof.
  intros Hn. unfold xrange. rewrite nth_error_map, nth_error_seq_lt by exact Hn.
  reflexivity.
Qed.

(** [self.coef] after the last loop of [_setEdgeConnectivity]: one point
    for every entry, that of its first alias. *)
Lemma fill_coef_points (o o' : pyGeo.obj) :
  fill_coef o = Ok o' ->
  pyGeo.coef o = [] ->
  forall n en m,
    nth_error (pyGeo.global_coef o) n = Some en -> hd_error en = Some m ->
    exists q, coef_at o m = Ok q /\ nth_error (pyGeo.coef o') n = Some q.
Proof.
  unfold fill_coef. intros Hrun Hempty.
  set (R := fun (ii : Z) (q : list Qc) =>
         forall en m, nth_error (pyGeo.global_coef o) (Z.to_nat ii) = Some en ->
                      hd_error en = Some m -> coef_at o m = Ok q).
  apply (for_invariant _
           (fun d t => pyGeo.surfs t = pyGeo.surfs o /\
                       pyGeo.global_coef t = pyGeo.global_coef o /\
                       Forall2 R d (pyGeo.coef t))) in Hrun.
  - destruct Hrun as (_ & _ & F). intros n en m Hn Hm.
    assert (Hlt : (n < List.length (pyGeo.global_coef o))%nat)
      by (apply nth_error_Some; congruence).
    destruct (@Forall2_nth_error_l _ _ R _ _ n (Z.of_nat n) F) as (q & Hq & HR).
    { apply nth_error_xrange. lia. }
    exists q. split; [|exact Hq]. apply (HR en m); [now rewrite Nat2Z.id|exact Hm].
  - rewrite Hempty. repeat split. constructor.
  - intros d ii t t' Hii (S1 & G1 & F) Hb. apply in_xrange in Hii.
    apply bind_Ok in Hb. destruct Hb as (entry & He & Hb).
    apply bind_Ok in Hb. destruct Hb as ([[s i] j] & Hm & Hb).
    apply bind_Ok in Hb. destruct Hb as (sf & Hsf & Hb).
    apply bind_Ok in Hb. destruct Hb as (c & Hc & Hb).
    injection Hb as <-. cbn. split; [exact S1|]. split; [exact G1|].
    apply Forall2_app; [exact F|]. constructor; [|constructor].
    intros en m Hen Hhd.
    rewrite G1 in He. apply getitem_nth_error in He; [|lia].
    assert (entry = en) by congruence. subst entry.
    apply getitem_nth_error in Hm; [|lia]. cbn in Hm.
    destruct en as [|m0 en]; [discriminate|]. cbn in Hm, Hhd.
    assert (m = (s, i, j)) by congruence. subst m.
    unfold coef_at. rewrite <- S1, Hsf. cbn [bind]. exact Hc.
Qed.

Lemma getitem_In {A} (l : list A) (i : Z) (x : A) : getitem l i = Ok x -> In x l.
Proof.
  intros H. apply getitem_Ok in H. destruct H as (n & _ & Hn). eapply nth_error_In; eauto.
Qed.

Lemma points_of_dim_at (d : nat) (o : pyGeo.obj) (c : cell) (q : list Qc) :
  points_of_dim d o = true -> coef_at o c = Ok q -> List.length q = d.
Proof.
  unfold points_of_dim, coef_at. destruct c as [[s i] j]. intros Hd Hq.
  apply bind_Ok in Hq. destruct Hq as (sf & Hsf & Hq). unfold getitem2 in Hq.
  apply bind_Ok in Hq. destruct Hq as (row & Hrow & Hq).
  apply getitem_In in Hsf, Hrow, Hq.
  rewrite forallb_forall in Hd. specialize (Hd sf Hsf).
  rewrite forallb_forall in Hd. specialize (Hd row Hrow).
  rewrite forallb_forall in Hd. specialize (Hd q Hq). now apply Nat.eqb_eq.
Qed.

Lemma getitem_map {A B} (f : A -> B) (l : list A) (i : Z) :
  getitem (map f l) i = (x <- getitem l i ;; Ok (f x)).
Proof.
  unfold getitem. rewrite length_map.
  destruct (norm_index (List.length l) i) as [n|]; [|reflexivity].
  rewrite nth_error_map. destruct (nth_error l n); reflexivity.
Qed.

(** Indexing does not move a control point. *)
Lemma coef_at_apart (a b : pyGeo.obj) (c : cell) :
  apart_from_indexing a b -> coef_at b c = coef_at a c.
Proof.
  unfold apart_from_indexing. intros (_ & _ & _ & _ & _ & _ & _ & _ & _ & _ & _ & Hs).
  destruct c as [[s i] j]. unfold coef_at.
  apply (f_equal (fun l => getitem l s)) in Hs. rewrite !getitem_map in Hs.
  destruct (getitem (pyGeo.surfs b) s) as [sb|eb], (getitem (pyGeo.surfs a) s) as [sa|ea];
    cbn [bind] in *; try discriminate.
  - assert (E : without_index sb = without_index sa) by congruence.
    apply (f_equal surf_spline.coef) in E. cbn in E. now rewrite E.
  - congruence.
Qed.

(** After [_setEdgeConnectivity] no cell is listed twice, and none has an
    index counted from the end. *)
Lemma setEdgeConnectivity_aliases `{Externals} (self0 o : pyGeo.obj) :
  _setEdgeConnectivity self0 = Ok o ->
  NoDup (List.concat (pyGeo.global_coef o)) /\
  Forall cell_nonneg (List.concat (pyGeo.global_coef o)).
Proof.
  intros Hrun. apply setEdgeConnectivity_indexed in Hrun. destruct Hrun as (_ & P & _).
  split.
  - eapply Permutation_NoDup; [apply Permutation_sym; exact P|]. apply NoDup_cells_of_surfs.
  - apply Forall_forall. intros c Hc. eapply Permutation_in in Hc; [|exact P].
    unfold cells_of_surfs in Hc. apply in_flat_map in Hc. destruct Hc as (s & Hs & Hc).
    apply in_xrange in Hs.
    destruct (nth_error (map dims (pyGeo.surfs self0)) (Z.to_nat s)) as [[nu nv]|];
      [|destruct Hc].
    apply in_cells_of_surf in Hc. destruct Hc as (i & j & -> & Hi & Hj).
    unfold cell_nonneg. cbn. lia.
Qed.

Lemma assign_point_same (old p q : list Qc) :
  List.length old = List.length p -> assign_point old p = Ok q -> q = p.
Proof.
  unfold assign_point. intros Hl. rewrite <- Hl, Nat.eqb_refl. congruence.
Qed.

Lemma updateSurfaceCoef_scatter_witness :
  apart_from_points two_patches_indexed two_patches_scattered /\
  (forall c p, driven_by two_patches_indexed c p ->
     exists old q, coef_at two_patches_indexed c = Ok old /\ assign_point old p = Ok q /\
                   coef_at two_patches_scattered c = Ok q /\
                   updated_at two_patches_scattered c = Ok 1%Qc) /\
  (forall c, cell_nonneg c -> (forall p, ~ driven_by two_patches_indexed c p) ->
     coef_at two_patches_scattered c = coef_at two_patches_indexed c /\
     updated_at two_patches_scattered c = updated_at two_patches_indexed c).
Proof.
  assert (Hrun : _setEdgeConnectivity (pyGeo.set_con (Some two_patches_con) two_patches)
                 = Ok two_patches_indexed) by (vm_compute; reflexivity).
  destruct (@setEdgeConnectivity_aliases spec_model _ _ Hrun) as (Hnd & Hpos).
  apply (@updateSurfaceCoef_scatter two_patches_indexed two_patches_scattered Hnd Hpos).
  vm_compute. reflexivity.
Defined.

(** [self.coef] is empty until the last loop of [_setEdgeConnectivity]. *)
Lemma setEdgeConnectivity_fill `{Externals} (self0 o : pyGeo.obj) :
  _setEdgeConnectivity self0 = Ok o ->
  exists pre, fill_coef pre = Ok o /\ pyGeo.coef pre = [].
Proof.
  unfold _setEdgeConnectivity. destruct (pyGeo.con self0); [|discriminate].
  intros Hrun. apply bind_Ok in Hrun. destruct Hrun as (fr & Hloop & Hfill).
  eexists. split; [exact Hfill|]. cbn.
  refine (@for_invariant _ _ index_surf
            (fun (_ : list Z) t => pyGeo.coef (self t) = []) _ _ _ _ _ Hloop).
  - reflexivity.
  - intros d isurf t t' _ Ht Hb. apply index_surf_coef in Hb. congruence.
Qed.

(** X8.  After [_setEdgeConnectivity] and then [_updateSurfaceCoef], on
    surfaces whose control points all have the same number of
    coordinates, every alias of an entry of [global_coef] holds the
    control point that the first alias of the entry had: control points
    that share a global index coincide exactly. *)
Theorem indexed_aliases_coincide `{Externals} (self0 o1 o2 : pyGeo.obj) (d : nat) :
  _setEdgeConnectivity self0 = Ok o1 ->
  _updateSurfaceCoef o1 = Ok o2 ->
  points_of_dim d self0 = true ->
  forall n en m c,
    nth_error (pyGeo.global_coef o1) n = Some en -> hd_error en = Some m -> In c en ->
    exists q, coef_at self0 m = Ok q /\ coef_at o2 c = Ok q.
Proof.
  intros Hrun1 Hrun2 Hdim n en m c Hn Hm Hc.
  pose proof (setEdgeConnectivity_frame _ Hrun1) as Hframe.
  destruct (setEdgeConnectivity_aliases _ Hrun1) as (Hnd & Hpos).
  destruct (setEdgeConnectivity_fill _ Hrun1) as (pre & Hfill & Hempty).
  destruct (fill_coef_surfs _ Hfill) as (S1 & G1).
  rewrite G1 in Hn.
  destruct (@fill_coef_points pre o1 Hfill Hempty n en m Hn Hm) as (q & Hq & Hqn).
  rewrite <- G1 in Hn.
  assert (Hq1 : coef_at o1 m = Ok q).
  { destruct m as [[s i] j]. unfold coef_at in *. now rewrite S1. }
  assert (Hq0 : coef_at self0 m = Ok q) by (now rewrite <- (coef_at_apart m Hframe)).
  exists q. split; [exact Hq0|].
  destruct (@updateSurfaceCoef_scatter o1 o2 Hnd Hpos Hrun2) as (_ & Hw & _).
  destruct (Hw c q) as (old & q' & Hold & Ha & Hc2 & _).
  { exists n, en. auto. }
  rewrite (coef_at_apart c Hframe) in Hold.
  assert (q' = q); [|congruence].
  apply (assign_point_same old); [|exact Ha].
  rewrite (@points_of_dim_at d self0 c old Hdim Hold).
  rewrite (@points_of_dim_at d self0 m q Hdim Hq0). reflexivity.
Qed.

Lemma indexed_aliases_coincide_witness :
  points_of_dim 3 (pyGeo.set_con (Some two_patches_con) two_patches) = true /\
  forall n en m c,
    nth_error (pyGeo.global_coef two_patches_indexed) n = Some en ->
    hd_error en = Some m -> In c en ->
    exists q, coef_at (pyGeo.set_con (Some two_patches_con) two_patches) m = Ok q /\
              coef_at two_patches_scattered c = Ok q.
Proof.
  split; [vm_compute; reflexivity|].
  apply (@indexed_aliases_coincide spec_model
           (pyGeo.set_con (Some two_patches_con) two_patches)
           two_patches_indexed two_patches_scattered 3).
  - vm_compute. reflexivity.
  - vm_compute. reflexivity.
  - vm_compute. reflexivity.
Defined.

(** ** Reading a table *)

Lemma Forall2_map_left {A B C} (R : B -> C -> Prop) (f : A -> B) (l : list A) (l' : list C) :
  Forall2 R (map f l) l' -> Forall2 (fun x y => R (f x) y) l l'.
Proof.
  revert l'. induction l as [|x l IH]; intros l' F; cbn in F.
  - inversion F. constructor.
  - inversion F as [|a b la lb Hab Hrest]; subst. constructor; auto.
Qed.

Lemma read_rows_inv {A} (f : string -> result A) (ls : list string) :
  forall (pre : list string) (acc out : list A),
    for_ (xrange2 (Z.of_nat (List.length pre)) (Z.of_nat (List.length (pre ++ ls))))
      (fun i con => line <- getitem (pre ++ ls) i ;; c <- f line ;; Ok (con ++ [c])) acc
    = Ok out ->
    exists cs, out = acc ++ cs /\ Forall2 (fun l c => f l = Ok c) ls cs.
Proof.
  induction ls as [|l ls IH]; intros pre acc out Hrun.
  - rewrite app_nil_r, xrange2_nil in Hrun by lia. cbn in Hrun. injection Hrun as <-.
    exists []. split; [now rewrite app_nil_r|constructor].
  - rewrite xrange2_cons in Hrun by (rewrite length_app; simpl; lia).
    cbn [for_] in Hrun. rewrite getitem_nonneg in Hrun by (rewrite length_app; simpl; lia).
    rewrite Nat2Z.id, nth_error_app2, Nat.sub_diag in Hrun by lia.
    cbn [nth_error lift bind] in Hrun.
    destruct (f l) as [c|] eqn:Ef; cbn [bind] in Hrun; [|discriminate].
    replace (pre ++ l :: ls) with ((pre ++ [l]) ++ ls) in Hrun by (now rewrite <- app_assoc).
    replace (Z.of_nat (List.length pre) + 1) with (Z.of_nat (List.length (pre ++ [l]))) in Hrun
      by (rewrite length_app; simpl; lia).
    apply IH in Hrun. destruct Hrun as (cs & -> & F).
    exists (c :: cs). split; [now rewrite <- app_assoc|]. now constructor.
Qed.

(** X9.  When [readEdgeConnectivity] returns on an object without
    connectivity, the stored connectivity has one record for every line of
    the file after the first, in order, each built by [edge.__init__] from
    the line without its bars; the first line is skipped whatever it
    holds.  So a line that [edge.__init__] cannot read, a blank one for
    instance, keeps the call from returning. *)
Theorem readEdgeConnectivity_records `{Externals} (self o : pyGeo.obj)
    (file_name text : string) :
  pyGeo.con self = None ->
  lookup_file (pyGeo.files self) file_name = Some text ->
  readEdgeConnectivity self file_name = Ok o ->
  exists con,
    pyGeo.con o = Some con /\
    Forall2 (fun line c => edge_init (replace "|" " " line) = Ok c) (tl (readlines text)) con.
Proof.
  intros Hnone Hfile Hrun. unfold readEdgeConnectivity in Hrun.
  rewrite Hnone in Hrun. cbn [bind] in Hrun.
  change (pyGeo.files (pyGeo.set_con (Some []) self)) with (pyGeo.files self) in Hrun.
  rewrite Hfile in Hrun. cbn [lift bind] in Hrun.
  apply bind_Ok in Hrun. destruct Hrun as (con & Hloop & Hrun).
  exists con. split.
  - match type of Hrun with
    | bind (printEdgeConnectivity ?p) _ = _ =>
        destruct (@printEdgeConnectivity_same p con eq_refl) as (p' & Ep & Hs);
        rewrite Ep in Hrun; cbn [bind] in Hrun
    end.
    apply setEdgeConnectivity_indexed in Hrun. destruct Hrun as ((Hc & _) & _).
    rewrite Hc. obj_fields Hs.
    match goal with E : pyGeo.con p' = _ |- _ => rewrite E end. reflexivity.
  - destruct (readlines text) as [|h rest].
    + cbn in Hloop. injection Hloop as <-. constructor.
    + cbn [tl map] in *.
      apply (@read_rows_inv _ edge_init (map (replace "|" " ") rest) [replace "|" " " h] [] con)
        in Hloop.
      destruct Hloop as (cs & -> & F). cbn [app].
      apply Forall2_map_left in F. exact F.
Qed.

Lemma readEdgeConnectivity_records_witness :
  exists con,
    pyGeo.con example_read = Some con /\
    Forall2 (fun line c => edge_init (replace "|" " " line) = Ok c)
      (tl (readlines ((table_header ++ nl) ++ String.concat "" (write_rows two_patches_con))))
      con.
Proof.
  apply (@readEdgeConnectivity_records spec_model two_patches_reader example_read "wing.con").
  - reflexivity.
  - reflexivity.
  - vm_compute. reflexivity.
Defined.

(** X10.  A record that [edge.__init__] built is written by [write_info]
    as a row from which [edge.__init__] builds the same record again,
    whatever connection number is written; such a record has [cont = -1],
    [dir = 1] and no partner when its type is 0, and [dof = 7] otherwise. *)
Theorem edge_write_read (s : string) (c : edge.obj) (i : Z) :
  edge_init s = Ok c ->
  built_by_init c /\ edge_init (replace "|" " " (write_info c i)) = Ok c.
Proof.
  intros Hc. apply edge_init_built in Hc. split; [exact Hc|].
  now apply edge_init_write_info.
Qed.

Lemma edge_write_read_witness :
  built_by_init (edge.mk 1 0 1 0 10 7 0 (-1) 1 1) /\
  edge_init (replace "|" " " (write_info (edge.mk 1 0 1 0 10 7 0 (-1) 1 1) 5))
  = Ok (edge.mk 1 0 1 0 10 7 0 (-1) 1 1).
Proof.
  apply (@edge_write_read (replace "|" " " example_row)).
  vm_compute. reflexivity.
Defined.

(** ** Design variables *)

Lemma dict_get_set_same (d : list (string * Z)) (k : string) (v : Z) :
  dict_get (dict_set d k v) k = Some v.
Proof. unfold dict_set. cbn. now rewrite String.eqb_refl. Qed.

Lemma dict_get_set_other (d : list (string * Z)) (k k' : string) (v : Z) :
  k' <> k -> dict_get (dict_set d k v) k' = dict_get d k'.
Proof.
  intros Hne. unfold dict_set. cbn [dict_get].
  replace (String.eqb k k') with false by (symmetry; apply String.eqb_neq; congruence).
  induction d as [|[a b] d IH]; [reflexivity|]. cbn [filter fst dict_get].
  destruct (String.eqb a k) eqn:Ea; cbn [negb].
  - apply String.eqb_eq in Ea. subst a.
    replace (String.eqb k k') with false by (symmetry; apply String.eqb_neq; congruence).
    exact IH.
  - cbn [dict_get]. destruct (String.eqb a k'); [reflexivity|exact IH].
Qed.

(** X11.  [addGeoDVGlobal] accepts an [int] or a sequence as the value
    and raises [TypeError] on a [float] or [complex] scalar, of which it
    asks the length.  When it accepts, the design variable is appended
    and its name is made to give its position; a design variable that had
    the name before stays in the list but is no longer reached by the
    name.  Names keep giving the position of a variable of that name. *)
Theorem addGeoDVGlobal_registers (self : pyGeo.obj) (dv_name : string)
    (value lower upper : pyval)
    (function : pyval -> list ref_axis.obj -> result (list ref_axis.obj)) :
  names_index (pyGeo.DV_namesGlobal self) (map geoDVGlobal.name (pyGeo.DV_listGlobal self)) ->
  match value with
  | PyFloat _ | PyComplex _ =>
      addGeoDVGlobal self dv_name value lower upper function = Raise TypeError
  | _ =>
      exists o dv,
        addGeoDVGlobal self dv_name value lower upper function = Ok o /\
        pyGeo.DV_listGlobal o = pyGeo.DV_listGlobal self ++ [dv] /\
        geoDVGlobal.name dv = dv_name /\ geoDVGlobal.value dv = value /\
        dict_get (pyGeo.DV_namesGlobal o) dv_name
        = Some (Z.of_nat (List.length (pyGeo.DV_listGlobal self))) /\
        (forall k, k <> dv_name ->
           dict_get (pyGeo.DV_namesGlobal o) k = dict_get (pyGeo.DV_namesGlobal self) k) /\
        names_index (pyGeo.DV_namesGlobal o) (map geoDVGlobal.name (pyGeo.DV_listGlobal o))
  end.
Proof.
  intros Hidx.
  assert (Hok : forall nVal,
            let dv := geoDVGlobal.mk dv_name value nVal lower upper function in
            let o := pyGeo.set_DV_listGlobal (pyGeo.DV_listGlobal self ++ [dv]) self in
            let o' := pyGeo.set_DV_namesGlobal
                        (dict_set (pyGeo.DV_namesGlobal o) dv_name
                           (Z.of_nat (List.length (pyGeo.DV_listGlobal o)) - 1)) o in
            pyGeo.DV_listGlobal o' = pyGeo.DV_listGlobal self ++ [dv] /\
            geoDVGlobal.name dv = dv_name /\ geoDVGlobal.value dv = value /\
            dict_get (pyGeo.DV_namesGlobal o') dv_name
            = Some (Z.of_nat (List.length (pyGeo.DV_listGlobal self))) /\
            (forall k, k <> dv_name ->
               dict_get (pyGeo.DV_namesGlobal o') k = dict_get (pyGeo.DV_namesGlobal self) k) /\
            names_index (pyGeo.DV_namesGlobal o')
              (map geoDVGlobal.name (pyGeo.DV_listGlobal o'))).
  { intros nVal dv o o'. cbn.
    assert (E : Z.of_nat (List.length (pyGeo.DV_listGlobal self ++ [dv])) - 1
                = Z.of_nat (List.length (pyGeo.DV_listGlobal self)))
      by (rewrite length_app; cbn; lia).
    rewrite E. repeat split.
    - apply dict_get_set_same.
    - intros k Hk. now apply dict_get_set_other.
    - destruct (string_dec k dv_name) as [->|Hne].
      + rewrite dict_get_set_same in H. injection H as <-. lia.
      + rewrite dict_get_set_other in H by exact Hne. now apply Hidx in H.
    - rewrite map_app. cbn [map].
      destruct (string_dec k dv_name) as [->|Hne].
      + rewrite dict_get_set_same in H. injection H as <-.
        rewrite Nat2Z.id, nth_error_app2 by (rewrite length_map; lia).
        rewrite length_map, Nat.sub_diag. reflexivity.
      + rewrite dict_get_set_other in H by exact Hne. apply Hidx in H.
        destruct H as (_ & H). rewrite nth_error_app1; [exact H|].
        apply nth_error_Some. congruence. }
  unfold addGeoDVGlobal, geoDVGlobal_init.
  destruct value; cbn [bind]; try reflexivity; eexists; eexists; (split; [reflexivity|]);
    apply Hok.
Qed.

Lemma addGeoDVGlobal_registers_witness :
  exists o dv,
    addGeoDVGlobal two_patches "span" (PyInt 1) (PyInt 0) (PyInt 2) (fun _ ra => Ok ra) = Ok o /\
    pyGeo.DV_listGlobal o = pyGeo.DV_listGlobal two_patches ++ [dv] /\
    geoDVGlobal.name dv = "span" /\ geoDVGlobal.value dv = PyInt 1 /\
    dict_get (pyGeo.DV_namesGlobal o) "span"
    = Some (Z.of_nat (List.length (pyGeo.DV_listGlobal two_patches))) /\
    (forall k, k <> "span" ->
       dict_get (pyGeo.DV_namesGlobal o) k = dict_get (pyGeo.DV_namesGlobal two_patches) k) /\
    names_index (pyGeo.DV_namesGlobal o) (map geoDVGlobal.name (pyGeo.DV_listGlobal o)).
Proof.
  apply (@addGeoDVGlobal_registers two_patches "span" (PyInt 1) (PyInt 0) (PyInt 2)
           (fun _ ra => Ok ra)).
  intros k i H. discriminate H.
Defined.

Lemma getitem_0 {A} (l : list A) (x : A) :
  getitem l 0 = Ok x -> exists rest, l = x :: rest.
Proof.
  intros H. apply getitem_nth_error in H; [|lia]. destruct l as [|y l]; [discriminate|].
  cbn in H. injection H as ->. eauto.
Qed.

Lemma Forall2_NoDup_l {A B} (R : A -> B -> Prop) (l : list A) (l' : list B) :
  (forall x y y', R x y -> R x y' -> y = y') ->
  Forall2 R l l' -> NoDup l' -> NoDup l.
Proof.
  intros Hfun F. induction F as [|x y l l' Hxy F IH]; intros Hnd; [constructor|].
  inversion Hnd as [|y0 r Hy Hr]; subst. constructor; [|auto].
  intros Hin. apply Hy. apply In_nth_error in Hin. destruct Hin as (k & Hk).
  destruct (@Forall2_nth_error_l _ _ R l l' k x F Hk) as (y' & Hy' & Hxy').
  rewrite (Hfun x y y' Hxy Hxy'). eapply nth_error_In; eauto.
Qed.

Lemma master_at_cell (self : pyGeo.obj) (surf g : Z) (ij ij' : Z * Z) :
  master_at self surf g ij -> master_at self surf g ij' -> ij = ij'.
Proof.
  intros ((r & H) & _) ((r' & H') & _). rewrite H in H'.
  destruct ij, ij'. cbn in H'. congruence.
Qed.

(** The loops of [addGeoDVLocal]: the indices collected are those of the
    master cells of the surface, in the order of the loops, and the index
    of every master cell of the surface is collected. *)
Lemma masters_of_spec (self : pyGeo.obj) (surf : Z) (coef_list : list Z) (counter : Z) :
  masters_of self surf = Ok (coef_list, counter) ->
  exists sf cells,
    getitem (pyGeo.surfs self) surf = Ok sf /\
    Forall2 (master_at self surf) coef_list cells /\ NoDup cells /\
    (forall i j g,
        0 <= i < surf_spline.Nctlu sf -> 0 <= j < surf_spline.Nctlv sf ->
        master_at self surf g (i, j) -> In g coef_list).
Proof.
  unfold masters_of. intros H.
  apply bind_Ok in H. destruct H as (sf & Hsf & H).
  exists sf.
  apply (for_invariant_fresh _
           (fun d (st : list Z * Z) =>
              exists cells, Forall2 (master_at self surf) (fst st) cells /\ NoDup cells /\
                            (forall ij, In ij cells -> In (fst ij) d) /\
                            (forall i j g, In i d -> 0 <= j < surf_spline.Nctlv sf ->
                               master_at self surf g (i, j) -> In g (fst st)))) in H.
  - destruct H as (cells & F & N & _ & Hall). exists cells.
    split; [exact Hsf|]. split; [exact F|]. split; [exact N|].
    intros i j g Hi Hj Hm. apply (Hall i j g); auto. apply in_xrange. exact Hi.
  - apply NoDup_xrange.
  - exists []. cbn. split; [constructor|]. split; [constructor|].
    split; [intros ij []|intros i j g []].
  - intros d i st st' Hi Hnew _ (cells & F & N & Hd & Hall) Hrow.
    apply (for_invariant_fresh _
             (fun d' (t : list Z * Z) =>
                exists cs, Forall2 (master_at self surf) (fst t) cs /\ NoDup cs /\
                           (forall ij, In ij cs ->
                              In (fst ij) d \/ (fst ij = i /\ In (snd ij) d')) /\
                           (forall i' j g,
                              (In i' d /\ 0 <= j < surf_spline.Nctlv sf) \/ (i' = i /\ In j d') ->
                              master_at self surf g (i', j) -> In g (fst t)))) in Hrow.
    + destruct Hrow as (cs & F' & N' & Hd' & Hall'). exists cs.
      split; [exact F'|]. split; [exact N'|]. split.
      * intros ij Hij. apply in_or_app. destruct (Hd' ij Hij) as [Hl|(Hr & _)]; [now left|].
        right. left. congruence.
      * intros i' j g Hi' Hj Hm. apply (Hall' i' j g); [|exact Hm].
        apply in_app_or in Hi'. destruct Hi' as [Hi'|[<-|[]]]; [left; auto|].
        right. split; [reflexivity|]. apply in_xrange. exact Hj.
    + apply NoDup_xrange.
    + exists cells. split; [exact F|]. split; [exact N|]. split.
      * intros ij Hij. left. auto.
      * intros i' j g [(Hi' & Hj)|(_ & [])] Hm. apply (Hall i' j g); auto.
    + intros d' j [cl ct] t' Hj Hnewj _ (cs & F' & N' & Hd' & Hall') Hb. cbn [fst] in *.
      apply bind_Ok in Hb. destruct Hb as (sf' & Hsf' & Hb).
      apply bind_Ok in Hb. destruct Hb as (g & Hg & Hb).
      apply bind_Ok in Hb. destruct Hb as (entry & He & Hb).
      apply bind_Ok in Hb. destruct Hb as (first & Hf & Hb).
      assert (Hthis : forall g', master_at self surf g' (i, j) ->
                        g' = g /\ cell_eqb first (surf, i, j) = true).
      { intros g' ((rest & Hent) & Hidx). unfold index_at in Hidx. cbn [fst snd] in *.
        rewrite Hsf' in Hidx. cbn [bind] in Hidx.
        assert (g' = g) by congruence. subst g'. split; [reflexivity|].
        unfold cell in *. rewrite He in Hent. injection Hent as ->.
        rewrite getitem_nonneg in Hf by (cbn; lia). cbn in Hf. injection Hf as <-.
        now apply cell_eqb_eq. }
      destruct (cell_eqb first (surf, i, j)) eqn:Etest; injection Hb as <-; cbn [fst].
      * apply cell_eqb_eq in Etest. subst first. apply getitem_0 in Hf.
        destruct Hf as (rest & ->).
        exists (cs ++ [(i, j)]). split; [|split; [|split]].
        -- apply Forall2_app; [exact F'|]. constructor; [|constructor].
           split; [exists rest; exact He|]. unfold index_at. cbn [fst snd].
           rewrite Hsf'. exact Hg.
        -- apply NoDup_app; [exact N'|repeat constructor; intros []|].
           intros ij Hij [<-|[]]. destruct (Hd' _ Hij) as [Hl|(_ & Hr)]; cbn in *; contradiction.
        -- intros ij Hij. apply in_app_or in Hij. destruct Hij as [Hij|[<-|[]]].
           ++ destruct (Hd' _ Hij) as [Hl|(Hr1 & Hr2)]; [now left|].
              right. split; [exact Hr1|]. apply in_or_app. now left.
           ++ right. cbn. split; [reflexivity|]. apply in_or_app. right. now left.
        -- intros i' j' g' Hwhere Hm. apply in_or_app.
           destruct Hwhere as [Hl|(-> & Hj')]; [left; apply (Hall' i' j' g'); auto|].
           apply in_app_or in Hj'. destruct Hj' as [Hj'|[<-|[]]].
           ++ left. apply (Hall' i j' g'); auto.
           ++ right. left. destruct (Hthis g' Hm) as (-> & _). reflexivity.
      * exists cs. split; [exact F'|]. split; [exact N'|]. split.
        -- intros ij Hij. destruct (Hd' _ Hij) as [Hl|(Hr1 & Hr2)]; [now left|].
           right. split; [exact Hr1|]. apply in_or_app. now left.
        -- intros i' j' g' Hwhere Hm.
           destruct Hwhere as [Hl|(-> & Hj')]; [apply (Hall' i' j' g'); auto|].
           apply in_app_or in Hj'. destruct Hj' as [Hj'|[<-|[]]].
           ++ apply (Hall' i j' g'); auto.
           ++ destruct (Hthis g' Hm) as (_ & Habs). discriminate.
Qed.

Lemma Forall2_of_nth {A B} (R : A -> B -> Prop) (l : list A) (l' : list B) :
  List.length l = List.length l' ->
  (forall k x y, nth_error l k = Some x -> nth_error l' k = Some y -> R x y) ->
  Forall2 R l l'.
Proof.
  revert l'. induction l as [|x l IH]; intros [|y l'] Hlen Hnth; try discriminate;
    constructor.
  - exact (Hnth 0%nat x y eq_refl eq_refl).
  - apply IH; [cbn in Hlen; congruence|]. intros k. exact (Hnth (S k)).
Qed.

(** [geoDVLocal.__init__]: the local index of a coefficient is that of the
    first alias of its entry. *)
Lemma geoDVLocal_init_spec (dv_name : string) (lower upper : pyval) (surface_id : Z)
    (coef_list : list Z) (global_coef : list (list cell)) (dv : geoDVLocal.obj) :
  geoDVLocal_init dv_name lower upper surface_id coef_list global_coef = Ok dv ->
  geoDVLocal.coef_list dv = coef_list /\
  geoDVLocal.surface_id dv = surface_id /\
  geoDVLocal.name dv = dv_name /\
  geoDVLocal.nVal dv = Z.of_nat (List.length coef_list) /\
  geoDVLocal.value dv = repeat (Cx 0 0) (List.length coef_list) /\
  Forall2 (fun g ij => exists s rest,
             getitem global_coef g = Ok ((s, fst ij, snd ij) :: rest))
    coef_list (geoDVLocal.local_coef_index dv).
Proof.
  unfold geoDVLocal_init. intros H.
  apply bind_Ok in H. destruct H as (lci & Hloop & H). injection H as <-. cbn.
  repeat (split; [reflexivity|]).
  apply (for_invariant _
           (fun d (l : list (Z * Z)) =>
              List.length l = List.length coef_list /\
              forall x g ij, In x d ->
                nth_error coef_list (Z.to_nat x) = Some g ->
                nth_error l (Z.to_nat x) = Some ij ->
                exists s rest, getitem global_coef g = Ok ((s, fst ij, snd ij) :: rest)))
    in Hloop.
  - destruct Hloop as (Hlen & Hall). apply Forall2_of_nth; [congruence|].
    intros k g ij Hg Hij. apply (Hall (Z.of_nat k)).
    + apply in_xrange. split; [lia|]. apply Nat2Z.inj_lt. apply nth_error_Some. congruence.
    + now rewrite Nat2Z.id.
    + now rewrite Nat2Z.id.
  - split; [apply repeat_length|]. intros x g ij [].
  - intros d x l l' Hx (Hlen & Hall) Hb. apply in_xrange in Hx.
    apply bind_Ok in Hb. destruct Hb as (g & Hg & Hb).
    apply bind_Ok in Hb. destruct Hb as (cp & Hcp & Hb).
    apply bind_Ok in Hb. destruct Hb as ([[s i] j] & Hfirst & Hb).
    apply setitem_nat in Hb; [|lia]. destruct Hb as (-> & Hlt).
    split; [now rewrite length_set_nth|].
    intros y g' ij Hy Hg' Hij.
    destruct (Nat.eq_dec (Z.to_nat x) (Z.to_nat y)) as [E|Hne].
    + rewrite <- E in Hg', Hij. rewrite nth_error_set_nth_eq in Hij by exact Hlt.
      injection Hij as <-. apply getitem_nth_error in Hg; [|lia].
      assert (g' = g) by congruence. subst g'.
      apply getitem_0 in Hfirst. destruct Hfirst as (rest & ->). cbn. eauto.
    + rewrite nth_error_set_nth_ne in Hij by exact Hne.
      apply in_app_or in Hy. destruct Hy as [Hy|[<-|[]]]; [eauto|contradiction].
Qed.

Lemma Forall2_master_index (self : pyGeo.obj) (surf : Z) (cl : list Z)
    (cells lci : list (Z * Z)) :
  Forall2 (master_at self surf) cl cells ->
  Forall2 (fun g ij => exists s rest,
             getitem (pyGeo.global_coef self) g = Ok ((s, fst ij, snd ij) :: rest)) cl lci ->
  lci = cells.
Proof.
  intros F. revert lci. induction F as [|g ij cl cells Hm F IH]; intros lci F';
    inversion F' as [|g' ij' cl' lci' Hl Hrest]; subst; [reflexivity|].
  f_equal; [|auto]. destruct Hm as ((r & Hr) & _). destruct Hl as (s & r' & Hr').
  rewrite Hr in Hr'. destruct ij, ij'. cbn in Hr'. congruence.
Qed.

(** X12.  [addGeoDVLocal] on a surface, without a bounding box, appends a
    design variable over the master cells of the surface, those that are
    the first alias of the entry their index names: every coefficient that
    is listed is the index of a master cell of the surface, the index of
    every master cell of the surface is listed, no coefficient is listed
    twice, the values start at zero, and the local index kept for a
    coefficient is the cell that it was found at.  The name is made to
    give the position of the new variable. *)
Theorem addGeoDVLocal_masters (self o : pyGeo.obj) (dv_name : string)
    (lower upper : pyval) (surf : Z) :
  addGeoDVLocal self dv_name lower upper (Some surf) None = Ok o ->
  exists dv sf,
    pyGeo.DV_listLocal o = pyGeo.DV_listLocal self ++ [dv] /\
    dict_get (pyGeo.DV_namesLocal o) dv_name
    = Some (Z.of_nat (List.length (pyGeo.DV_listLocal self))) /\
    geoDVLocal.surface_id dv = surf /\
    geoDVLocal.value dv = repeat (Cx 0 0) (List.length (geoDVLocal.coef_list dv)) /\
    NoDup (geoDVLocal.coef_list dv) /\
    Forall2 (master_at self surf) (geoDVLocal.coef_list dv) (geoDVLocal.local_coef_index dv) /\
    getitem (pyGeo.surfs self) surf = Ok sf /\
    (forall i j g,
        0 <= i < surf_spline.Nctlu sf -> 0 <= j < surf_spline.Nctlv sf ->
        master_at self surf g (i, j) -> In g (geoDVLocal.coef_list dv)).
Proof.
  unfold addGeoDVLocal. intros H.
  apply bind_Ok in H. destruct H as ([cl o1] & Hm & H).
  apply bind_Ok in Hm. destruct Hm as ([cl' counter] & Hm & Hr). injection Hr as -> <-.
  apply masters_of_spec in Hm. destruct Hm as (sf & cells & Hsf & F & N & Hall).
  assert (Hend : forall o1 : pyGeo.obj,
            pyGeo.global_coef o1 = pyGeo.global_coef self ->
            pyGeo.DV_listLocal o1 = pyGeo.DV_listLocal self ->
            (dv <- geoDVLocal_init dv_name lower upper surf cl (pyGeo.global_coef o1) ;;
             let o2 := pyGeo.set_DV_listLocal (pyGeo.DV_listLocal o1 ++ [dv]) o1 in
             Ok (pyGeo.set_DV_namesLocal
                   (dict_set (pyGeo.DV_namesLocal o2) dv_name
                      (Z.of_nat (List.length (pyGeo.DV_listLocal o2)) - 1)) o2)) = Ok o ->
            exists dv sf,
              pyGeo.DV_listLocal o = pyGeo.DV_listLocal self ++ [dv] /\
              dict_get (pyGeo.DV_namesLocal o) dv_name
              = Some (Z.of_nat (List.length (pyGeo.DV_listLocal self))) /\
              geoDVLocal.surface_id dv = surf /\
              geoDVLocal.value dv = repeat (Cx 0 0) (List.length (geoDVLocal.coef_list dv)) /\
              NoDup (geoDVLocal.coef_list dv) /\
              Forall2 (master_at self surf) (geoDVLocal.coef_list dv)
                (geoDVLocal.local_coef_index dv) /\
              getitem (pyGeo.surfs self) surf = Ok sf /\
              (forall i j g,
                  0 <= i < surf_spline.Nctlu sf -> 0 <= j < surf_spline.Nctlv sf ->
                  master_at self surf g (i, j) -> In g (geoDVLocal.coef_list dv))).
  { intros o1 Hgc Hl H1.
    apply bind_Ok in H1. destruct H1 as (dv & Hdv & H1). injection H1 as <-.
    rewrite Hgc in Hdv.
    apply geoDVLocal_init_spec in Hdv. destruct Hdv as (Ecl & Esid & _ & _ & Eval & Flci).
    pose proof (Forall2_master_index F Flci) as E.
    exists dv, sf.
    cbn [pyGeo.DV_listLocal pyGeo.DV_namesLocal pyGeo.set_DV_listLocal pyGeo.set_DV_namesLocal].
    rewrite Hl. split; [reflexivity|]. split.
    - rewrite dict_get_set_same. f_equal. rewrite length_app. cbn. lia.
    - split; [exact Esid|]. rewrite Ecl. split; [exact Eval|]. split; [|split; [|split]].
      + apply (@Forall2_NoDup_l _ _ (master_at self surf) cl cells); auto.
        intros x y y'. apply master_at_cell.
      + rewrite E. exact F.
      + exact Hsf.
      + exact Hall. }
  destruct (negb (counter =? 0)).
  - exact (Hend (print (driven_warning counter surf) self) eq_refl eq_refl H).
  - exact (Hend self eq_refl eq_refl H).
Qed.

Lemma addGeoDVLocal_masters_witness :
  exists dv sf,
    pyGeo.DV_listLocal two_patches_local = pyGeo.DV_listLocal two_patches_indexed ++ [dv] /\
    dict_get (pyGeo.DV_namesLocal two_patches_local) "bump"
    = Some (Z.of_nat (List.length (pyGeo.DV_listLocal two_patches_indexed))) /\
    geoDVLocal.surface_id dv = 1 /\
    geoDVLocal.value dv = repeat (Cx 0 0) (List.length (geoDVLocal.coef_list dv)) /\
    NoDup (geoDVLocal.coef_list dv) /\
    Forall2 (master_at two_patches_indexed 1) (geoDVLocal.coef_list dv)
      (geoDVLocal.local_coef_index dv) /\
    getitem (pyGeo.surfs two_patches_indexed) 1 = Ok sf /\
    (forall i j g,
        0 <= i < surf_spline.Nctlu sf -> 0 <= j < surf_spline.Nctlv sf ->
        master_at two_patches_indexed 1 g (i, j) -> In g (geoDVLocal.coef_list dv)) /\
    map geoDVLocal.coef_list (pyGeo.DV_listLocal two_patches_local)
    = [map (fun k => 24 + k) (xrange 18)].
Proof.
  destruct (@addGeoDVLocal_masters two_patches_indexed two_patches_local "bump"
              (PyInt 0) (PyInt 1) 1) as (dv & sf & H);
    [vm_compute; reflexivity|].
  exists dv, sf. repeat (split; [apply H|]). vm_compute. reflexivity.
Defined.

(** ** Knot vectors *)

Ltac qc_ring :=
  apply Qc_is_canon; unfold Qcmult, Qcplus, Qcminus, Qcopp, Q2Qc; cbn [this];
  rewrite ?Qred_correct; ring.

Lemma half_double (x : Qc) : (Q2Qc (1 # 2) * (x + x) = x)%Qc.
Proof. qc_ring. Qed.

Lemma one_minus_involutive (a : list Qc) : one_minus (one_minus a) = a.
Proof.
  unfold one_minus. rewrite map_map. rewrite <- (map_id a) at 2.
  apply map_ext. intros x. ring.
Qed.

Lemma one_minus_rev (a : list Qc) : one_minus (List.rev a) = List.rev (one_minus a).
Proof. unfold one_minus. apply map_rev. Qed.

Lemma length_one_minus (a : list Qc) : List.length (one_minus a) = List.length a.
Proof. unfold one_minus. apply length_map. Qed.

Lemma length_average (a b : list Qc) :
  List.length (average a b) = Nat.min (List.length a) (List.length b).
Proof. unfold average. now rewrite length_map, length_combine. Qed.

Lemma average_same (a : list Qc) : average a a = a.
Proof.
  unfold average. induction a as [|x a IH]; [reflexivity|].
  cbn [combine map fst snd]. now rewrite half_double, IH.
Qed.

(** The shape of what the block leaves: a first half, the middle knot if
    there is one, and the mirror image of the first half. *)
Lemma symmetrize_shape (k : list Qc) :
  let n := List.length k in
  let m := Nat.div n 2 in
  let beg := average (firstn m k) (List.rev (one_minus (skipn (n - m) k))) in
  symmetrize k = beg ++ middle k ++ List.rev (one_minus beg) /\
  List.length beg = m /\ List.length (middle k) = (n - 2 * m)%nat.
Proof.
  intros n m beg.
  assert (Hm : (2 * m <= n)%nat).
  { unfold m. pose proof (Nat.Div0.mul_div_le n 2). lia. }
  assert (Hbeg : List.length beg = m).
  { unfold beg. rewrite length_average, length_firstn, length_rev, length_one_minus,
      length_skipn. fold n. lia. }
  assert (Hmid : List.length (middle k) = (n - 2 * m)%nat).
  { unfold middle. fold n m. rewrite length_skipn, length_firstn. fold n. lia. }
  split; [|split; [exact Hbeg|exact Hmid]].
  assert (Hshape : forall mid hi, mid = m -> hi = (n - m)%nat ->
            let b := average (firstn mid k) (List.rev (one_minus (skipn hi k))) in
            let k1 := set_slice k 0 mid b in
            set_slice k1 hi (List.length k1) (List.rev (one_minus b))
            = beg ++ middle k ++ List.rev (one_minus beg)).
  { intros mid hi -> ->. cbv zeta.
    change (average (firstn m k) (List.rev (one_minus (skipn (n - m) k)))) with beg.
    unfold set_slice. cbn [firstn app].
    rewrite skipn_all, app_nil_r, app_nil_l.
    rewrite firstn_app, Hbeg. rewrite firstn_all2 by lia.
    rewrite <- app_assoc. f_equal. f_equal.
    unfold middle. fold n m. now rewrite skipn_firstn_comm. }
  unfold symmetrize. fold n.
  destruct (Nat.eqb (Nat.modulo n 2) 1) eqn:Eodd.
  - apply Nat.eqb_eq in Eodd. pose proof (Nat.div_mod_eq n 2) as Hdiv. fold m in Hdiv.
    apply Hshape.
    + unfold m. replace n with (1 + m * 2)%nat at 1 by lia.
      replace (1 + m * 2 - 1)%nat with (m * 2)%nat by lia. now rewrite Nat.div_mul.
    + replace ((n - 1) / 2)%nat with m; [lia|].
      replace n with (1 + m * 2)%nat at 1 by lia.
      replace (1 + m * 2 - 1)%nat with (m * 2)%nat by lia. now rewrite Nat.div_mul.
  - apply Nat.eqb_neq in Eodd. pose proof (Nat.div_mod_eq n 2) as Hdiv. fold m in Hdiv.
    pose proof (Nat.mod_upper_bound n 2 ltac:(lia)) as Hb.
    apply Hshape; [reflexivity|]. fold m. lia.
Qed.

Lemma balanced_pointwise (s : list Qc) (i j : nat) (a b : Qc) :
  balanced s ->
  (i + j + 1 = List.length s)%nat -> (i < j)%nat ->
  nth_error s i = Some a -> nth_error s j = Some b -> (a + b = 1)%Qc.
Proof.
  unfold balanced. set (n := List.length s). set (m := Nat.div n 2).
  intros Hbal Hij Hlt Ha Hb.
  assert (Hm : (2 * m <= n)%nat).
  { unfold m. pose proof (Nat.Div0.mul_div_le n 2). lia. }
  pose proof (Nat.div_mod_eq n 2) as Hdiv. fold m in Hdiv.
  pose proof (Nat.mod_upper_bound n 2 ltac:(lia)) as Hb2.
  assert (Him : (i < m)%nat) by lia.
  apply (f_equal (fun l => nth_error l i)) in Hbal.
  unfold one_minus in Hbal. rewrite nth_error_map, nth_error_firstn in Hbal.
  replace (Nat.ltb i m) with true in Hbal by (symmetry; apply Nat.ltb_lt; lia).
  rewrite Ha in Hbal. cbn [option_map] in Hbal.
  rewrite nth_error_rev, length_skipn in Hbal. fold n in Hbal.
  replace (Nat.ltb i (n - (n - m))) with true in Hbal by (symmetry; apply Nat.ltb_lt; lia).
  rewrite nth_error_skipn in Hbal.
  replace (n - m + (n - (n - m) - S i))%nat with j in Hbal by lia.
  rewrite Hb in Hbal. injection Hbal as ->. ring.
Qed.

(** X13.  The block of [propagateKnotVectors] that makes a knot vector
    symmetric keeps its length, leaves the middle knot of a vector of odd
    length as it is, and makes every other knot and its mirror add up to
    1 (in exact arithmetic); a vector that is already so is not changed,
    so the block does nothing when applied again. *)
Theorem symmetrize_balanced (k : list Qc) :
  List.length (symmetrize k) = List.length k /\
  balanced (symmetrize k) /\
  middle (symmetrize k) = middle k /\
  (forall i j a b,
      (i + j + 1 = List.length k)%nat -> i <> j ->
      nth_error (symmetrize k) i = Some a -> nth_error (symmetrize k) j = Some b ->
      (a + b = 1)%Qc) /\
  (balanced k -> symmetrize k = k) /\
  symmetrize (symmetrize k) = symmetrize k.
Proof.
  destruct (symmetrize_shape k) as (Hs & Hbeg & Hmid).
  set (n := List.length k) in *. set (m := Nat.div n 2) in *.
  set (beg := average (firstn m k) (List.rev (one_minus (skipn (n - m) k)))) in *.
  assert (Hm : (2 * m <= n)%nat).
  { unfold m. pose proof (Nat.Div0.mul_div_le n 2). lia. }
  assert (Hlen : List.length (symmetrize k) = n).
  { rewrite Hs, !length_app, length_rev, length_one_minus, Hbeg, Hmid. lia. }
  assert (Hbal : balanced (symmetrize k)).
  { unfold balanced. rewrite Hlen. fold m. rewrite Hs.
    rewrite skipn_app, Hbeg, skipn_all2 by lia. rewrite app_nil_l.
    rewrite skipn_app, Hmid, skipn_all2 by lia. rewrite app_nil_l.
    replace (n - m - m - (n - 2 * m))%nat with 0%nat by lia. cbn [skipn].
    rewrite rev_involutive.
    rewrite firstn_app, Hbeg, firstn_all2 by lia.
    replace (m - m)%nat with 0%nat by lia. cbn [firstn]. now rewrite app_nil_r. }
  assert (Hfix : forall k', balanced k' -> symmetrize k' = k').
  { clear. intros k Hbal. destruct (symmetrize_shape k) as (Hs & Hbeg & Hmid).
    unfold balanced in Hbal.
    set (n := List.length k) in *. set (m := Nat.div n 2) in *.
    assert (Hm : (2 * m <= n)%nat).
    { unfold m. pose proof (Nat.Div0.mul_div_le n 2). lia. }
    assert (Hhi : skipn (n - m) k = List.rev (one_minus (firstn m k))).
    { rewrite <- Hbal. now rewrite rev_involutive. }
    rewrite Hhi, one_minus_rev, one_minus_involutive, rev_involutive, average_same in Hs.
    rewrite Hs, <- Hhi. unfold middle. fold n m.
    rewrite <- (firstn_skipn (n - m) k) at 4. rewrite app_assoc. f_equal.
    rewrite <- (firstn_skipn m (firstn (n - m) k)) at 2. f_equal.
    rewrite firstn_firstn. f_equal. lia. }
  split; [exact Hlen|]. split; [exact Hbal|]. split; [|split; [|split]].
  - unfold middle. rewrite Hlen. fold n m. rewrite Hs.
    rewrite app_assoc, firstn_app, !length_app, Hbeg, Hmid.
    rewrite firstn_all2 by (rewrite length_app, Hbeg, Hmid; lia).
    replace (n - m - (m + (n - 2 * m)))%nat with 0%nat by lia. cbn [firstn].
    rewrite app_nil_r, skipn_app, Hbeg, skipn_all2 by lia.
    replace (m - m)%nat with 0%nat by lia. rewrite app_nil_l. reflexivity.
  - intros i j a b Hij Hne Ha Hb.
    destruct (Nat.lt_ge_cases i j) as [Hlt|Hge].
    + apply (@balanced_pointwise (symmetrize k) i j a b Hbal); auto. rewrite Hlen. exact Hij.
    + rewrite Qcplus_comm.
      apply (@balanced_pointwise (symmetrize k) j i b a Hbal); auto; [rewrite Hlen|]; lia.
  - apply Hfix.
  - apply Hfix. exact Hbal.
Qed.

(** A loop over the positions of a list is a loop over the list. *)
Lemma for_index_from {A S} (f : A -> S -> result S) (l : list A) :
  forall (pre : list A) (s : S),
    for_ (xrange2 (Z.of_nat (List.length pre)) (Z.of_nat (List.length (pre ++ l))))
      (fun i st => x <- getitem (pre ++ l) i ;; f x st) s
    = for_ l f s.
Proof.
  induction l as [|x l IH]; intros pre s.
  - rewrite app_nil_r, xrange2_nil by lia. reflexivity.
  - rewrite xrange2_cons by (rewrite length_app; simpl; lia).
    cbn [for_]. rewrite getitem_nonneg by (rewrite length_app; simpl; lia).
    rewrite Nat2Z.id, nth_error_app2, Nat.sub_diag by lia. cbn [nth_error lift bind].
    destruct (f x s) as [t|]; cbn [bind]; [|reflexivity].
    replace (pre ++ x :: l) with ((pre ++ [x]) ++ l) by (now rewrite <- app_assoc).
    replace (Z.of_nat (List.length pre) + 1) with (Z.of_nat (List.length (pre ++ [x])))
      by (rewrite length_app; simpl; lia).
    apply IH.
Qed.

Lemma for_index {A S} (f : A -> S -> result S) (l : list A) (s : S) :
  for_ (xrange (Z.of_nat (List.length l))) (fun i st => x <- getitem l i ;; f x st) s
  = for_ l f s.
Proof. rewrite xrange_xrange2. exact (for_index_from f l [] s). Qed.

Lemma of_group_app (g : Z) (a b : list edge.obj) :
  of_group g (a ++ b) = of_group g a ++ of_group g b.
Proof. unfold of_group. apply filter_app. Qed.

Lemma of_group_none (g : Z) (l : list edge.obj) :
  Forall (fun c => edge.dg c <> g) l -> of_group g l = [].
Proof.
  unfold of_group. induction 1 as [|c l Hc _ IH]; [reflexivity|]. cbn [filter].
  replace (edge.dg c =? g) with false by (symmetry; now apply Z.eqb_neq). exact IH.
Qed.

Lemma of_group_single (g : Z) (c : edge.obj) :
  of_group g [c] = if edge.dg c =? g then [c] else [].
Proof. reflexivity. Qed.

(** The first loop of [propagateKnotVectors], from any point on. *)
Lemma group_steps (con seen : list edge.obj) (dg : list (list edge.obj)) (dg_counter : Z) :
  Z.of_nat (List.length dg) = dg_counter + 1 ->
  (forall g, (g < List.length dg)%nat -> nth_error dg g = Some (of_group (Z.of_nat g) seen)) ->
  Forall (fun c => 0 <= edge.dg c <= dg_counter) seen ->
  numbered_from dg_counter con = true ->
  exists dg' dg_counter',
    for_ con group_step (dg, dg_counter) = Ok (dg', dg_counter') /\
    Z.of_nat (List.length dg') = dg_counter' + 1 /\
    (forall g, (g < List.length dg')%nat ->
               nth_error dg' g = Some (of_group (Z.of_nat g) (seen ++ con))) /\
    Forall (fun c => 0 <= edge.dg c <= dg_counter') (seen ++ con).
Proof.
  revert seen dg dg_counter. induction con as [|c con IH]; intros seen dg ctr Hlen Hdg Hseen Hnum.
  - exists dg, ctr. rewrite app_nil_r. cbn. auto.
  - cbn [numbered_from] in Hnum. apply andb_true_iff in Hnum. destruct Hnum as (Hc & Hnum).
    apply andb_true_iff in Hc. destruct Hc as (Hc0 & Hc1).
    apply Z.leb_le in Hc0, Hc1.
    replace (seen ++ c :: con) with ((seen ++ [c]) ++ con) by (now rewrite <- app_assoc).
    cbn [for_]. unfold group_step at 1.
    destruct (edge.dg c >? ctr) eqn:Enew.
    + assert (Edg : edge.dg c = ctr + 1) by lia. cbn [bind].
      replace (Z.max ctr (edge.dg c)) with (ctr + 1) in Hnum by lia.
      apply IH; [| | |exact Hnum].
      * rewrite length_app. cbn [List.length]. lia.
      * intros g Hg. rewrite length_app in Hg. cbn [List.length] in Hg.
        rewrite of_group_app, of_group_single.
        destruct (Nat.eq_dec g (List.length dg)) as [->|Hne].
        -- rewrite nth_error_app2, Nat.sub_diag by lia. cbn [nth_error].
           replace (edge.dg c =? Z.of_nat (List.length dg)) with true
             by (symmetry; apply Z.eqb_eq; lia).
           rewrite of_group_none; [reflexivity|].
           eapply Forall_impl; [|exact Hseen]. cbv beta. intros a Ha. lia.
        -- rewrite nth_error_app1 by lia.
           replace (edge.dg c =? Z.of_nat g) with false by (symmetry; apply Z.eqb_neq; lia).
           rewrite app_nil_r. apply Hdg. lia.
      * apply Forall_app. split.
        -- eapply Forall_impl; [|exact Hseen]. cbv beta. intros a Ha. lia.
        -- constructor; [lia|constructor].
    + assert (Hle : edge.dg c <= ctr) by lia.
      replace (Z.max ctr (edge.dg c)) with ctr in Hnum by lia.
      assert (Hk : (Z.to_nat (edge.dg c) < List.length dg)%nat) by lia.
      rewrite getitem_nat by lia. rewrite (Hdg _ Hk). cbn [lift bind].
      assert (Hset : forall v, setitem dg (edge.dg c) v
                               = Ok (set_nth dg (Z.to_nat (edge.dg c)) v)).
      { intros v. rewrite <- (setitem_of_nat dg v Hk). f_equal. lia. }
      rewrite Hset. cbn [bind].
      apply IH; [| | |exact Hnum].
      * now rewrite length_set_nth.
      * intros g Hg. rewrite length_set_nth in Hg.
        rewrite of_group_app, of_group_single.
        destruct (Nat.eq_dec (Z.to_nat (edge.dg c)) g) as [<-|Hne].
        -- rewrite nth_error_set_nth_eq by exact Hk. rewrite Z2Nat.id by lia.
           now rewrite Z.eqb_refl.
        -- rewrite nth_error_set_nth_ne by exact Hne.
           replace (edge.dg c =? Z.of_nat g) with false by (symmetry; apply Z.eqb_neq; lia).
           rewrite app_nil_r. now apply Hdg.
      * apply Forall_app. split; [exact Hseen|]. constructor; [lia|constructor].
Qed.

(** X14.  When the driving groups of the records are numbered from 0 in
    the order in which they first appear, the first loop of
    [propagateKnotVectors] returns the records sorted by group: entry [g]
    of its list holds the records of group [g], in their order, and every
    record is in the entry of its group. *)
Theorem group_records_sorted (con : list edge.obj) :
  numbered_from (-1) con = true ->
  exists dg,
    group_records con = Ok dg /\
    (forall g, 0 <= g < Z.of_nat (List.length dg) -> getitem dg g = Ok (of_group g con)) /\
    (forall c, In c con -> 0 <= edge.dg c < Z.of_nat (List.length dg)).
Proof.
  intros Hnum. unfold group_records. rewrite for_index.
  destruct (@group_steps con [] [] (-1)) as (dg & ctr & Hrun & Hlen & Hdg & Hall); auto.
  - intros g Hg. cbn in Hg. lia.
  - rewrite Hrun. cbn [bind fst]. exists dg. split; [reflexivity|]. split.
    + intros g Hg. rewrite getitem_nat by lia. rewrite Hdg by lia.
      rewrite Z2Nat.id by lia. reflexivity.
    + intros c Hc. cbn [app] in Hall. rewrite Forall_forall in Hall.
      specialize (Hall c Hc). lia.
Qed.

Lemma group_records_sorted_witness :
  exists dg,
    group_records two_patches_con = Ok dg /\
    (forall g, 0 <= g < Z.of_nat (List.length dg) ->
               getitem dg g = Ok (of_group g two_patches_con)) /\
    (forall c, In c two_patches_con -> 0 <= edge.dg c < Z.of_nat (List.length dg)).
Proof.
  apply (@group_records_sorted two_patches_con). vm_compute. reflexivity.
Defined.

(** Assigning a knot vector, and reading one afterwards. *)
Lemma set_knots_spec (o o' : pyGeo.obj) (f e : Z) (kv : list Qc) :
  0 <= f ->
  set_knots o f e kv = Ok o' ->
  forall b, 0 <= fst b ->
    (same_slot b (f, e) -> get_knots o' (fst b) (snd b) = Ok kv) /\
    (~ same_slot b (f, e) -> get_knots o' (fst b) (snd b) = get_knots o (fst b) (snd b)).
Proof.
  intros Hf H [f' e'] Hf'. cbn [fst snd] in *. unfold set_knots in H.
  apply bind_Ok in H. destruct H as (sf & Hsf & H).
  apply bind_Ok in H. destruct H as (ss & Hss & H). injection H as <-.
  unfold get_knots, same_slot. cbn [fst snd pyGeo.surfs pyGeo.set_surfs].
  destruct (Z.eq_dec f' f) as [->|Hne].
  - erewrite setitem_get_same; [|exact Hf|exact Hss]. rewrite Hsf. cbn [bind].
    split.
    + intros (_ & ->). destruct (along_u e); reflexivity.
    + intros Hns. destruct (along_u e') eqn:E', (along_u e) eqn:E; try reflexivity;
        exfalso; apply Hns; auto.
  - erewrite setitem_get_other; [|exact Hf|exact Hf'|exact Hne|exact Hss].
    split; [intros (E & _); contradiction|reflexivity].
Qed.

Lemma same_slot_dec (a b : Z * Z) : {same_slot a b} + {~ same_slot a b}.
Proof.
  unfold same_slot. destruct (Z.eq_dec (fst a) (fst b)) as [E|E];
    [|right; intros (H & _); contradiction].
  destruct (bool_dec (along_u (snd a)) (along_u (snd b))) as [E'|E'];
    [left; auto|right; intros (_ & H); contradiction].
Qed.

(** The loop that copies a knot vector to the edges of a group. *)
Lemma copy_knots_spec (kv : list Qc) (g : list edge.obj) (o o' : pyGeo.obj) :
  (forall a, In a (group_sides g) -> 0 <= fst a) ->
  copy_knots kv g o = Ok o' ->
  (forall a, In a (group_sides g) -> get_knots o' (fst a) (snd a) = Ok kv) /\
  (forall b, 0 <= fst b -> (forall a, In a (group_sides g) -> ~ same_slot b a) ->
             get_knots o' (fst b) (snd b) = get_knots o (fst b) (snd b)) /\
  (forall b, 0 <= fst b -> get_knots o (fst b) (snd b) = Ok kv ->
             get_knots o' (fst b) (snd b) = Ok kv).
Proof.
  unfold copy_knots. rewrite for_index. revert o.
  induction g as [|c g IH]; intros o Hpos Hrun.
  - cbn in Hrun. injection Hrun as <-. split; [intros a []|]. split; auto.
  - cbn [for_] in Hrun. apply bind_Ok in Hrun. destruct Hrun as (t & Hc & Hrun).
    apply bind_Ok in Hc. destruct Hc as (t1 & H1 & H2).
    assert (Hp1 : 0 <= edge.f1 c).
    { apply (Hpos (edge.f1 c, edge.e1 c)). cbn. now left. }
    pose proof (@set_knots_spec o t1 (edge.f1 c) (edge.e1 c) kv Hp1 H1) as S1.
    assert (Hstep : (forall a, In a (sides c) -> get_knots t (fst a) (snd a) = Ok kv) /\
                    (forall b, 0 <= fst b -> (forall a, In a (sides c) -> ~ same_slot b a) ->
                               get_knots t (fst b) (snd b) = get_knots o (fst b) (snd b)) /\
                    (forall b, 0 <= fst b -> get_knots o (fst b) (snd b) = Ok kv ->
                               get_knots t (fst b) (snd b) = Ok kv)).
    { unfold sides. destruct (edge.type c =? 1) eqn:Et.
      - assert (Hp2 : 0 <= edge.f2 c).
        { apply (Hpos (edge.f2 c, edge.e2 c)). cbn. unfold sides. rewrite Et. cbn. auto. }
        pose proof (@set_knots_spec t1 t (edge.f2 c) (edge.e2 c) kv Hp2 H2) as S2.
        assert (K1 : forall b, 0 <= fst b -> get_knots t1 (fst b) (snd b) = Ok kv ->
                               get_knots t (fst b) (snd b) = Ok kv).
        { intros b Hb Hk. destruct (same_slot_dec b (edge.f2 c, edge.e2 c)) as [E|E].
          - now apply S2.
          - rewrite (proj2 (S2 b Hb) E). exact Hk. }
        split; [|split].
        + intros a [<-|[<-|[]]].
          * apply (K1 (edge.f1 c, edge.e1 c)); [exact Hp1|].
            apply (S1 (edge.f1 c, edge.e1 c)); [exact Hp1|]. split; reflexivity.
          * apply (S2 (edge.f2 c, edge.e2 c)); [exact Hp2|]. split; reflexivity.
        + intros b Hb Hn.
          rewrite (proj2 (S2 b Hb)) by (apply Hn; cbn; auto).
          apply (S1 b Hb). apply Hn. cbn. auto.
        + intros b Hb Hk. apply K1; [exact Hb|].
          destruct (same_slot_dec b (edge.f1 c, edge.e1 c)) as [E|E].
          * now apply S1.
          * rewrite (proj2 (S1 b Hb) E). exact Hk.
      - injection H2 as <-. split; [|split].
        + intros a [<-|[]]. apply (S1 (edge.f1 c, edge.e1 c)); [exact Hp1|]. split; reflexivity.
        + intros b Hb Hn. apply (S1 b Hb). apply Hn. cbn. auto.
        + intros b Hb Hk. destruct (same_slot_dec b (edge.f1 c, edge.e1 c)) as [E|E].
          * now apply S1.
          * rewrite (proj2 (S1 b Hb) E). exact Hk. }
    destruct Hstep as (A1 & B1 & C1).
    destruct (IH t) as (A2 & B2 & C2); [|exact Hrun|].
    { intros a Ha. apply Hpos. unfold group_sides. cbn [flat_map]. apply in_or_app. now right. }
    split; [|split].
    + intros a Ha. unfold group_sides in Ha. cbn [flat_map] in Ha. apply in_app_or in Ha.
      destruct Ha as [Ha|Ha]; [|now apply A2].
      apply C2; [|now apply A1]. apply Hpos. unfold group_sides. cbn [flat_map].
      apply in_or_app. now left.
    + intros b Hb Hn. rewrite B2; [apply B1; [exact Hb|]|exact Hb|].
      * intros a Ha. apply Hn. unfold group_sides. cbn [flat_map]. apply in_or_app. now left.
      * intros a Ha. apply Hn. unfold group_sides. cbn [flat_map]. apply in_or_app. now right.
    + intros b Hb Hk. apply C2; [exact Hb|]. now apply C1.
Qed.

Lemma group_knots_eq (o : pyGeo.obj) (g : list edge.obj) :
  group_knots o g = knots_of_group o g.
Proof.
  unfold group_knots, knots_of_group. rewrite getitem_nat by lia.
  destruct g; reflexivity.
Qed.

(** X15.  The loop of [propagateKnotVectors] over the groups, when no two
    groups hold an edge of the same surface in the same direction and no
    face is counted from the end: every side of every record of a group
    ends with one knot vector, that which the first edge of the group had
    at the start, made symmetric when an edge of the group is reversed.
    So the two sides of a joined record have the same knot vector. *)
Theorem assign_knots_shared (dg : list (list edge.obj)) (self o : pyGeo.obj) :
  groups_apart dg ->
  assign_knots dg self = Ok o ->
  forall i g, nth_error dg i = Some g ->
    exists kv,
      knots_of_group self g = Ok kv /\
      forall c a, In c g -> In a (sides c) -> get_knots o (fst a) (snd a) = Ok kv.
Proof.
  intros (Hpos & Hapart) Hrun. unfold assign_knots in Hrun.
  apply (for_invariant_fresh _
           (fun d t =>
              (forall i g, In (Z.of_nat i) d -> nth_error dg i = Some g ->
                 exists kv, knots_of_group self g = Ok kv /\
                            forall a, In a (group_sides g) ->
                                      get_knots t (fst a) (snd a) = Ok kv) /\
              (forall b, 0 <= fst b ->
                 (forall i g a, In (Z.of_nat i) d -> nth_error dg i = Some g ->
                                In a (group_sides g) -> ~ same_slot b a) ->
                 get_knots t (fst b) (snd b) = get_knots self (fst b) (snd b)))) in Hrun.
  - destruct Hrun as (Hall & _). intros i g Hg.
    destruct (Hall i g) as (kv & Hkv & Hs); [|exact Hg|].
    { apply in_xrange. split; [lia|]. apply Nat2Z.inj_lt. apply nth_error_Some. congruence. }
    exists kv. split; [exact Hkv|]. intros c a Hc Ha. apply Hs.
    unfold group_sides. apply in_flat_map. eauto.
  - apply NoDup_xrange.
  - split; [intros i g []|]. intros b _ _. reflexivity.
  - intros d x t t' Hx Hnew _ (Hdone & Hrest) Hb. apply in_xrange in Hx.
    rewrite getitem_nat in Hb by lia.
    destruct (nth_error dg (Z.to_nat x)) as [g|] eqn:Eg; [|discriminate].
    cbn [lift bind] in Hb. rewrite group_knots_eq in Hb.
    apply bind_Ok in Hb. destruct Hb as (kv & Hkv & Hcopy).
    assert (Hgin : In g dg) by (eapply nth_error_In; eauto).
    assert (Hfresh : forall i gi, In (Z.of_nat i) d -> nth_error dg i = Some gi ->
                       i <> Z.to_nat x).
    { intros i gi Hi _ ->. rewrite Z2Nat.id in Hi by lia. contradiction. }
    apply copy_knots_spec in Hcopy; [|intros a Ha; exact (Hpos g a Hgin Ha)].
    destruct Hcopy as (A & B & _).
    assert (Hkv0 : knots_of_group self g = Ok kv).
    { unfold knots_of_group in *. destruct g as [|first g]; [discriminate|].
      cbn [hd_error lift bind] in *.
      assert (R : get_knots t (edge.f1 first) (edge.e1 first)
                  = get_knots self (edge.f1 first) (edge.e1 first)).
      { apply (Hrest (edge.f1 first, edge.e1 first)).
        - apply (Hpos (first :: g)); [exact Hgin|]. cbn. now left.
        - intros i gi a Hi Hgi Ha Hs.
          apply (Hapart (Z.to_nat x) i (first :: g) gi (edge.f1 first, edge.e1 first) a);
            auto.
          + intros E. apply (Hfresh i gi Hi Hgi). congruence.
          + cbn. now left. }
      rewrite <- R. exact Hkv. }
    split.
    + intros i gi Hi Hgi. apply in_app_or in Hi. destruct Hi as [Hi|[E|[]]].
      * destruct (Hdone i gi Hi Hgi) as (kvi & Hkvi & Hsi).
        exists kvi. split; [exact Hkvi|]. intros a Ha.
        rewrite B; [now apply Hsi| |].
        -- apply (Hpos gi); [eapply nth_error_In; eauto|exact Ha].
        -- intros b Hb. apply (Hapart i (Z.to_nat x) gi g a b); auto.
           exact (Hfresh i gi Hi Hgi).
      * assert (i = Z.to_nat x) by lia. subst i.
        assert (gi = g) by congruence. subst gi.
        exists kv. split; [exact Hkv0|exact A].
    + intros b Hb Hn. rewrite B; [apply Hrest; [exact Hb|]|exact Hb|].
      * intros i gi a Hi Hgi Ha. apply (Hn i gi a); auto. apply in_or_app. now left.
      * intros a Ha. apply (Hn (Z.to_nat x) g a); auto.
        apply in_or_app. right. left. lia.
Qed.

Lemma two_patches_groups_apart : groups_apart two_patches_groups.
Proof.
  split.
  - intros g a Hg Ha. vm_compute in Hg.
    repeat (destruct Hg as [<-|Hg]; [vm_compute in Ha;
      repeat (destruct Ha as [<-|Ha]; [vm_compute; discriminate|]); destruct Ha|]).
    destruct Hg.
  - intros i j gi gj a b Hi Hj Hne Ha Hb (S1 & S2).
    destruct i as [|[|[|[|i]]]]; destruct j as [|[|[|[|j]]]]; vm_compute in Hi, Hj;
      try discriminate; try (exfalso; apply Hne; reflexivity);
      injection Hi as <-; injection Hj as <-; vm_compute in Ha, Hb;
      repeat (destruct Ha as [<-|Ha]; [|]); try destruct Ha;
      repeat (destruct Hb as [<-|Hb]; [|]); try destruct Hb;
      vm_compute in S1, S2; discriminate.
Qed.

Lemma assign_knots_shared_witness :
  groups_apart two_patches_groups /\
  assign_knots two_patches_groups two_patches_knots = Ok two_patches_assigned /\
  forall i g, nth_error two_patches_groups i = Some g ->
    exists kv,
      knots_of_group two_patches_knots g = Ok kv /\
      forall c a, In c g -> In a (sides c) ->
                  get_knots two_patches_assigned (fst a) (snd a) = Ok kv.
Proof.
  split; [exact two_patches_groups_apart|].
  split; [vm_compute; reflexivity|].
  apply (@assign_knots_shared two_patches_groups two_patches_knots two_patches_assigned).
  - exact two_patches_groups_apart.
  - vm_compute. reflexivity.
Defined.

(** ** Looking a side up in the connectivity table *)

Lemma findCon_from_spec (l : list edge.obj) (i isurf e : Z) :
  match findCon_from l i isurf e with
  | Some (k, first) =>
      exists n c,
        k = i + Z.of_nat n /\ nth_error l n = Some c /\
        (if first : bool then edge.f1 c = isurf /\ edge.e1 c = e
         else (edge.f2 c = isurf /\ edge.e2 c = e) /\
              ~ (edge.f1 c = isurf /\ edge.e1 c = e)) /\
        forall m c', (m < n)%nat -> nth_error l m = Some c' ->
                     references isurf e c' = false
  | None => forall c, In c l -> references isurf e c = false
  end.
Proof.
  revert i. induction l as [|c l IH]; intros i; cbn [findCon_from].
  - intros c [].
  - destruct ((edge.f1 c =? isurf) && (edge.e1 c =? e)) eqn:E1.
    + exists 0%nat, c. split; [lia|]. split; [reflexivity|]. split; [|lia].
      apply andb_prop in E1. lia.
    + destruct ((edge.f2 c =? isurf) && (edge.e2 c =? e)) eqn:E2.
      * exists 0%nat, c. split; [lia|]. split; [reflexivity|]. split; [|lia].
        apply andb_prop in E2. split; [lia|]. intros (A & B).
        rewrite <- A, <- B, !Z.eqb_refl in E1. discriminate.
      * specialize (IH (i + 1)).
        destruct (findCon_from l (i + 1) isurf e) as [[k first]|].
        -- destruct IH as (n & c0 & Hk & Hn & Hside & Hbefore).
           exists (S n), c0. split; [lia|]. split; [exact Hn|]. split; [exact Hside|].
           intros [|m] c' Hm Hc'; cbn [nth_error] in Hc'.
           ++ injection Hc' as <-. unfold references. now rewrite E1, E2.
           ++ apply (Hbefore m); [lia|exact Hc'].
        -- intros c' [<-|Hc']; [unfold references; now rewrite E1, E2|now apply IH].
Qed.

(** X16.  [_findConIndex(isurf, edge)]: when a record of the table names
    the side, the answer is the position of the FIRST such record, with
    [True] when the side is the record's first side and [False] when it is
    only its second; when no record names it, the program leaves with exit
    status 1 and the message that every edge must be in the list. *)
Theorem findConIndex_first (self : pyGeo.obj) (con : list edge.obj) (isurf e : Z) :
  pyGeo.con self = Some con ->
  (existsb (references isurf e) con = true ->
   exists i first c,
     _findConIndex self isurf e = Ok (i, first) /\
     getitem con i = Ok c /\ 0 <= i /\
     (if first : bool then edge.f1 c = isurf /\ edge.e1 c = e
      else (edge.f2 c = isurf /\ edge.e2 c = e) /\
           ~ (edge.f1 c = isurf /\ edge.e1 c = e)) /\
     forall j c', 0 <= j < i -> getitem con j = Ok c' -> references isurf e c' = false) /\
  (existsb (references isurf e) con = false ->
   _findConIndex self isurf e
   = Raise (SystemExit 1
       "Error: Edge was not found in the edge list. EVERY edge MUST appear in the edge con list")).
Proof.
  intros Hcon. unfold _findConIndex. rewrite Hcon.
  pose proof (findCon_from_spec con 0 isurf e) as S.
  destruct (findCon_from con 0 isurf e) as [[k first]|]; cbn [lift].
  - split.
    + intros _. destruct S as (n & c & Hk & Hn & Hside & Hbefore).
      exists k, first, c. split; [reflexivity|].
      assert (Hkn : Z.to_nat k = n) by lia.
      split; [rewrite getitem_nat by lia; rewrite Hkn, Hn; reflexivity|].
      split; [lia|]. split; [exact Hside|].
      intros j c' Hj Hc'. rewrite getitem_nat in Hc' by lia.
      destruct (nth_error con (Z.to_nat j)) eqn:Ej; [|discriminate].
      injection Hc' as <-. apply (Hbefore (Z.to_nat j)); [lia|exact Ej].
    + intros Hno. exfalso. destruct S as (n & c & _ & Hn & Hside & _).
      assert (Hc : references isurf e c = true).
      { unfold references. destruct first.
        - destruct Hside as (-> & ->). now rewrite !Z.eqb_refl.
        - destruct Hside as ((-> & ->) & _). rewrite !Z.eqb_refl. apply orb_true_r. }
      apply nth_error_In in Hn.
      assert (existsb (references isurf e) con = true)
        by (apply existsb_exists; eauto).
      congruence.
  - split; [|reflexivity].
    intros Hyes. apply existsb_exists in Hyes. destruct Hyes as (c & Hc & Hr).
    rewrite (S c Hc) in Hr. discriminate.
Qed.

Lemma findConIndex_first_witness :
  pyGeo.con four_patches_joined = Some four_patches_con /\
  (existsb (references 3 2) four_patches_con = true ->
   exists i first c,
     _findConIndex four_patches_joined 3 2 = Ok (i, first) /\
     getitem four_patches_con i = Ok c /\ 0 <= i /\
     (if first : bool then edge.f1 c = 3 /\ edge.e1 c = 2
      else (edge.f2 c = 3 /\ edge.e2 c = 2) /\ ~ (edge.f1 c = 3 /\ edge.e1 c = 2)) /\
     forall j c', 0 <= j < i -> getitem four_patches_con j = Ok c' ->
                  references 3 2 c' = false) /\
  (existsb (references 3 9) four_patches_con = false ->
   _findConIndex four_patches_joined 3 9
   = Raise (SystemExit 1
       "Error: Edge was not found in the edge list. EVERY edge MUST appear in the edge con list")).
Proof.
  split; [reflexivity|]. split.
  - apply (@findConIndex_first four_patches_joined four_patches_con 3 2 eq_refl).
  - apply (@findConIndex_first four_patches_joined four_patches_con 3 9 eq_refl).
Defined.

(** ** The slot of a side in the table under construction *)




(** ** The table on the screen and in the file *)






